(** * py-cgroups: path resolution and process-set access over the cgroup tree

    A shallow embedding of [cgroup/path.py] and [pycgroups/errors.py].

    Conventions of the embedding.
    - A path string is represented by the list of its names: the string
      [/sys/fs/cgroup/cpu/g1] is [["sys"; "fs"; "cgroup"; "cpu"; "g1"]].
      The [*path] arguments of the Python functions are such names, the
      way [Cgroup] passes them ([pathlib.Path(...).parts]).
    - Characters are code points below 256.
    - The operating system is an explicit [world]: the file tree and the
      log of the writes performed on it.  Python functions that touch the
      tree take the world and return it next to their outcome; an outcome
      is a value or a raised exception. *)

From stdpp Require Import base strings list gmap sets.
From Stdlib Require Import ZArith Ascii DecimalString DecimalN.

Open Scope string_scope.
Open Scope list_scope.

#[global] Set Warnings "-clear-no-such-hyp".

(** ** Python [str] methods used by the module *)

Module str.

(** [c.isspace()] for a code point below 256. *)
Definition isspace (c : ascii) : bool :=
  let n := nat_of_ascii c in
  (Nat.leb 9 n && Nat.leb n 13) || (Nat.leb 28 n && Nat.leb n 32)
  || Nat.eqb n 133 || Nat.eqb n 160.

(** [c in chars] *)
Fixpoint contains (chars : string) (c : ascii) : bool :=
  match chars with
  | EmptyString => false
  | String d chars' => if Ascii.eqb c d then true else contains chars' c
  end.

(** [s.lstrip(chars)]: drops the longest prefix made of characters that
    occur in [chars]; [chars] is a set of characters, not a prefix. *)
Fixpoint lstrip_chars (chars s : string) : string :=
  match s with
  | EmptyString => EmptyString
  | String c s' => if contains chars c then lstrip_chars chars s' else s
  end.

(** [s.lstrip()] *)
Fixpoint lstrip (s : string) : string :=
  match s with
  | EmptyString => EmptyString
  | String c s' => if isspace c then lstrip s' else s
  end.

(** [s.rstrip()] *)
Fixpoint rstrip (s : string) : string :=
  match s with
  | EmptyString => EmptyString
  | String c s' =>
      match rstrip s' with
      | EmptyString => if isspace c then EmptyString else String c EmptyString
      | r => String c r
      end
  end.

(** [s.strip()] *)
Definition strip (s : string) : string := lstrip (rstrip s).

(** [s.split(sep)] for a separator of one character. *)
Fixpoint split (sep : ascii) (s : string) : list string :=
  match s with
  | EmptyString => [EmptyString]
  | String c s' =>
      if Ascii.eqb c sep then EmptyString :: split sep s'
      else match split sep s' with
           | w :: ws => String c w :: ws
           | [] => [String c EmptyString]
           end
  end.

(** [str(n)] for an integer. *)
Definition of_int (z : Z) : string := NilZero.string_of_int (Z.to_int z).

(** [str(n)] for a natural number. *)
Definition of_N (n : N) : string := NilZero.string_of_uint (N.to_uint n).

Definition LF : ascii := "010"%char.
Definition CR : ascii := "013"%char.

(** Text-mode decoding: [\r\n] and [\r] are read as [\n]. *)
Fixpoint universal_newlines (s : string) : string :=
  match s with
  | EmptyString => EmptyString
  | String c s' =>
      if Ascii.eqb c CR then
        String LF
          match s' with
          | String d s'' =>
              if Ascii.eqb d LF then universal_newlines s''
              else universal_newlines s'
          | EmptyString => EmptyString
          end
      else String c (universal_newlines s')
  end.

(** The lines of a decoded text, each with its terminating [\n]
    (the last one possibly without). *)
Fixpoint lines (s : string) : list string :=
  match s with
  | EmptyString => []
  | String c s' =>
      if Ascii.eqb c LF then String c EmptyString :: lines s'
      else match lines s' with
           | l :: ls => String c l :: ls
           | [] => [String c EmptyString]
           end
  end.

Definition startswith (p s : string) : bool := String.prefix p s.

Fixpoint endswith_char (c : ascii) (s : string) : bool :=
  match s with
  | EmptyString => false
  | String d EmptyString => Ascii.eqb d c
  | String _ s' => endswith_char c s'
  end.

End str.

(** A path: the names from the root directory down. *)
Abbreviation path := (list string).

(** ** Exceptions ([pycgroups/errors.py] and the built-in ones) *)

Inductive errno :=
  ENOENT | EBUSY | EEXIST | ENOTDIR | EISDIR | EINVAL | ENOTEMPTY.

(** [CGroupLookupError.Type] *)
Inductive lookup_type :=
| FILE_INSTEAD_OF_GROUP
| GROUP_INSTEAD_OF_FILE
| LINK
| FILE_NOT_EXISTS
| GROUP_NOT_EXISTS
| NOT_EXISTS
| AMBIGUITY_FILE_OR_GROUP
| AMBIGUITY_MULTI_FILES.

(** [CGroupAccessViolation.Type] *)
Inductive access_type := FAILED_WRITE.

(** A Python [dict] with string keys, in insertion order. *)
Abbreviation dict V := (list (string * V)).

Inductive exn :=
| OSError (e : errno) (filename : option path)
| ValueError (msg : string)
| TypeError (msg : string)
| IndexError (msg : string)
| AttributeError (msg : string)
| CGroupLookupError (error : lookup_type) (path : string) (msg : string)
| CGroupAccessViolation (error : access_type) (data : dict string) (msg : string).

Inductive result (A : Type) :=
| Ok (a : A)
| Raise (e : exn).
Arguments Ok {A} a.
Arguments Raise {A} e.

#[global] Instance errno_eq_dec : EqDecision errno.
Proof. solve_decision. Defined.
#[global] Instance lookup_type_eq_dec : EqDecision lookup_type.
Proof. solve_decision. Defined.
#[global] Instance access_type_eq_dec : EqDecision access_type.
Proof. solve_decision. Defined.
#[global] Instance exn_eq_dec : EqDecision exn.
Proof. solve_decision. Defined.

(** [d[k] = v] *)
Fixpoint dict_set {V} (k : string) (v : V) (d : dict V) : dict V :=
  match d with
  | [] => [(k, v)]
  | (k', v') :: d' =>
      if decide (k' = k) then (k, v) :: d' else (k', v') :: dict_set k v d'
  end.

(** [d.get(k)] *)
Fixpoint dict_get {V} (k : string) (d : dict V) : option V :=
  match d with
  | [] => None
  | (k', v') :: d' => if decide (k' = k) then Some v' else dict_get k d'
  end.

(** The string of an absolute path. *)
Definition path_str (p : path) : string := "/" +:+ String.concat "/" p.

Definition errno_code (e : errno) : string :=
  match e with
  | ENOENT => "2" | EBUSY => "16" | EEXIST => "17" | ENOTDIR => "20"
  | EISDIR => "21" | EINVAL => "22" | ENOTEMPTY => "39"
  end.

Definition strerror (e : errno) : string :=
  match e with
  | ENOENT => "No such file or directory"
  | EBUSY => "Device or resource busy"
  | EEXIST => "File exists"
  | ENOTDIR => "Not a directory"
  | EISDIR => "Is a directory"
  | EINVAL => "Invalid argument"
  | ENOTEMPTY => "Directory not empty"
  end.

(** [repr] of a string, for code points below 256: in single quotes, or
    in double quotes when the string holds a single quote and no double
    quote; the quote, the backslash and what cannot be printed are
    escaped. *)
Definition hex_digit (n : nat) : ascii :=
  ascii_of_nat (if Nat.ltb n 10 then 48 + n else 87 + n).

Definition repr_char (quote c : ascii) : string :=
  let n := nat_of_ascii c in
  if Ascii.eqb c quote || Ascii.eqb c "092"%char
  then String "092"%char (String c "")
  else if Nat.eqb n 9 then String "092"%char "t"
  else if Nat.eqb n 10 then String "092"%char "n"
  else if Nat.eqb n 13 then String "092"%char "r"
  else if Nat.ltb n 32 || Nat.eqb n 127
          || (Nat.leb 128 n && Nat.leb n 160) || Nat.eqb n 173
  then String "092"%char
         (String "x"%char (String (hex_digit (n / 16))
                             (String (hex_digit (n mod 16)) "")))
  else String c "".

Fixpoint repr_body (quote : ascii) (s : string) : string :=
  match s with
  | EmptyString => EmptyString
  | String c s' => repr_char quote c +:+ repr_body quote s'
  end.

Definition repr_str (s : string) : string :=
  let quote : ascii :=
    if str.contains s "'"%char && negb (str.contains s "034"%char)
    then "034"%char else "'"%char in
  String quote (repr_body quote s +:+ String quote "").

(** [repr] of a dict of strings. *)

Definition repr_dict (d : dict string) : string :=
  "{" +:+ String.concat ", "
            ((λ kv, repr_str kv.1 +:+ ": " +:+ repr_str kv.2) <$> d) +:+ "}".

(** [CGroupAccessViolation.__init__] *)
Definition new_CGroupAccessViolation (error : access_type) (data : dict string)
  : exn :=
  let msg := "Access violation: " +:+ repr_dict data +:+ "." in
  let msg :=
    if decide (error = FAILED_WRITE)
    then "Failed to write: " +:+ repr_dict data +:+ "."
    else msg in
  CGroupAccessViolation error data msg.

(** [CGroupLookupError.__init__]: the exception that leaves the
    constructor call.  For the two ambiguity types the constructor itself
    raises a [ValueError]. *)
Definition new_CGroupLookupError (error : lookup_type) (p : string) : exn :=
  match error with
  | FILE_INSTEAD_OF_GROUP =>
      CGroupLookupError error p ("Requested a group, but " +:+ p +:+ " is a file.")
  | GROUP_INSTEAD_OF_FILE =>
      CGroupLookupError error p ("Requested a file, but " +:+ p +:+ " is a group.")
  | LINK =>
      CGroupLookupError error p ("Cannot operate on a link: " +:+ p +:+ ".")
  | FILE_NOT_EXISTS =>
      CGroupLookupError error p ("Requested a file " +:+ p +:+ " does not exist.")
  | GROUP_NOT_EXISTS =>
      CGroupLookupError error p ("Requested a group " +:+ p +:+ " does not exist.")
  | NOT_EXISTS =>
      CGroupLookupError error p
        ("Could not find a file/folder with this name: " +:+ p +:+ ".")
  | AMBIGUITY_FILE_OR_GROUP =>
      ValueError
        ("Ambiguity: the same name given to files and groups: " +:+ p +:+ ".")
  | AMBIGUITY_MULTI_FILES =>
      ValueError
        ("Ambiguity: more than one subsystem have the file: " +:+ p +:+ ".")
  end.

(** [str(e)] *)
Definition str_exn (e : exn) : string :=
  match e with
  | OSError e None => "[Errno " +:+ errno_code e +:+ "] " +:+ strerror e
  | OSError e (Some f) =>
      "[Errno " +:+ errno_code e +:+ "] " +:+ strerror e +:+ ": "
        +:+ repr_str (path_str f)
  | ValueError msg | TypeError msg | IndexError msg | AttributeError msg => msg
  | CGroupLookupError _ _ msg => msg
  | CGroupAccessViolation _ _ msg => msg
  end.

(** ** The operating system *)

(** What a path leads to.  [Dir true] is a directory reached through a
    symbolic link.  [File] is a regular file, with the behaviour the
    library documents.  [Members] stands for a membership pseudo-file of
    the kernel ([tasks], [cgroup.procs]) in the examples: it lists the
    identifiers attached to the group.  What the kernel does with an
    identifier written to such a file is not fixed by the code: here the
    write of a number is accepted and the number then listed, though a
    kernel may refuse it, and takes the task out of the group that held
    it.  What is proved about reading back what was written is stated
    for regular files. *)
Inductive node :=
| Dir (link : bool)
| File (data : string)
| Members (ids : list N).

#[global] Instance node_eq_dec : EqDecision node.
Proof. solve_decision. Defined.

Record world := World {
  tree : gmap path node;
  written : list (path * string)
}.

(** Computations that may change the world. *)
Definition M (A : Type) : Type := world → result A * world.

Definition retM {A} (a : A) : M A := λ w, (Ok a, w).
Definition raiseM {A} (e : exn) : M A := λ w, (Raise e, w).
Definition bindM {A B} (m : M A) (k : A → M B) : M B :=
  λ w, match m w with
       | (Ok a, w') => k a w'
       | (Raise e, w') => (Raise e, w')
       end.

(** [try: m except Exception as e: h e] *)
Definition catchM {A} (m : M A) (h : exn → M A) : M A :=
  λ w, match m w with
       | (Ok a, w') => (Ok a, w')
       | (Raise e, w') => h e w'
       end.

(** Computations that only observe the world. *)
Definition bindR {A B} (r : result A) (k : A → result B) : result B :=
  match r with
  | Ok a => k a
  | Raise e => Raise e
  end.

Definition lift {A} (r : world → result A) : M A := λ w, (r w, w).

Notation "'let!' x ':=' m 'in' k" := (bindM m (λ x, k))
  (at level 10, x pattern, m at level 100, k at level 200).
Notation "'let?' x ':=' r 'in' k" := (bindR r (λ x, k))
  (at level 10, x pattern, r at level 100, k at level 200).

(** [for x in l: body x] *)
Fixpoint for_each {A} (l : list A) (body : A → M unit) : M unit :=
  match l with
  | [] => retM tt
  | x :: l' => let! _ := body x in for_each l' body
  end.

(** [for x in l: acc = body acc x] *)
Fixpoint for_fold {A S} (l : list A) (body : S → A → M S) (acc : S) : M S :=
  match l with
  | [] => retM acc
  | x :: l' => let! acc' := body acc x in for_fold l' body acc'
  end.

(** The same, for bodies that only observe. *)
Fixpoint rfold {A S} (l : list A) (body : S → A → result S) (acc : S)
  : result S :=
  match l with
  | [] => Ok acc
  | x :: l' => let? acc' := body acc x in rfold l' body acc'
  end.

(** [[f x for x in l]] *)
Fixpoint rmap {A B} (f : A → result B) (l : list A) : result (list B) :=
  match l with
  | [] => Ok []
  | x :: l' => let? y := f x in let? ys := rmap f l' in Ok (y :: ys)
  end.

(** ** The [os] and [os.path] functions the module calls *)

Module os.

(** What the path leads to; the root directory always exists. *)
Definition stat (w : world) (p : path) : option node :=
  match p with
  | [] => Some (Dir false)
  | _ => tree w !! p
  end.

(** [os.path.exists] *)
Definition exists_ (w : world) (p : path) : bool :=
  match stat w p with Some _ => true | None => false end.

(** [os.path.isdir] *)
Definition isdir (w : world) (p : path) : bool :=
  match stat w p with Some (Dir _) => true | _ => false end.

(** [os.path.isfile] *)
Definition isfile (w : world) (p : path) : bool :=
  match stat w p with Some (File _) | Some (Members _) => true | _ => false end.

(** [os.path.islink] *)
Definition islink (w : world) (p : path) : bool :=
  match stat w p with Some (Dir true) => true | _ => false end.

(** [os.path.split]: the head of a path. *)
Definition dirname (p : path) : path := removelast p.

(** The name [n] such that [k] is the entry [n] of directory [p]. *)
Definition entry_of (p k : path) : option string :=
  if decide (take (length p) k = p) then
    match drop (length p) k with
    | [n] => Some n
    | _ => None
    end
  else None.

(** The names of the entries of directory [p]. *)
Definition entries (w : world) (p : path) : list string :=
  omap (entry_of p) (elements (dom (tree w))).

(** [os.listdir] *)
Definition listdir (w : world) (p : path) : result (list string) :=
  match stat w p with
  | Some (Dir _) => Ok (entries w p)
  | Some _ => Raise (OSError ENOTDIR (Some p))
  | None => Raise (OSError ENOENT (Some p))
  end.

(** The text of a file as [open(p, "r")] reads it. *)
Definition text_of (n : node) : option string :=
  match n with
  | Dir _ => None
  | File data => Some (str.universal_newlines data)
  | Members ids =>
      Some (foldr (λ i text, str.of_N i +:+ "
" +:+ text) "" ids)
  end.

(** [with open(p, "r") as f: f.read()] *)
Definition read (w : world) (p : path) : result string :=
  match stat w p with
  | Some n =>
      match text_of n with
      | Some text => Ok text
      | None => Raise (OSError EISDIR (Some p))
      end
  | None => Raise (OSError ENOENT (Some p))
  end.

(** [with open(p, "r") as f: f.readlines()] *)
Definition readlines (w : world) (p : path) : result (list string) :=
  let? text := read w p in Ok (str.lines text).

(** The identifier the kernel reads in a text written to a membership
    file: a decimal number, surrounding white space ignored. *)
Definition parse_id (text : string) : option N :=
  N.of_uint <$> NilZero.uint_of_string (str.strip text).

Definition put (p : path) (n : node) (text : string) (w : world) : world :=
  World (<[p := n]> (tree w)) (written w ++ [(p, text)]).

(** [with open(p, "w") as f: f.write(text)].  A regular file is
    truncated and holds [text] afterwards; it is created when the
    directory exists.  A membership file of the examples lists the
    number written, and rejects a text that is not a number. *)
Definition write (p : path) (text : string) : M unit :=
  λ w,
    match stat w p with
    | Some (Dir _) => (Raise (OSError EISDIR (Some p)), w)
    | Some (File _) => (Ok tt, put p (File text) text w)
    | Some (Members ids) =>
        match parse_id text with
        | Some i =>
            (Ok tt,
             put p (Members (if decide (i ∈ ids) then ids else ids ++ [i]))
                 text w)
        | None => (Raise (OSError EINVAL None), w)
        end
    | None =>
        match stat w (dirname p) with
        | Some (Dir _) => (Ok tt, put p (File text) text w)
        | Some _ => (Raise (OSError ENOTDIR (Some p)), w)
        | None => (Raise (OSError ENOENT (Some p)), w)
        end
    end.

(** [os.mkdir] *)
Definition mkdir (p : path) : M unit :=
  λ w,
    match stat w p with
    | Some _ => (Raise (OSError EEXIST (Some p)), w)
    | None =>
        match stat w (dirname p) with
        | Some (Dir _) =>
            (Ok tt, World (<[p := Dir false]> (tree w)) (written w))
        | Some _ => (Raise (OSError ENOTDIR (Some p)), w)
        | None => (Raise (OSError ENOENT (Some p)), w)
        end
    end.

(** [os.makedirs(name, exist_ok=exist_ok)], on the reversed name:
    [rname] is [tail :: rhead] for [head, tail = path.split(name)]. *)
Fixpoint makedirs_rev (rname : list string) (exist_ok : bool) : M unit :=
  match rname with
  | [] =>
      (* name is the root: mkdir fails, and the root is a directory *)
      if exist_ok then retM tt else raiseM (OSError EEXIST (Some []))
  | tail :: rhead =>
      let head := reverse rhead in
      let name := reverse rname in
      let! _ :=
        (λ w,
           if negb (exists_ w head) then
             catchM (makedirs_rev rhead exist_ok)
               (λ e, match e with
                     | OSError EEXIST _ => retM tt
                     | _ => raiseM e
                     end) w
           else (Ok tt, w)) in
      catchM (mkdir name)
        (λ e w,
           match e with
           | OSError _ _ =>
               if negb exist_ok || negb (isdir w name)
               then (Raise e, w) else (Ok tt, w)
           | _ => (Raise e, w)
           end)
  end.

Definition makedirs (name : path) (exist_ok : bool) : M unit :=
  makedirs_rev (reverse name) exist_ok.

(** [os.rmdir]: only a directory that is not a link and has no entry
    is removed; the root never is. *)
Definition rmdir (p : path) : M unit :=
  λ w,
    match p with
    | [] => (Raise (OSError EBUSY (Some p)), w)
    | _ =>
        match tree w !! p with
        | Some (Dir false) =>
            match entries w p with
            | [] => (Ok tt, World (delete p (tree w)) (written w))
            | _ => (Raise (OSError ENOTEMPTY (Some p)), w)
            end
        | Some _ => (Raise (OSError ENOTDIR (Some p)), w)
        | None => (Raise (OSError ENOENT (Some p)), w)
        end
    end.

(** The heads visited by the loop of [os.removedirs]:
    [head, tail = path.split(head)] while both are non-empty, on the
    reversed head; the last one visited is the root. *)
Fixpoint prune_rev (rhead : list string) : M unit :=
  λ w,
    match rmdir (reverse rhead) w with
    | (Raise (OSError _ _), w') => (Ok tt, w')         (* break *)
    | (Raise e, w') => (Raise e, w')
    | (Ok _, w') =>
        match rhead with
        | [] => (Ok tt, w')
        | _ :: rhead' => prune_rev rhead' w'
        end
    end.

(** [os.removedirs] *)
Definition removedirs (name : path) : M unit :=
  let! _ := rmdir name in
  match reverse name with
  | [] => retM tt
  | _ :: rhead => prune_rev rhead
  end.

(** [posixpath.join], on strings; it is used for messages. *)
Definition join2 (p b : string) : string :=
  if str.startswith "/" b || bool_decide (p = "") then b
  else if str.endswith_char "/" p then p +:+ b
  else p +:+ "/" +:+ b.

Definition join (parts : list string) : result string :=
  match parts with
  | [] =>
      Raise (TypeError "join() missing 1 required positional argument: 'a'")
  | a :: p => Ok (foldl join2 a p)
  end.

End os.

(** ** [cgroup/path.py] *)

Definition CGROUP_PATH : path := ["sys"; "fs"; "cgroup"].
Definition TASKS_FILE_NAME : string := "tasks".
Definition PROCS_FILE_NAME : string := "cgroup.procs".
(** [TASK_CGROUP_LIST % task] *)
Definition TASK_CGROUP_LIST (task : string) : path := ["proc"; task; "cgroup"].

(** [TYPING_LOOKUP]: the [lookup_subsystems] argument. *)
Inductive typing_lookup :=
| Unset                        (* None *)
| Name (s : string)            (* a str *)
| Names (l : list string).     (* an iterable of str *)

(** Python values passed as process identifiers. *)
#[warnings="-register-all"] Inductive pyval :=
| PStr (s : string)
| PInt (n : Z)
| PSeq (items : list pyval)    (* an iterable, in iteration order *)
| PNone.

(** *** Subsystems lookup *)

Definition subsystem_path (subsystem : string) (p : list string) : path :=
  CGROUP_PATH ++ subsystem :: p.

(** The first lines of [iter_subsystems]: the set looked up. *)
Definition lookup_set (lookup_subsystems : typing_lookup)
  : option (gset string) :=
  match lookup_subsystems with
  | Unset => None
  | Name s => Some {[ s ]}
  | Names l => Some (list_to_set l)
  end.

(** The body of the loop of [iter_subsystems]: is [s] yielded? *)
Definition yielded (lookup : option (gset string)) (include_aliases : bool)
    (w : world) (s : string) : bool :=
  let p := subsystem_path s [] in
  if negb (os.isdir w p) then false
  else if negb include_aliases && os.islink w p then false
  else match lookup with
       | Some names => bool_decide (s ∈ names)
       | None => true
       end.

(** [list(iter_subsystems(lookup_subsystems, include_aliases))] *)
Definition iter_subsystems (lookup_subsystems : typing_lookup)
    (include_aliases : bool) (w : world) : result (list string) :=
  let lookup := lookup_set lookup_subsystems in
  let? names := os.listdir w CGROUP_PATH in
  Ok (List.filter (yielded lookup include_aliases w) names).

(** [for s in iter_subsystems(...): acc = body acc s].  The generator
    runs in step with the loop body: the directory is listed once, and
    each name is tested in the world the previous iterations left. *)
Fixpoint for_names {S} (lookup : option (gset string)) (include_aliases : bool)
    (names : list string) (body : S → string → M S) (acc : S) : M S :=
  match names with
  | [] => retM acc
  | s :: names' =>
      λ w,
        if yielded lookup include_aliases w s then
          (let! acc' := body acc s in
           for_names lookup include_aliases names' body acc') w
        else for_names lookup include_aliases names' body acc w
  end.

Definition for_iter_subsystems {S} (lookup_subsystems : typing_lookup)
    (include_aliases : bool) (body : S → string → M S) (acc : S) : M S :=
  let lookup := lookup_set lookup_subsystems in
  let! names := lift (λ w, os.listdir w CGROUP_PATH) in
  for_names lookup include_aliases names body acc.

(** *** Default *)

(** [f"{data}"] for a value that is a string or [None]. *)
Definition format_data (data : option string) : string :=
  match data with
  | Some s => s
  | None => "None"
  end.

Definition init_cgroup_default (subsystem : string) (p : list string)
    (default_data : dict (option string)) : M (dict (option string)) :=
  for_fold default_data
    (λ output_data '(file_name, data) w,
       let full_path := subsystem_path subsystem (p ++ [file_name]) in
       if os.isdir w full_path then
         (Raise (new_CGroupLookupError GROUP_INSTEAD_OF_FILE (path_str full_path)), w)
       else if negb (os.exists_ w full_path) then
         (Raise (new_CGroupLookupError NOT_EXISTS (path_str full_path)), w)
       else
         (let! text := lift (λ w, os.read w full_path) in
          let current_data := str.strip text in
          if negb (bool_decide (current_data = "")) then
            retM (dict_set file_name (Some current_data) output_data)
          else
            let! _ := os.write full_path (format_data data +:+ "
") in
            retM (dict_set file_name data output_data)) w)
    [].

(** [init_cgroup_settings_from_parents], for a given [file_list]. *)
Definition init_cgroup_settings_from_parents (subsystem : string)
    (p : list string) (file_list : list string) : M unit :=
  let! files_data :=
    init_cgroup_default subsystem []
      (foldl (λ d name, dict_set name None d) [] file_list) in
  let! _ :=
    for_each files_data
      (λ '(n, d),
         match d with
         | None =>
             raiseM (ValueError ("No data is set for file " +:+ n +:+ " in "
                                   +:+ subsystem +:+ "'s root path."))
         | Some _ => retM tt
         end) in
  let path_list := p in
  let! _ :=
    for_fold (seq 1 (length path_list))
      (λ files_data i, init_cgroup_default subsystem (take i path_list) files_data)
      files_data in
  retM tt.

(** *** Subsystems lookup, continued *)

Definition validate_subsystem_path (subsystem : string) (p : list string)
    (create : bool) : M path :=
  let sub_path := subsystem_path subsystem p in
  let! _ :=
    (λ w,
       if os.isfile w sub_path then
         (* [CGroupLookupError.Type] has no member of this name *)
         (Raise (AttributeError "FILE_INSTEAD_OF_FOLDER"), w)
       else if negb (os.isdir w sub_path) then
         if negb create then
           (Raise (new_CGroupLookupError GROUP_NOT_EXISTS (path_str sub_path)), w)
         else os.makedirs sub_path true w
       else (Ok tt, w)) in
  let! _ :=
    if bool_decide (subsystem = "cpuset") then
      init_cgroup_settings_from_parents subsystem p ["cpuset.mems"; "cpuset.cpus"]
    else retM tt in
  retM sub_path.

(** *** Cgroup lookup *)

(** What [interpret_cgroup_path] returns: [("file", path)],
    [("dir", subsystems)] or [(None, None)]. *)
Inductive interpreted :=
| is_file (p : path)
| is_dir (subsystems : gset string)
| is_none.

(** [l.count(True)] *)
Definition count_true (l : list bool) : nat := length (List.filter id l).

(** [l.index(True)] *)
Fixpoint index_true (l : list bool) : result nat :=
  match l with
  | [] => Raise (ValueError "True is not in list")
  | b :: l' => if b then Ok 0 else let? i := index_true l' in Ok (S i)
  end.

(** [l[i]] *)
Definition getitem {A} (l : list A) (i : nat) : result A :=
  match l !! i with
  | Some x => Ok x
  | None => Raise (IndexError "list index out of range")
  end.

Definition interpret_cgroup_path (p : list string)
    (lookup_subsystems : typing_lookup) (w : world) : result interpreted :=
  let? subsystems := iter_subsystems lookup_subsystems false w in
  let paths := (λ s, subsystem_path s p) <$> subsystems in
  let is_file_l := os.isfile w <$> paths in
  let is_file_count := count_true is_file_l in
  let is_dir_l := os.isdir w <$> paths in
  let is_dir_count := count_true is_dir_l in
  let? full_path := os.join p in
  if Nat.ltb 0 is_dir_count && Nat.ltb 0 is_file_count then
    Raise (new_CGroupLookupError AMBIGUITY_FILE_OR_GROUP full_path)
  else if Nat.ltb 1 is_file_count then
    Raise (new_CGroupLookupError AMBIGUITY_MULTI_FILES full_path)
  else if Nat.eqb is_file_count 1 then
    let? i := index_true is_file_l in
    let? found := getitem paths i in
    Ok (is_file found)
  else if Nat.ltb 0 is_dir_count then
    Ok (is_dir (list_to_set (List.filter snd (zip subsystems is_dir_l)).*1))
  else Ok is_none.

(** *** Tasks and processes *)

(** [type(v)] as the message prints it. *)
Definition type_name (v : pyval) : string :=
  match v with
  | PStr _ => "<class 'str'>"
  | PInt _ => "<class 'int'>"
  | PSeq _ => "<class 'list'>"
  | PNone => "<class 'NoneType'>"
  end.

Definition _normalize_process_id (proc_id : pyval) : result string :=
  match proc_id with
  | PStr s => Ok s
  | PInt n => Ok (str.of_int n)
  | _ =>
      Raise (ValueError
               ("Process/task ID must be an integer or a string, but got "
                  +:+ type_name proc_id +:+ " instead."))
  end.

Definition _normalize_process_id_list (proc_ids : pyval) : result (list string) :=
  match _normalize_process_id proc_ids with
  | Ok s => Ok [s]
  | Raise (ValueError _) =>
      match proc_ids with
      | PSeq items => rmap _normalize_process_id items
      | _ => Raise (TypeError "'NoneType' object is not iterable")
      end
  | Raise e => Raise e
  end.

(** [list(_cgroup_procs(fname, subsystem, *path))] *)
Definition _cgroup_procs (fname subsystem : string) (p : list string)
    (w : world) : result (list string) :=
  let file_path := subsystem_path subsystem (p ++ [fname]) in
  let? proc_lines := os.readlines w file_path in
  Ok (str.strip <$> proc_lines).

Definition _add_procs (fname subsystem : string) (proc_ids : pyval)
    (p : list string) : M unit :=
  let file_path := subsystem_path subsystem (p ++ [fname]) in
  let! ids := lift (λ _, _normalize_process_id_list proc_ids) in
  for_each ids (λ i, os.write file_path (i +:+ "
")).

Definition _subsystems_add_procs (fname : string) (proc_ids : pyval)
    (p : list string) (lookup_subsystems : typing_lookup) : M unit :=
  let! failed :=
    for_iter_subsystems lookup_subsystems false
      (λ failed s,
         catchM (let! _ := _add_procs fname s proc_ids p in retM failed)
           (λ e, retM (dict_set s (str_exn e) failed)))
      [] in
  match failed with
  | [] => retM tt
  | _ => raiseM (new_CGroupAccessViolation FAILED_WRITE failed)
  end.

Definition _subsystems_cgroup_procs_intersection (fname : string)
    (p : list string) (lookup_subsystems : typing_lookup) (w : world)
  : result (gset string) :=
  let? subsystems := iter_subsystems lookup_subsystems false w in
  rfold subsystems
    (λ ret s,
       let? ids := _cgroup_procs fname s p w in
       Ok (ret ∩ list_to_set ids))
    ∅.

(** [a, b, c = parts] *)
Definition unpack3 (parts : list string) : result (string * string * string) :=
  match parts with
  | [a; b; c] => Ok (a, b, c)
  | _ =>
      if Nat.ltb (length parts) 3 then
        Raise (ValueError ("not enough values to unpack (expected 3, got "
                             +:+ str.of_N (N.of_nat (length parts)) +:+ ")"))
      else Raise (ValueError "too many values to unpack (expected 3)")
  end.

Definition task_cgroups (task : pyval) (w : world)
  : result (dict (gset string)) :=
  let? task_id := _normalize_process_id task in
  let proc_path := TASK_CGROUP_LIST task_id in
  let? data := os.readlines w proc_path in
  rfold data
    (λ res l,
       let? (_, subsystem, p) := unpack3 (str.split ":" (str.strip l)) in
       let subsystem := str.lstrip_chars "name=" subsystem in
       let p := str.lstrip_chars "/" p in
       match dict_get p res with
       | Some subsystems => Ok (dict_set p (subsystems ∪ {[ subsystem ]}) res)
       | None => Ok (dict_set p {[ subsystem ]} res)
       end)
    [].

Definition cgroup_tasks := _cgroup_procs TASKS_FILE_NAME.
Definition cgroup_procs := _cgroup_procs PROCS_FILE_NAME.
Definition add_tasks (subsystem : string) (task_ids : pyval) (p : list string)
  : M unit := _add_procs TASKS_FILE_NAME subsystem task_ids p.
Definition add_procs (subsystem : string) (proc_ids : pyval) (p : list string)
  : M unit := _add_procs PROCS_FILE_NAME subsystem proc_ids p.
Definition subsystems_add_tasks := _subsystems_add_procs TASKS_FILE_NAME.
Definition subsystems_add_procs := _subsystems_add_procs PROCS_FILE_NAME.
Definition subsystems_cgroup_tasks :=
  _subsystems_cgroup_procs_intersection TASKS_FILE_NAME.
Definition subsystems_cgroup_procs :=
  _subsystems_cgroup_procs_intersection PROCS_FILE_NAME.

(** *** Cleanup *)

Definition delete_cgroup (subsystem : string) (p : list string) : M unit :=
  let cgroup_path := subsystem_path subsystem p in
  λ w,
    if os.isfile w cgroup_path then
      (Raise (new_CGroupLookupError FILE_INSTEAD_OF_GROUP (path_str cgroup_path)), w)
    else if os.islink w cgroup_path then
      (Raise (new_CGroupLookupError LINK (path_str cgroup_path)), w)
    else if negb (os.exists_ w cgroup_path) then
      (Raise (new_CGroupLookupError NOT_EXISTS (path_str cgroup_path)), w)
    else os.removedirs cgroup_path w.

(** * Specification vocabulary *)

(** [s] is asked for by the [lookup_subsystems] argument. *)
Definition requested (lookup_subsystems : typing_lookup) (s : string) : Prop :=
  match lookup_subsystems with
  | Unset => True
  | Name n => s = n
  | Names l => s ∈ l
  end.

(** [s] names a subsystem that the enumeration keeps: a directory under
    the mount root, not a link unless aliases are included. *)
Definition discovered (include_aliases : bool) (w : world) (s : string) : Prop :=
  ∃ link, tree w !! (CGROUP_PATH ++ [s]) = Some (Dir link)
          ∧ (include_aliases = false → link = false).

(** [s] is one of the subsystems a lookup with [lookup_subsystems]
    ranges over (aliases left out, as every caller does). *)
Definition in_scope (lookup_subsystems : typing_lookup) (w : world) (s : string)
  : Prop :=
  os.isdir w CGROUP_PATH = true
  ∧ discovered false w s ∧ requested lookup_subsystems s.

(** The relative path [p] is a file, or a directory, in subsystem [s]. *)
Definition has_file (w : world) (p : list string) (s : string) : Prop :=
  os.isfile w (subsystem_path s p) = true.
Definition has_dir (w : world) (p : list string) (s : string) : Prop :=
  os.isdir w (subsystem_path s p) = true.

(** The two ambiguities of a relative path. *)
Definition file_or_group (lookup_subsystems : typing_lookup) (w : world)
    (p : list string) : Prop :=
  (∃ s, in_scope lookup_subsystems w s ∧ has_dir w p s)
  ∧ (∃ s, in_scope lookup_subsystems w s ∧ has_file w p s).
Definition multi_files (lookup_subsystems : typing_lookup) (w : world)
    (p : list string) : Prop :=
  ∃ s1 s2, s1 ≠ s2
    ∧ in_scope lookup_subsystems w s1 ∧ has_file w p s1
    ∧ in_scope lookup_subsystems w s2 ∧ has_file w p s2.

(** * Example worlds *)

Definition mkworld (l : list (path * node)) : world :=
  World (list_to_map l) [].

(** The mount root, and nothing mounted. *)
Definition mount : list (path * node) :=
  [ (["sys"], Dir false);
    (["sys"; "fs"], Dir false);
    (["sys"; "fs"; "cgroup"], Dir false) ].

(** One subsystem, [cpu], and its alias [cpuacct]. *)
Definition world_cpu : world :=
  mkworld (mount ++
    [ (["sys"; "fs"; "cgroup"; "cpu"], Dir false);
      (["sys"; "fs"; "cgroup"; "cpuacct"], Dir true) ]).

(** Two subsystems, [cpu] and [memory]; the group [g] exists in both.
    Task 7 is in [g] in both hierarchies, task 8 in [memory] only. *)
Definition world_g : world :=
  mkworld (mount ++
    [ (["sys"; "fs"; "cgroup"; "cpu"], Dir false);
      (["sys"; "fs"; "cgroup"; "cpu"; "tasks"], Members []);
      (["sys"; "fs"; "cgroup"; "cpu"; "g"], Dir false);
      (["sys"; "fs"; "cgroup"; "cpu"; "g"; "tasks"], Members [7%N]);
      (["sys"; "fs"; "cgroup"; "cpu"; "g"; "cpu.shares"], File "1024
");
      (["sys"; "fs"; "cgroup"; "memory"], Dir false);
      (["sys"; "fs"; "cgroup"; "memory"; "tasks"], Members []);
      (["sys"; "fs"; "cgroup"; "memory"; "g"], Dir false);
      (["sys"; "fs"; "cgroup"; "memory"; "g"; "tasks"], Members [7%N; 8%N]) ]).

(** The name [x] is a file in [cpu] and a directory in [memory]; the
    name [y] is a file in both. *)
Definition world_ambiguous : world :=
  mkworld (mount ++
    [ (["sys"; "fs"; "cgroup"; "cpu"], Dir false);
      (["sys"; "fs"; "cgroup"; "cpu"; "x"], File "");
      (["sys"; "fs"; "cgroup"; "cpu"; "y"], File "");
      (["sys"; "fs"; "cgroup"; "memory"], Dir false);
      (["sys"; "fs"; "cgroup"; "memory"; "x"], Dir false);
      (["sys"; "fs"; "cgroup"; "memory"; "y"], File "") ]).

(** The cgroup list of task 1: a joint hierarchy, a named hierarchy and
    the [memory] hierarchy. *)
Definition world_proc : world :=
  mkworld
    [ (["proc"], Dir false);
      (["proc"; "1"], Dir false);
      (["proc"; "1"; "cgroup"], File "3:cpu,cpuacct:/g
2:name=elogind:/
1:memory:/g
") ].

(** The group [a/b] of [cpu]: [a] holds nothing but [b]. *)
Definition world_nested : world :=
  mkworld (mount ++
    [ (["sys"; "fs"; "cgroup"; "cpu"], Dir false);
      (["sys"; "fs"; "cgroup"; "cpu"; "tasks"], Members []);
      (["sys"; "fs"; "cgroup"; "cpu"; "a"], Dir false);
      (["sys"; "fs"; "cgroup"; "cpu"; "a"; "b"], Dir false) ]).

(** The membership file of a group in a subsystem. *)
Definition membership_file (fname s : string) (p : list string) : path :=
  subsystem_path s (p ++ [fname]).

(** What the report of [_subsystems_add_procs] holds for subsystem [s]:
    the message of the exception that the write to [s] raises. *)
Definition write_failure (fname : string) (proc_ids : pyval) (p : list string)
    (w : world) (s : string) : option (string * string) :=
  match (_add_procs fname s proc_ids p w).1 with
  | Raise e => Some (s, str_exn e)
  | Ok _ => None
  end.

(** Two worlds that hold the same at path [f] and at its directory. *)
Definition agree (f : path) (w1 w2 : world) : Prop :=
  os.stat w1 f = os.stat w2 f
  ∧ os.stat w1 (os.dirname f) = os.stat w2 (os.dirname f).

(** Two worlds with the same directories and links. *)
Definition same_dirs (w1 w2 : world) : Prop :=
  ∀ k, os.isdir w1 k = os.isdir w2 k ∧ os.islink w1 k = os.islink w2 k.

(** The group [g] exists in [cpu] only. *)
Definition world_partial : world :=
  mkworld (mount ++
    [ (["sys"; "fs"; "cgroup"; "cpu"], Dir false);
      (["sys"; "fs"; "cgroup"; "cpu"; "g"], Dir false);
      (["sys"; "fs"; "cgroup"; "cpu"; "g"; "tasks"], Members []);
      (["sys"; "fs"; "cgroup"; "memory"], Dir false) ]).

(** Every character of [s] satisfies [P]. *)
Fixpoint str_forall (P : ascii → bool) (s : string) : bool :=
  match s with
  | EmptyString => true
  | String c s' => P c && str_forall P s'
  end.

(** [s] holds no white space. *)
Definition no_space (s : string) : bool :=
  str_forall (λ c, negb (str.isspace c)) s.


(** The [cpuset] hierarchy with a group [a] whose settings are empty. *)
Definition world_cpuset : world :=
  mkworld (mount ++
    [ (["sys"; "fs"; "cgroup"; "cpuset"], Dir false);
      (["sys"; "fs"; "cgroup"; "cpuset"; "cpuset.mems"], File "0
");
      (["sys"; "fs"; "cgroup"; "cpuset"; "cpuset.cpus"], File "0-3
");
      (["sys"; "fs"; "cgroup"; "cpuset"; "a"], Dir false);
      (["sys"; "fs"; "cgroup"; "cpuset"; "a"; "cpuset.mems"], File "");
      (["sys"; "fs"; "cgroup"; "cpuset"; "a"; "cpuset.cpus"], File "") ]).

(** * The rest of [cgroup/path.py] *)

(** [list(iter_subsystem_path(...))] *)
Definition iter_subsystem_path (p : list string)
    (lookup_subsystems : typing_lookup) (include_aliases : bool) (w : world)
  : result (list path) :=
  let? subsystems := iter_subsystems lookup_subsystems include_aliases w in
  Ok ((λ s, subsystem_path s p) <$> subsystems).

Definition supported_subsystems_path (p : list string)
    (lookup_subsystems : typing_lookup) (create : bool) : M (gset string) :=
  for_iter_subsystems lookup_subsystems false
    (λ supported s,
       catchM
         (let! _ := validate_subsystem_path s p create in
          retM (supported ∪ {[ s ]}))
         (λ e, match e with
               | CGroupLookupError _ _ _ => retM supported
               | _ => raiseM e
               end))
    ∅.

(** The outcome of [next(it)]: the next item, or [StopIteration]. *)
Inductive next_item (A : Type) :=
| Next (a : A)
| StopIteration.
Arguments Next {A} a.
Arguments StopIteration {A}.

(** [next(os.walk(top))]: the names of the directories and of the other
    entries of [top].  [os.walk] ignores the error of listing [top], and
    then yields nothing. *)
Definition walk_first (w : world) (top : path)
  : next_item (list string * list string) :=
  match os.listdir w top with
  | Ok names =>
      Next (List.filter (λ n, os.isdir w (top ++ [n])) names,
            List.filter (λ n, negb (os.isdir w (top ++ [n]))) names)
  | Raise _ => StopIteration
  end.

Definition cgroups_content (subsystem : string) (p : list string) (w : world)
  : next_item (list string * list string) :=
  let full_path := subsystem_path subsystem p in
  walk_first w full_path.

Definition sub_cgroups (subsystem : string) (p : list string) (w : world)
  : next_item (list string) :=
  match cgroups_content subsystem p w with
  | Next (dirs, files) => Next dirs
  | StopIteration => StopIteration
  end.

Definition cgroup_files (subsystem : string) (p : list string) (w : world)
  : next_item (list string) :=
  match cgroups_content subsystem p w with
  | Next (dirs, files) => Next files
  | StopIteration => StopIteration
  end.

(** [for x in l: acc = body acc x], where the body may stop the
    iteration of another generator. *)
Fixpoint nfold {A S} (l : list A) (body : S → A → next_item S) (acc : S)
  : next_item S :=
  match l with
  | [] => Next acc
  | x :: l' =>
      match body acc x with
      | Next acc' => nfold l' body acc'
      | StopIteration => StopIteration
      end
  end.

(** [ret[k].add(s)] if [k in ret], else [ret[k] = {s}] *)
Definition dict_add (k s : string) (ret : dict (gset string))
  : dict (gset string) :=
  match dict_get k ret with
  | Some subsystems => dict_set k (subsystems ∪ {[ s ]}) ret
  | None => dict_set k {[ s ]} ret
  end.

Definition subsystems_sub_cgroups (p : list string)
    (lookup_subsystems : typing_lookup) (w : world)
  : result (next_item (dict (gset string))) :=
  let? subsystems := iter_subsystems lookup_subsystems false w in
  Ok (nfold subsystems
        (λ ret s,
           match sub_cgroups s p w with
           | Next dirs => Next (foldl (λ ret sub_path, dict_add sub_path s ret) ret dirs)
           | StopIteration => StopIteration
           end)
        []).

Definition subsystems_delete_cgroup (p : list string)
    (lookup_subsystems : typing_lookup) : M (dict string) :=
  for_iter_subsystems lookup_subsystems false
    (λ failed s,
       catchM (let! _ := delete_cgroup s p in retM failed)
         (λ e, retM (dict_set s (str_exn e) failed)))
    [].

(** What the report of [subsystems_delete_cgroup] holds for subsystem
    [s]: the message of the exception that the deletion in [s] raises. *)
Definition delete_failure (p : list string) (w : world) (s : string)
  : option string :=
  match (delete_cgroup s p w).1 with
  | Raise e => Some (str_exn e)
  | Ok _ => None
  end.

(** Paths under the root of subsystem [s]. *)
Definition under (s : string) (k : path) : Prop :=
  (CGROUP_PATH ++ [s]) `prefix_of` k.

(** [s] starts with one of the characters of [chars]. *)
Definition head_in (chars s : string) : bool :=
  match s with
  | String c _ => str.contains chars c
  | EmptyString => false
  end.

(** The file of the setting [n] of a group. *)
Definition setting_file (s : string) (p : list string) (n : string) : path :=
  subsystem_path s (p ++ [n]).

(** The stripped text of a setting, where it can be read. *)
Definition current_data (w : world) (s : string) (p : list string) (n : string)
  : option string :=
  match os.read w (setting_file s p n) with
  | Ok text => Some (str.strip text)
  | Raise _ => None
  end.

(** The setting can be read and holds nothing but white space. *)
Definition is_blank (w : world) (s : string) (p : list string) (n : string)
  : bool :=
  bool_decide (current_data w s p n = Some "").

(** What [init_cgroup_default] returns for a setting, and what it writes. *)
Definition default_value (w : world) (s : string) (p : list string)
    (item : string * option string) : string * option string :=
  (item.1, if is_blank w s p item.1 then item.2 else current_data w s p item.1).
Definition default_write (w : world) (s : string) (p : list string)
    (item : string * option string) : option (path * string) :=
  if is_blank w s p item.1
  then Some (setting_file s p item.1, format_data item.2 +:+ "
")
  else None.

(** [s] holds no carriage return. *)
Definition no_cr (s : string) : bool :=
  str_forall (λ c, negb (Ascii.eqb c str.CR)) s.

(** The [cpuset] hierarchy with nothing set at its root. *)
Definition world_unset : world :=
  mkworld (mount ++
    [ (["sys"; "fs"; "cgroup"; "cpuset"], Dir false);
      (["sys"; "fs"; "cgroup"; "cpuset"; "cpuset.mems"], File "");
      (["sys"; "fs"; "cgroup"; "cpuset"; "cpuset.cpus"], File "0-3
");
      (["sys"; "fs"; "cgroup"; "cpuset"; "a"], Dir false);
      (["sys"; "fs"; "cgroup"; "cpuset"; "a"; "cpuset.mems"], File "");
      (["sys"; "fs"; "cgroup"; "cpuset"; "a"; "cpuset.cpus"], File "") ]).

(** Every directory of [w] is the same directory in [w']. *)
Definition grows (w w' : world) : Prop :=
  ∀ k link, os.stat w k = Some (Dir link) → os.stat w' k = Some (Dir link).

(** A computation that removes no directory, whatever its outcome. *)
Definition growing {A} (m : M A) : Prop := ∀ w, grows w (m w).2.

(** * The class [Cgroup] ([cgroup/__init__.py]) *)

(** A positional argument of the class: a name, or a key that was made a
    tuple, or was given as a list. *)
Inductive arg :=
| AStr (s : string)
| ATuple (l : list string)
| AList (l : list string).

(** The [parts] of the [pathlib.Path] made of the arguments, for
    arguments that are names: anything else than a string is refused. *)
Definition pathlib_parts (args : list arg) : result (list string) :=
  rmap (λ a, match a with
             | AStr s => Ok s
             | ATuple _ =>
                 Raise (TypeError "argument should be a str or an os.PathLike object where __fspath__ returns a str, not 'tuple'")
             | AList _ =>
                 Raise (TypeError "argument should be a str or an os.PathLike object where __fspath__ returns a str, not 'list'")
             end) args.

(** [repr] of a tuple and of a set of strings (the order of a set is
    that of its elements here). *)
Definition repr_tuple (l : list string) : string :=
  match l with
  | [n] => "(" +:+ repr_str n +:+ ",)"
  | _ => "(" +:+ String.concat ", " (repr_str <$> l) +:+ ")"
  end.
Definition repr_set (X : gset string) : string :=
  "{" +:+ String.concat ", " (repr_str <$> elements X) +:+ "}".

(** A set of subsystems handed over as [lookup_subsystems]. *)
Definition lookup_of (X : gset string) : typing_lookup := Names (elements X).

(** The key of the dict-like interface. *)
Inductive key :=
| KStr (n : string)
| KTuple (l : list string)
| KList (l : list string).

(** [key = (key,)] unless it is a tuple or a list, and the key as the
    one argument it then is. *)
Definition key_names (k : key) : list string :=
  match k with KStr n => [n] | KTuple l | KList l => l end.
Definition key_arg (k : key) : arg :=
  match k with KStr n => ATuple [n] | KTuple l => ATuple l | KList l => AList l end.

Module Cgroup.

(** The attributes of an instance. *)
Record t := new { subsystems : gset string; path_parts : list string }.

Definition __init__ (path : list arg) (lookup_subsystems : typing_lookup)
    (create : bool) : M t :=
  let! found := lift (iter_subsystems lookup_subsystems false) in
  let! parts := lift (λ _, pathlib_parts path) in
  (* First argument of the path might be the subsystem *)
  let '(self_subsystems, self_path_parts) :=
    match parts with
    | first :: rest =>
        if decide (first ∈ (list_to_set found : gset string))
        then ({[ first ]}, rest)
        else (list_to_set found, parts)
    | [] => (list_to_set found, parts)
    end in
  let! ret :=
    supported_subsystems_path self_path_parts (lookup_of self_subsystems)
      create in
  match lookup_subsystems with
  | Unset => retM (new ret self_path_parts)
  | _ =>
      let missing := self_subsystems ∖ ret in
      if decide (missing = ∅) then retM (new self_subsystems self_path_parts)
      else raiseM (ValueError ("The path does not exist in all the required subsystems. Missing: "
                                 +:+ repr_set missing +:+ "."))
  end.

Definition is_root (self : t) : bool := bool_decide (path_parts self = []).

Definition root (self : t) : M t :=
  __init__ [] (lookup_of (subsystems self)) false.

Definition back (self : t) : M t :=
  if is_root self then
    raiseM (ValueError "Cannot go back. Already in the root of the subsystem.")
  else
    __init__ (AStr <$> removelast (path_parts self))
      (lookup_of (subsystems self)) false.

Definition subsystem (self : t) (names : list string) (create : bool) : M t :=
  __init__ (AStr <$> path_parts self) (Names names) create.

(** [sub_cgroup]; [None] for [lookup_subsystems] stands for the keyword
    [subsystems] left out. *)
Definition sub_cgroup (self : t) (sub_path : list arg)
    (lookup_subsystems : option typing_lookup) (create : bool) : M t :=
  __init__ ((AStr <$> path_parts self) ++ sub_path)
    (default (lookup_of (subsystems self)) lookup_subsystems) create.

Definition create_sub_cgroup (self : t) (sub_path : list arg)
    (lookup_subsystems : option typing_lookup) : M t :=
  sub_cgroup self sub_path lookup_subsystems true.

Definition tasks (self : t) (w : world) : result (gset string) :=
  subsystems_cgroup_tasks (path_parts self) (lookup_of (subsystems self)) w.

Definition procs (self : t) (w : world) : result (gset string) :=
  subsystems_cgroup_procs (path_parts self) (lookup_of (subsystems self)) w.

Definition add_tasks (self : t) (tasks : list pyval) : M unit :=
  subsystems_add_tasks (PSeq tasks) (path_parts self)
    (lookup_of (subsystems self)).

Definition add_procs (self : t) (procs : list pyval) : M unit :=
  subsystems_add_procs (PSeq procs) (path_parts self)
    (lookup_of (subsystems self)).

(** [clear_tasks(recursive=False)]; what is returned is the warning, if
    one is given. *)
Definition clear_tasks (self : t) : M (option string) :=
  if is_root self then raiseM (ValueError "Cannot clear tasks of root cgroup.")
  else
    let! tasks_to_move := lift (tasks self) in
    catchM
      (let! r := root self in
       let! _ := add_tasks r (PStr <$> elements tasks_to_move) in
       retM None)
      (λ e, retM (Some ("Failed to clear tasks: " +:+ str_exn e +:+ "."))).

(** [delete(recursive=False)]; what is returned is the instance with its
    subsystems updated, and the warning, if one is given. *)
Definition delete (self : t) : M (t * option string) :=
  if is_root self then raiseM (ValueError "Cannot remove the root cgroup.")
  else
    let! failed_subsystems :=
      subsystems_delete_cgroup (path_parts self) (lookup_of (subsystems self)) in
    let warning :=
      match failed_subsystems with
      | [] => None
      | _ => Some ("Cannot delete " +:+ repr_tuple (path_parts self)
                     +:+ " on subsystems: " +:+ repr_dict failed_subsystems
                     +:+ ".")
      end in
    retM (new (list_to_set failed_subsystems.*1) (path_parts self), warning).

(** What [get] returns: a sub-cgroup, the content of a file, or the
    default value. *)
Inductive got :=
| GotCgroup (c : t)
| GotText (text : string)
| GotDefault.

Definition get (self : t) (k : key) (create : bool) : M got :=
  let! is_subsystem :=
    if is_root self then
      match k with
      | KStr n => retM (bool_decide (n ∈ subsystems self))
      | KTuple _ => retM false
      | KList _ => raiseM (TypeError "unhashable type: 'list'")
      end
    else retM false in
  if is_subsystem : bool then
    let! c := subsystem self (key_names k) false in retM (GotCgroup c)
  else
    let! interpreted :=
      lift (interpret_cgroup_path (path_parts self ++ key_names k)
              (lookup_of (subsystems self))) in
    match interpreted with
    | is_file extra_data =>
        let! text := lift (λ w, os.read w extra_data) in
        retM (GotText (str.strip text))
    | _ =>
        if create then
          let! c := sub_cgroup self [key_arg k] None true in
          retM (GotCgroup c)
        else
          match interpreted with
          | is_dir extra_data =>
              let! c :=
                sub_cgroup self [key_arg k] (Some (lookup_of extra_data))
                  false in
              retM (GotCgroup c)
          | _ => retM GotDefault
          end
    end.

(** [put(key, value)] for a value that is a string; the two comparisons
    by identity with a string literal are taken as equalities. *)
Definition put (self : t) (k : key) (value : string) : M nat :=
  let! interpreted :=
    lift (interpret_cgroup_path (path_parts self ++ key_names k)
            (lookup_of (subsystems self))) in
  match interpreted with
  | is_dir _ => raiseM (ValueError "Cannot write to a cgroup folder")
  | is_none => raiseM (ValueError "File does not exist")
  | is_file extra_data =>
      let! _ := os.write extra_data (value +:+ "
") in
      retM (String.length (value +:+ "
"))
  end.

Definition __getitem__ (self : t) (k : key) : M got :=
  let! ret := get self k false in
  match ret with
  | GotDefault =>
      raiseM (ValueError "No subsystem, sub-group or file with that name.")
  | _ => retM ret
  end.

Definition __setitem__ (self : t) (k : key) (value : string) : M nat :=
  put self k value.

Definition __delitem__ (self : t) (k : key) : M (t * option string) :=
  let! interpreted :=
    lift (interpret_cgroup_path (path_parts self ++ key_names k)
            (lookup_of (subsystems self))) in
  match interpreted with
  | is_file _ => raiseM (ValueError "Cannot delete a cgroup file")
  | is_none => raiseM (ValueError "Sub cgroup does not exist")
  | is_dir _ =>
      let! c := sub_cgroup self [key_arg k] None false in
      delete c
  end.

End Cgroup.

(** At the root, the key names one of the subsystems of the instance. *)
Definition names_subsystem (self : Cgroup.t) (k : key) : bool :=
  Cgroup.is_root self
  && match k with
     | KStr n => bool_decide (n ∈ Cgroup.subsystems self)
     | _ => false
     end.

(** Whatever its outcome, the computation writes only what [Q] allows. *)
Definition logs {A} (Q : path * string → Prop) (m : M A) : Prop :=
  ∀ w, ∃ log, written (m w).2 = written w ++ log ∧ Forall Q log.

(** The one text that a call at the root of [cpuset] may write. *)
Definition unset_setting (entry : path * string) : Prop :=
  ∃ n, n ∈ ["cpuset.mems"; "cpuset.cpus"]
       ∧ entry = (setting_file "cpuset" [] n, "None
").

(** * Properties *)

(** ** The file tree *)

Section tree_facts.
Implicit Types (w : world) (p k : path) (n s : string).

Lemma entry_of_Some p k n : os.entry_of p k = Some n ↔ k = p ++ [n].
Proof.
  unfold os.entry_of. split.
  - case_decide as Hp; [|done].
    destruct (drop (length p) k) as [|x [|y r]] eqn:Hd; try done.
    intros [= ->]. by rewrite <- (take_drop (length p) k), Hp, Hd.
  - intros ->. rewrite take_app_length, decide_True by done.
    by rewrite drop_app_length.
Qed.

Lemma omap_NoDup {A B} (f : A → option B) (l : list A) :
  (∀ x y z, f x = Some z → f y = Some z → x = y) →
  NoDup l → NoDup (omap f l).
Proof.
  intros Hinj. induction 1 as [|x l Hx Hl IH]; simpl; [constructor|].
  destruct (f x) as [z|] eqn:Hz; [|done].
  constructor; [|done].
  intros (y & Hy & Hfy)%list_elem_of_omap.
  by rewrite (Hinj _ _ _ Hz Hfy) in Hx.
Qed.

Lemma elem_of_entries w p n :
  n ∈ os.entries w p ↔ is_Some (tree w !! (p ++ [n])).
Proof.
  unfold os.entries. rewrite list_elem_of_omap. split.
  - intros (k & Hk & ->%entry_of_Some).
    by apply elem_of_dom, elem_of_elements.
  - intros H. exists (p ++ [n]). split.
    + by apply elem_of_elements, elem_of_dom.
    + by apply entry_of_Some.
Qed.

Lemma NoDup_entries w p : NoDup (os.entries w p).
Proof.
  apply omap_NoDup; [|apply NoDup_elements].
  intros x y z Hx%entry_of_Some Hy%entry_of_Some. congruence.
Qed.

Lemma stat_cons w s p : os.stat w (s :: p) = tree w !! (s :: p).
Proof. done. Qed.

Lemma stat_subsystem_path w s p :
  os.stat w (subsystem_path s p) = tree w !! subsystem_path s p.
Proof. done. Qed.

Lemma isdir_Some w p :
  os.isdir w p = true ↔ ∃ link, os.stat w p = Some (Dir link).
Proof.
  unfold os.isdir. destruct (os.stat w p) as [[]|]; naive_solver.
Qed.

Lemma isfile_isdir w p : os.isfile w p = true → os.isdir w p = false.
Proof. unfold os.isfile, os.isdir. by destruct (os.stat w p) as [[]|]. Qed.

Lemma listdir_isdir w p :
  os.isdir w p = true → os.listdir w p = Ok (os.entries w p).
Proof.
  unfold os.isdir, os.listdir. by destruct (os.stat w p) as [[]|].
Qed.

Lemma listdir_Ok w p l : os.listdir w p = Ok l → l = os.entries w p.
Proof.
  unfold os.listdir. destruct (os.stat w p) as [[]|]; congruence.
Qed.
End tree_facts.

(** ** Enumeration of the subsystems *)

Lemma yielded_spec lookup_subsystems include_aliases w s :
  yielded (lookup_set lookup_subsystems) include_aliases w s = true
  ↔ discovered include_aliases w s ∧ requested lookup_subsystems s.
Proof.
  unfold yielded, discovered, os.isdir, os.islink.
  change (subsystem_path s []) with (CGROUP_PATH ++ [s]).
  change (os.stat w (CGROUP_PATH ++ [s])) with (tree w !! (CGROUP_PATH ++ [s])).
  assert (match lookup_set lookup_subsystems with
          | Some names => bool_decide (s ∈ names)
          | None => true
          end = true ↔ requested lookup_subsystems s) as Hreq.
  { destruct lookup_subsystems; simpl; rewrite ?bool_decide_eq_true;
      set_solver. }
  destruct (tree w !! (CGROUP_PATH ++ [s])) as [[[]| |]|]; simpl;
    try (split; [done|]; intros [(? & ? & ?) _]; done).
  - destruct include_aliases; simpl.
    + rewrite Hreq. naive_solver.
    + split; [done|]. intros [(l & [= <-] & Hl) _]. by specialize (Hl eq_refl).
  - rewrite andb_false_r. simpl. rewrite Hreq. naive_solver.
Qed.

Lemma elem_of_iter_subsystems lookup_subsystems include_aliases w l s :
  iter_subsystems lookup_subsystems include_aliases w = Ok l →
  s ∈ l ↔ discovered include_aliases w s ∧ requested lookup_subsystems s.
Proof.
  unfold iter_subsystems. destruct (os.listdir _ _) as [names|] eqn:Hl; [|done].
  intros [= <-]. apply listdir_Ok in Hl as ->.
  rewrite list_elem_of_In, filter_In, <- list_elem_of_In, yielded_spec.
  rewrite elem_of_entries. unfold discovered. naive_solver.
Qed.

Lemma NoDup_iter_subsystems lookup_subsystems include_aliases w l :
  iter_subsystems lookup_subsystems include_aliases w = Ok l → NoDup l.
Proof.
  unfold iter_subsystems. destruct (os.listdir _ _) as [names|] eqn:Hl; [|done].
  intros [= <-]. apply listdir_Ok in Hl as ->.
  apply NoDup_ListNoDup, List.NoDup_filter, NoDup_ListNoDup, NoDup_entries.
Qed.

Lemma iter_subsystems_listable lookup_subsystems include_aliases w :
  os.isdir w CGROUP_PATH = true →
  ∃ l, iter_subsystems lookup_subsystems include_aliases w = Ok l.
Proof.
  intros Hd. unfold iter_subsystems. rewrite listdir_isdir by done. by eexists.
Qed.

(** C7, as the code has it.  When the mount root is a directory,
    [iter_subsystems] yields, each once, exactly the names [s] such that
    [s] under the mount root is a directory, is not a link unless
    [include_aliases] is set, and is asked for by [lookup_subsystems]
    when that argument is given.  When it is not given (None) every
    discovered subsystem is yielded; when it is given and empty, none is. *)
Theorem iter_subsystems_yields lookup_subsystems include_aliases w :
  os.isdir w CGROUP_PATH = true →
  ∃ l, iter_subsystems lookup_subsystems include_aliases w = Ok l
       ∧ NoDup l
       ∧ (∀ s, s ∈ l ↔ discovered include_aliases w s
                        ∧ requested lookup_subsystems s)
       ∧ (lookup_subsystems = Unset → ∀ s, s ∈ l ↔ discovered include_aliases w s)
       ∧ (lookup_subsystems = Names [] → l = []).
Proof.
  intros Hd.
  destruct (iter_subsystems lookup_subsystems include_aliases w) as [l|e] eqn:Hl.
  - exists l. split_and!; [done|by eapply NoDup_iter_subsystems| | |].
    + intros s. by eapply elem_of_iter_subsystems.
    + intros -> s. rewrite (elem_of_iter_subsystems _ _ _ _ _ Hl). simpl. tauto.
    + intros ->. apply elem_of_nil_inv. intros s.
      rewrite (elem_of_iter_subsystems _ _ _ _ _ Hl). simpl.
      rewrite elem_of_nil. tauto.
  - unfold iter_subsystems in Hl. by rewrite listdir_isdir in Hl.
Qed.

Lemma iter_subsystems_yields_witness :
  ∃ l, iter_subsystems (Name "cpu") false world_cpu = Ok l
       ∧ NoDup l
       ∧ (∀ s, s ∈ l ↔ discovered false world_cpu s ∧ requested (Name "cpu") s)
       ∧ (Name "cpu" = Unset → ∀ s, s ∈ l ↔ discovered false world_cpu s)
       ∧ (Name "cpu" = Names [] → l = []).
Proof. apply (iter_subsystems_yields (Name "cpu") false world_cpu). reflexivity. Defined.

(** C7 as stated fails: with an empty requested set nothing is yielded,
    although [cpu] is discovered. *)
Lemma iter_subsystems_empty_request :
  iter_subsystems Unset false world_cpu = Ok ["cpu"]
  ∧ iter_subsystems (Names []) false world_cpu = Ok []
  ∧ iter_subsystems Unset true world_cpu = Ok ["cpu"; "cpuacct"].
Proof. by vm_compute. Qed.

(** ** Intersection of the membership across subsystems *)

Lemma rfold_intersection_empty {A} (f : A → result (list string)) (l : list A) r :
  rfold l (λ ret s, let? ids := f s in Ok (ret ∩ list_to_set ids)) (∅ : gset string)
    = Ok r →
  r = ∅.
Proof.
  induction l as [|s l IH]; simpl; [congruence|].
  destruct (f s) as [ids|e]; simpl; [|done].
  rewrite (left_absorb_L ∅ (∩)). apply IH.
Qed.

Lemma rfold_intersection_returns {A} (f : A → result (list string)) (l : list A) :
  Forall (λ s, ∃ ids, f s = Ok ids) l →
  rfold l (λ ret s, let? ids := f s in Ok (ret ∩ list_to_set ids)) (∅ : gset string)
    = Ok ∅.
Proof.
  induction 1 as [|s l [ids Hs] _ IH]; simpl; [done|].
  rewrite Hs. simpl. by rewrite (left_absorb_L ∅ (∩)).
Qed.

(** C9.  [_subsystems_cgroup_procs_intersection] never returns an
    identifier: whatever it returns is the empty set, and it does return
    (the empty set) whenever the subsystems can be enumerated and the
    membership file of each one in scope can be read, whatever the files
    hold. *)
Theorem intersection_is_always_empty fname p lookup_subsystems w :
  (∀ r, _subsystems_cgroup_procs_intersection fname p lookup_subsystems w = Ok r
        → r = ∅)
  ∧ (∀ l, iter_subsystems lookup_subsystems false w = Ok l →
          Forall (λ s, ∃ ids, _cgroup_procs fname s p w = Ok ids) l →
          _subsystems_cgroup_procs_intersection fname p lookup_subsystems w = Ok ∅).
Proof.
  unfold _subsystems_cgroup_procs_intersection. split.
  - intros r. destruct (iter_subsystems _ _ _) as [l|]; simpl; [|done].
    apply rfold_intersection_empty.
  - intros l -> Hl. simpl. by apply rfold_intersection_returns.
Qed.

Lemma intersection_is_always_empty_witness :
  _subsystems_cgroup_procs_intersection TASKS_FILE_NAME ["g"] Unset world_g = Ok ∅.
Proof.
  apply (proj2 (intersection_is_always_empty TASKS_FILE_NAME ["g"] Unset world_g)
           ["memory"; "cpu"]).
  - reflexivity.
  - repeat constructor; eexists; reflexivity.
Defined.

(** C1 fails on the code.  Task 7 is listed for [g] by both subsystems in
    scope, so the intersection of the two membership reads is [{"7"}];
    the function returns the empty set. *)
Lemma intersection_misses_common_member :
  iter_subsystems Unset false world_g = Ok ["memory"; "cpu"]
  ∧ _cgroup_procs TASKS_FILE_NAME "cpu" ["g"] world_g = Ok ["7"]
  ∧ _cgroup_procs TASKS_FILE_NAME "memory" ["g"] world_g = Ok ["7"; "8"]
  ∧ _subsystems_cgroup_procs_intersection TASKS_FILE_NAME ["g"] Unset world_g = Ok ∅
  ∧ _subsystems_cgroup_procs_intersection TASKS_FILE_NAME ["g"] (Name "cpu") world_g
    = Ok ∅.
Proof. by vm_compute. Qed.

(** ** Interpretation of a relative path *)

Section counting.
Context {A : Type} (f : A → bool).
Implicit Types l : list A.

Lemma count_true_fmap l : count_true (f <$> l) = length (List.filter f l).
Proof.
  unfold count_true. induction l as [|x l IH]; csimpl; [done|].
  change (id (f x)) with (f x). destruct (f x); csimpl; by rewrite IH.
Qed.

Lemma elem_of_List_filter l x : x ∈ List.filter f l ↔ x ∈ l ∧ f x = true.
Proof. by rewrite !list_elem_of_In, filter_In. Qed.

Lemma filter_nonempty l :
  0 < length (List.filter f l) ↔ ∃ x, x ∈ l ∧ f x = true.
Proof.
  split.
  - destruct (List.filter f l) as [|x r] eqn:Hf; simpl; [lia|]. intros _.
    exists x. apply elem_of_List_filter. rewrite Hf. by left.
  - intros (x & Hx). apply elem_of_List_filter in Hx.
    destruct (List.filter f l); simpl; [by apply elem_of_nil in Hx|lia].
Qed.

Lemma filter_several l :
  NoDup l →
  1 < length (List.filter f l)
  ↔ ∃ x y, x ≠ y ∧ (x ∈ l ∧ f x = true) ∧ (y ∈ l ∧ f y = true).
Proof.
  intros Hl.
  assert (NoDup (List.filter f l)) as Hnd.
  { by apply NoDup_ListNoDup, List.NoDup_filter, NoDup_ListNoDup. }
  setoid_rewrite <- elem_of_List_filter.
  destruct (List.filter f l) as [|x [|y r]]; simpl.
  - split; [lia|]. intros (x & y & _ & Hx & _). by apply elem_of_nil in Hx.
  - split; [lia|]. intros (a & b & Hab & ->%list_elem_of_singleton
                              & ->%list_elem_of_singleton). done.
  - split; [|lia]. intros _. exists x, y. split_and!.
    + apply NoDup_cons in Hnd as [Hx _]. intros ->. apply Hx. by left.
    + by left.
    + right. by left.
Qed.

Lemma index_true_head l x r :
  List.filter f l = x :: r →
  ∃ i, index_true (f <$> l) = Ok i ∧ l !! i = Some x.
Proof.
  induction l as [|y l IH]; csimpl; [done|].
  destruct (f y) eqn:Hy.
  - intros [= -> _]. by exists 0.
  - intros (i & -> & Hi)%IH. by exists (S i).
Qed.

Lemma filter_zip_fst l : (List.filter snd (zip l (f <$> l))).*1 = List.filter f l.
Proof.
  induction l as [|y l IH]; csimpl; [done|].
  destruct (f y); csimpl; by rewrite IH.
Qed.
End counting.

Lemma in_scope_iter lookup_subsystems w s :
  in_scope lookup_subsystems w s
  ↔ ∃ l, iter_subsystems lookup_subsystems false w = Ok l ∧ s ∈ l.
Proof.
  unfold in_scope. split.
  - intros (Hm & Hs).
    destruct (iter_subsystems_listable lookup_subsystems false w Hm) as (l & Hl).
    exists l. split; [done|]. by apply (elem_of_iter_subsystems _ _ _ _ _ Hl).
  - intros (l & Hl & Hs). split.
    + unfold iter_subsystems, os.listdir, os.isdir in *.
      by destruct (os.stat w CGROUP_PATH) as [[]|].
    + by apply (elem_of_iter_subsystems _ _ _ _ _ Hl).
Qed.

Lemma in_scope_root_isdir lookup_subsystems w s :
  in_scope lookup_subsystems w s → os.isdir w (subsystem_path s []) = true.
Proof.
  intros (_ & (link & Hl & _) & _). apply isdir_Some. exists link.
  by rewrite stat_subsystem_path.
Qed.

Lemma join_nonempty p : p ≠ [] → ∃ full_path, os.join p = Ok full_path.
Proof. destruct p; [done|]. intros _. by eexists. Qed.

Lemma iter_subsystems_Raise lookup_subsystems include_aliases w e :
  iter_subsystems lookup_subsystems include_aliases w = Raise e →
  ∃ c f, e = OSError c f.
Proof.
  unfold iter_subsystems, os.listdir.
  destruct (os.stat w CGROUP_PATH) as [[]|]; simpl; intros [= <-]; by eexists _, _.
Qed.

Lemma ambiguity_errors_differ a b :
  new_CGroupLookupError AMBIGUITY_FILE_OR_GROUP a
  ≠ new_CGroupLookupError AMBIGUITY_MULTI_FILES b.
Proof. intros H. vm_compute in H. discriminate H. Qed.

Section interpret.
Context (p : list string) (lookup_subsystems : typing_lookup) (w : world).
Context (l : list string).
Context (Hl : iter_subsystems lookup_subsystems false w = Ok l).

Let isf (s : string) : bool := os.isfile w (subsystem_path s p).
Let isd (s : string) : bool := os.isdir w (subsystem_path s p).
Let nf : nat := length (List.filter isf l).
Let nd : nat := length (List.filter isd l).

Lemma interpret_unfold :
  interpret_cgroup_path p lookup_subsystems w =
    let? full_path := os.join p in
    if Nat.ltb 0 nd && Nat.ltb 0 nf then
      Raise (new_CGroupLookupError AMBIGUITY_FILE_OR_GROUP full_path)
    else if Nat.ltb 1 nf then
      Raise (new_CGroupLookupError AMBIGUITY_MULTI_FILES full_path)
    else if Nat.eqb nf 1 then
      let? i := index_true (isf <$> l) in
      let? found := getitem ((λ s, subsystem_path s p) <$> l) i in
      Ok (is_file found)
    else if Nat.ltb 0 nd then Ok (is_dir (list_to_set (List.filter isd l)))
    else Ok is_none.
Proof.
  unfold interpret_cgroup_path. rewrite Hl. simpl.
  rewrite <- !list_fmap_compose.
  change (os.isfile w ∘ _) with isf. change (os.isdir w ∘ _) with isd.
  rewrite !count_true_fmap, filter_zip_fst. done.
Qed.

Lemma in_scope_elem s : in_scope lookup_subsystems w s ↔ s ∈ l.
Proof. rewrite in_scope_iter. rewrite Hl. naive_solver. Qed.

Lemma file_or_group_test :
  Nat.ltb 0 nd && Nat.ltb 0 nf = true ↔ file_or_group lookup_subsystems w p.
Proof.
  rewrite andb_true_iff, !Nat.ltb_lt. unfold nd, nf, file_or_group.
  rewrite !filter_nonempty. by setoid_rewrite in_scope_elem.
Qed.

Lemma multi_files_test :
  Nat.ltb 1 nf = true ↔ multi_files lookup_subsystems w p.
Proof.
  rewrite Nat.ltb_lt. unfold nf, multi_files.
  rewrite filter_several by (by eapply NoDup_iter_subsystems).
  setoid_rewrite in_scope_elem. unfold has_file. naive_solver.
Qed.

Lemma single_file_found :
  nf = 1 →
  ∃ s, s ∈ l ∧ isf s = true
       ∧ (let? i := index_true (isf <$> l) in
          let? found := getitem ((λ s, subsystem_path s p) <$> l) i in
          Ok (is_file found)) = Ok (is_file (subsystem_path s p)).
Proof.
  unfold nf. destruct (List.filter isf l) as [|s [|]] eqn:Hf; try done.
  intros _. exists s.
  assert (s ∈ List.filter isf l) as [? ?]%elem_of_List_filter
    by (rewrite Hf; by left).
  split_and!; [done..|].
  destruct (index_true_head isf l s [] Hf) as (i & -> & Hi). simpl.
  unfold getitem. by rewrite list_lookup_fmap, Hi.
Qed.
End interpret.

Lemma root_has_no_file lookup_subsystems w s :
  in_scope lookup_subsystems w s → ¬ has_file w [] s.
Proof.
  intros Hd%in_scope_root_isdir Hf%isfile_isdir. congruence.
Qed.

Lemma file_or_group_nonempty lookup_subsystems w p :
  file_or_group lookup_subsystems w p → p ≠ [].
Proof. intros (_ & s & Hs & Hf) ->. by eapply root_has_no_file. Qed.

Lemma multi_files_nonempty lookup_subsystems w p :
  multi_files lookup_subsystems w p → p ≠ [].
Proof. intros (s & _ & _ & Hs & Hf & _) ->. by eapply root_has_no_file. Qed.

(** The two ambiguities are detected in this order, and before any
    classification.  [interpret_cgroup_path] raises what constructing
    the lookup error of the file-or-group ambiguity raises exactly when
    some subsystem in scope has the path as a directory and some has it
    as a file; when that is not so, it raises what constructing the
    lookup error of the multi-files ambiguity raises exactly when two
    subsystems in scope have the path as a file; no classification is
    returned when either holds.  What the construction raises, on the
    joined relative path, is a [ValueError] for both types. *)
Theorem interpret_ambiguity p lookup_subsystems w :
  ((∃ full_path, os.join p = Ok full_path
      ∧ interpret_cgroup_path p lookup_subsystems w
        = Raise (new_CGroupLookupError AMBIGUITY_FILE_OR_GROUP full_path))
   ↔ file_or_group lookup_subsystems w p)
  ∧ (¬ file_or_group lookup_subsystems w p →
     ((∃ full_path, os.join p = Ok full_path
         ∧ interpret_cgroup_path p lookup_subsystems w
           = Raise (new_CGroupLookupError AMBIGUITY_MULTI_FILES full_path))
      ↔ multi_files lookup_subsystems w p))
  ∧ (∀ c, interpret_cgroup_path p lookup_subsystems w = Ok c →
          ¬ file_or_group lookup_subsystems w p
          ∧ ¬ multi_files lookup_subsystems w p).
Proof.
  destruct (iter_subsystems lookup_subsystems false w) as [l|e] eqn:Hl.
  - pose proof (file_or_group_test p _ _ _ Hl) as Hfg.
    pose proof (multi_files_test p _ _ _ Hl) as Hmf.
    pose proof (single_file_found p w l) as Hone.
    rewrite (interpret_unfold p _ _ _ Hl).
    destruct (os.join p) as [full_path|e] eqn:Hj; simpl.
    + destruct (_ && _).
      { assert (file_or_group lookup_subsystems w p) by (by apply Hfg).
        split_and!; [|done..]. split; [done|]. by eexists. }
      assert (¬ file_or_group lookup_subsystems w p) as Hnfg
        by (by intros ?%Hfg).
      destruct (Nat.ltb 1 _).
      { assert (multi_files lookup_subsystems w p) by (by apply Hmf).
        split_and!; [| |done].
        - split; [|done]. intros (fp & _ & Heq).
          destruct (ambiguity_errors_differ fp full_path). simpl in *. congruence.
        - intros _. split; [done|]. by eexists. }
      assert (¬ multi_files lookup_subsystems w p) as Hnmf
        by (by intros ?%Hmf).
      destruct (Nat.eqb _ 1) eqn:E3.
      { apply Nat.eqb_eq, Hone in E3 as (s & _ & _ & ->).
        split_and!; [| |done]; [|intros _]; (split; [|done]);
          by intros (? & _ & ?). }
      destruct (Nat.ltb 0 _);
        (split_and!; [| |done]; [|intros _]; (split; [|done]);
           by intros (? & _ & ?)).
    + destruct p; [|done]. split_and!; [| |done].
      * split; [by intros (? & ? & _)|]. by intros ?%file_or_group_nonempty.
      * intros _. split; [by intros (? & ? & _)|].
        by intros ?%multi_files_nonempty.
  - assert (∀ s, ¬ in_scope lookup_subsystems w s) as Hnone.
    { intros s (l & Hl' & _)%in_scope_iter. congruence. }
    unfold interpret_cgroup_path. rewrite Hl. simpl.
    apply iter_subsystems_Raise in Hl as (c & f & ->).
    split_and!; [| |done].
    + split; [by intros (? & _ & ?)|]. intros ((s & Hs & _) & _). by apply Hnone in Hs.
    + intros _. split; [by intros (? & _ & ?)|].
      intros (s & _ & _ & Hs & _). by apply Hnone in Hs.
Qed.

(** How [interpret_cgroup_path] classifies a path of at least one name,
    where no ambiguity applies: the file of the subsystem in scope that
    has it as a file; otherwise the set of the subsystems in scope that
    have it as a directory, when there is one; otherwise nothing. *)
Lemma interpret_classifies p lookup_subsystems w :
  p ≠ [] →
  os.isdir w CGROUP_PATH = true →
  ¬ file_or_group lookup_subsystems w p →
  ¬ multi_files lookup_subsystems w p →
  (∀ s, in_scope lookup_subsystems w s → has_file w p s →
        interpret_cgroup_path p lookup_subsystems w
        = Ok (is_file (subsystem_path s p)))
  ∧ ((∀ s, in_scope lookup_subsystems w s → ¬ has_file w p s) →
     ∀ S : gset string,
       (∀ s, s ∈ S ↔ in_scope lookup_subsystems w s ∧ has_dir w p s) →
       interpret_cgroup_path p lookup_subsystems w
       = Ok (if decide (S = ∅) then is_none else is_dir S)).
Proof.
  intros Hp Hm Hnfg Hnmf.
  destruct (iter_subsystems_listable lookup_subsystems false w Hm) as (l & Hl).
  pose proof (file_or_group_test p _ _ _ Hl) as Hfg.
  pose proof (multi_files_test p _ _ _ Hl) as Hmf.
  pose proof (single_file_found p w l) as Hone.
  assert (∀ s, in_scope lookup_subsystems w s ↔ s ∈ l) as Hin
    by (intros s; by eapply in_scope_elem).
  rewrite (interpret_unfold p _ _ _ Hl).
  destruct (join_nonempty p Hp) as (full_path & ->). simpl.
  destruct (_ && _); [destruct Hnfg; by apply Hfg|].
  destruct (Nat.ltb 1 _) eqn:E2; [destruct Hnmf; by apply Hmf|].
  apply Nat.ltb_ge in E2.
  split.
  - intros s Hs Hf.
    assert (0 < length (List.filter (λ s, os.isfile w (subsystem_path s p)) l)) as Hpos.
    { apply filter_nonempty. exists s. split; [by apply Hin|done]. }
    rewrite (proj2 (Nat.eqb_eq _ 1)) by lia.
    destruct Hone as (s' & Hs' & Hf' & ->); [lia|].
    destruct (decide (s = s')) as [->|Hne]; [done|].
    destruct Hnmf. exists s, s'. split_and!; try done. by apply Hin.
  - intros Hnofile S HS.
    assert (length (List.filter (λ s, os.isfile w (subsystem_path s p)) l) = 0) as ->.
    { destruct (List.filter _ l) as [|s r] eqn:Hf; [done|].
      assert (s ∈ List.filter (λ s, os.isfile w (subsystem_path s p)) l)
        as [Hs Hsf]%elem_of_List_filter by (rewrite Hf; by left).
      by apply Hin, Hnofile in Hs. }
    simpl.
    assert (S = list_to_set (List.filter (λ s, os.isdir w (subsystem_path s p)) l))
      as HSeq.
    { apply set_eq. intros s.
      rewrite HS, elem_of_list_to_set, elem_of_List_filter, Hin. done. }
    destruct (Nat.ltb 0 _) eqn:E4.
    + apply Nat.ltb_lt, filter_nonempty in E4 as (s & Hs & Hd).
      rewrite decide_False; [by rewrite HSeq|].
      intros HSe. assert (s ∈ S) as Hs'; [|set_solver].
      apply HS. split; [by apply Hin|done].
    + apply Nat.ltb_ge in E4. rewrite decide_True; [done|].
      rewrite HSeq.
      destruct (List.filter (λ s, os.isdir w (subsystem_path s p)) l);
        [done|simpl in E4; lia].
Qed.

(** With no name in the path, [interpret_cgroup_path] returns no
    classification, whatever the tree holds. *)
Lemma interpret_root_never_classifies lookup_subsystems w c :
  interpret_cgroup_path [] lookup_subsystems w ≠ Ok c.
Proof.
  unfold interpret_cgroup_path.
  by destruct (iter_subsystems lookup_subsystems false w).
Qed.

(** C2 fails on the code at the root of the hierarchies: the empty
    relative path is a directory in both subsystems in scope, and the
    function raises [TypeError] when it joins the names of the path for
    its messages; paths of one and of two names are classified. *)
Lemma interpret_root_raises :
  iter_subsystems Unset false world_g = Ok ["memory"; "cpu"]
  ∧ os.isdir world_g (subsystem_path "cpu" []) = true
  ∧ os.isdir world_g (subsystem_path "memory" []) = true
  ∧ interpret_cgroup_path [] Unset world_g
    = Raise (TypeError "join() missing 1 required positional argument: 'a'")
  ∧ interpret_cgroup_path ["g"] Unset world_g = Ok (is_dir {[ "cpu"; "memory" ]})
  ∧ interpret_cgroup_path ["g"; "cpu.shares"] Unset world_g
    = Ok (is_file ["sys"; "fs"; "cgroup"; "cpu"; "g"; "cpu.shares"]).
Proof. by vm_compute. Qed.

Lemma interpret_ambiguity_witness :
  ∃ full_path, os.join ["x"] = Ok full_path
    ∧ interpret_cgroup_path ["x"] Unset world_ambiguous
      = Raise (new_CGroupLookupError AMBIGUITY_FILE_OR_GROUP full_path).
Proof.
  apply (proj1 (interpret_ambiguity ["x"] Unset world_ambiguous)).
  split.
  - exists "memory". repeat split; try reflexivity.
    exists false. split; [reflexivity|done].
  - exists "cpu". repeat split; try reflexivity.
    exists false. split; [reflexivity|done].
Defined.

(** C3 fails on the code.  The name [x] is a file in [cpu] and a
    directory in [memory], the name [y] a file in both: the two
    ambiguities are detected, in that order, but neither lookup error is
    raised.  [CGroupLookupError.__init__] raises [ValueError] itself for
    the two ambiguity types, so that what leaves [interpret_cgroup_path]
    is a [ValueError]; and on no path, lookup or tree does the function
    raise a [CGroupLookupError]. *)
Lemma interpret_ambiguity_raises_value_error :
  os.isfile world_ambiguous (subsystem_path "cpu" ["x"]) = true
  ∧ os.isdir world_ambiguous (subsystem_path "memory" ["x"]) = true
  ∧ interpret_cgroup_path ["x"] Unset world_ambiguous
    = Raise (ValueError "Ambiguity: the same name given to files and groups: x.")
  ∧ os.isfile world_ambiguous (subsystem_path "cpu" ["y"]) = true
  ∧ os.isfile world_ambiguous (subsystem_path "memory" ["y"]) = true
  ∧ os.isdir world_ambiguous (subsystem_path "cpu" ["y"]) = false
  ∧ os.isdir world_ambiguous (subsystem_path "memory" ["y"]) = false
  ∧ interpret_cgroup_path ["y"] Unset world_ambiguous
    = Raise (ValueError "Ambiguity: more than one subsystem have the file: y.")
  ∧ ∀ p lookup_subsystems w error path msg,
      interpret_cgroup_path p lookup_subsystems w
      ≠ Raise (CGroupLookupError error path msg).
Proof.
  split_and!; try (vm_compute; reflexivity).
  intros p lookup_subsystems w error path msg Hi.
  destruct (iter_subsystems lookup_subsystems false w) as [l|e] eqn:Hl.
  - rewrite (interpret_unfold p _ _ _ Hl) in Hi.
    destruct (os.join p) as [full_path|e] eqn:Hj.
    2:{ destruct p; [|done]. cbn in Hj. by injection Hj as <-. }
    cbn [bindR] in Hi.
    destruct (_ && _); [done|]. destruct (Nat.ltb 1 _); [done|].
    destruct (Nat.eqb _ 1) eqn:Hone.
    + apply Nat.eqb_eq in Hone.
      destruct (single_file_found p w l Hone) as (s & _ & _ & Heq).
      by rewrite Heq in Hi.
    + by destruct (Nat.ltb 0 _).
  - unfold interpret_cgroup_path in Hi. rewrite Hl in Hi. cbn in Hi.
    apply iter_subsystems_Raise in Hl as (c & f & ->). done.
Qed.

(** ** The cgroups of a task *)

(** C8 fails on the code.  [lstrip('name=')] removes leading characters
    among [n], [a], [m], [e], [=], not the prefix: of the field
    [name=elogind] it keeps [logind], and of the field [memory], which has
    no such prefix, it keeps [ory]. *)
Lemma task_cgroups_strips_characters :
  str.lstrip_chars "name=" "name=elogind" = "logind"
  ∧ str.lstrip_chars "name=" "memory" = "ory"
  ∧ task_cgroups (PInt 1) world_proc
    = Ok [ ("g", {[ "cpu,cpuacct"; "ory" ]}); ("", {[ "logind" ]}) ].
Proof. by vm_compute. Qed.

(** ** Deletion of a group *)

Lemma rmdir_Ok p w w' :
  os.rmdir p w = (Ok tt, w')
  ↔ p ≠ [] ∧ tree w !! p = Some (Dir false) ∧ os.entries w p = []
    ∧ w' = World (delete p (tree w)) (written w).
Proof.
  unfold os.rmdir. destruct p as [|x p]; [naive_solver|].
  destruct (tree w !! (x :: p)) as [[[]| |]|]; try naive_solver.
  destruct (os.entries w (x :: p)); naive_solver.
Qed.

Lemma rmdir_Raise p w e w' :
  os.rmdir p w = (Raise e, w') → w' = w ∧ ∃ c f, e = OSError c f.
Proof.
  unfold os.rmdir. destruct p as [|x p]; [naive_solver|].
  destruct (tree w !! (x :: p)) as [[[]| |]|]; try naive_solver.
  destruct (os.entries w (x :: p)); naive_solver.
Qed.

Lemma entries_nil w p : os.entries w p = [] ↔ ∀ n, tree w !! (p ++ [n]) = None.
Proof.
  split.
  - intros He n. apply eq_None_not_Some. rewrite <- elem_of_entries, He.
    apply not_elem_of_nil.
  - intros Hn. apply elem_of_nil_inv. intros n.
    rewrite elem_of_entries, Hn. by intros [? ?].
Qed.

(** One round of the loop of [os.removedirs], on a head of at least one
    name. *)
Lemma prune_rev_snoc h x w :
  os.prune_rev (reverse (h ++ [x])) w =
    match os.rmdir (h ++ [x]) w with
    | (Raise (OSError _ _), w') => (Ok tt, w')
    | (Raise e, w') => (Raise e, w')
    | (Ok _, w') => os.prune_rev (reverse h) w'
    end.
Proof.
  rewrite reverse_snoc. simpl. by rewrite reverse_cons, reverse_involutive.
Qed.

Lemma prune_rev_nil w : os.prune_rev (reverse []) w = (Ok tt, w).
Proof. done. Qed.

Lemma removedirs_snoc h x w :
  os.removedirs (h ++ [x]) w =
    match os.rmdir (h ++ [x]) w with
    | (Ok _, w') => os.prune_rev (reverse h) w'
    | (Raise e, w') => (Raise e, w')
    end.
Proof.
  unfold os.removedirs, bindM. destruct (os.rmdir _ _) as [[[]|e] w']; [|done].
  by rewrite reverse_snoc.
Qed.

Lemma prune_rev_ok h w : ∃ w', os.prune_rev (reverse h) w = (Ok tt, w').
Proof.
  revert w. induction h as [|x h IH] using rev_ind; intros w; [by eexists|].
  rewrite prune_rev_snoc.
  destruct (os.rmdir (h ++ [x]) w) as [[[]|e] w1] eqn:E; [apply IH|].
  apply rmdir_Raise in E as (-> & c & f & ->). by eexists.
Qed.

(** The loop only removes heads of the name, and writes nothing. *)
Lemma prune_rev_frame h w w' :
  os.prune_rev (reverse h) w = (Ok tt, w') →
  written w' = written w
  ∧ ∀ k, tree w' !! k = tree w !! k
         ∨ (tree w' !! k = None ∧ k `prefix_of` h ∧ k ≠ []).
Proof.
  revert w. induction h as [|x h IH] using rev_ind; intros w.
  - intros [= <-]. split; [done|]. by left.
  - rewrite prune_rev_snoc.
    destruct (os.rmdir (h ++ [x]) w) as [[[]|e] w1] eqn:E.
    + apply rmdir_Ok in E as (_ & _ & _ & ->).
      intros [Hw Hk]%IH. split; [done|]. intros k.
      destruct (decide (k = h ++ [x])) as [->|Hne].
      * right. split_and!; [|done|by destruct h].
        destruct (Hk (h ++ [x])) as [->|[? _]]; [|done].
        simpl. apply lookup_delete_eq.
      * destruct (Hk k) as [->|(? & ? & ?)].
        -- left. simpl. by apply lookup_delete_ne.
        -- right. split_and!; [done| |done]. by apply prefix_app_r.
    + apply rmdir_Raise in E as (-> & c & f & ->). intros [= <-].
      split; [done|]. by left.
Qed.

Lemma prefix_snoc_inv (a h : path) x :
  a `prefix_of` h ++ [x] → a = h ++ [x] ∨ a `prefix_of` h.
Proof.
  intros [k Hk]. destruct k as [|y k _] using rev_ind.
  - left. by rewrite app_nil_r in Hk.
  - right. rewrite app_assoc in Hk. apply app_inj_tail in Hk as [-> _].
    by apply prefix_app_r.
Qed.

Lemma prefix_snoc_longer (h : path) x : ¬ (h ++ [x]) `prefix_of` h.
Proof.
  intros Hp%prefix_length. rewrite length_app in Hp. simpl in Hp. lia.
Qed.

(** A head is removed when everything under it lies on the way to the
    name, through plain directories. *)
Lemma prune_rev_removes a h w w' :
  a ≠ [] → a `prefix_of` h →
  (∀ b, a `prefix_of` b → b `prefix_of` h → tree w !! b = Some (Dir false)) →
  (∀ k, is_Some (tree w !! k) → a `prefix_of` k → a ≠ k → k `prefix_of` h) →
  os.prune_rev (reverse h) w = (Ok tt, w') →
  tree w' !! a = None.
Proof.
  intros Ha. revert w.
  induction h as [|x h IH] using rev_ind; intros w Hah Hdirs Hbelow.
  { by apply prefix_nil_inv in Hah. }
  rewrite prune_rev_snoc.
  assert (os.rmdir (h ++ [x]) w
          = (Ok tt, World (delete (h ++ [x]) (tree w)) (written w))) as ->.
  { apply rmdir_Ok. split_and!; [by destruct h|by apply Hdirs| |done].
    apply entries_nil. intros n. apply eq_None_not_Some. intros Hn.
    apply Hbelow in Hn.
    - by apply prefix_snoc_longer in Hn.
    - by apply prefix_app_r.
    - intros ->. by apply prefix_snoc_longer in Hah. }
  intros Hp.
  destruct (prefix_snoc_inv _ _ _ Hah) as [->|Hah'].
  - destruct (prune_rev_frame _ _ _ Hp) as [_ Hk].
    destruct (Hk (h ++ [x])) as [->|[? _]]; [|done].
    simpl. apply lookup_delete_eq.
  - eapply IH; [done| |  |exact Hp]; simpl.
    + intros b Hab Hbh. rewrite lookup_delete_ne.
      * apply Hdirs; [done|]. by apply prefix_app_r.
      * intros <-. by apply prefix_snoc_longer in Hbh.
    + intros k Hk Hak Hne.
      destruct (decide (k = h ++ [x])) as [->|Hkne].
      { rewrite lookup_delete_eq in Hk. by destruct Hk. }
      rewrite lookup_delete_ne in Hk by done.
      destruct (prefix_snoc_inv k h x); [by apply Hbelow|done..].
Qed.

(** A head that has an entry off the way to the name stops the loop: it
    and the heads above it are kept. *)
Lemma prune_rev_keeps b n c h w w' :
  b `prefix_of` h → c `prefix_of` b →
  is_Some (tree w !! (b ++ [n])) → ¬ (b ++ [n]) `prefix_of` h →
  os.prune_rev (reverse h) w = (Ok tt, w') →
  tree w' !! c = tree w !! c.
Proof.
  revert w. induction h as [|x h IH] using rev_ind; intros w Hbh Hcb Hn Hoff.
  { by intros [= <-]. }
  rewrite prune_rev_snoc.
  destruct (os.rmdir (h ++ [x]) w) as [[[]|e] w1] eqn:E.
  - apply rmdir_Ok in E as (_ & _ & He & ->).
    destruct (prefix_snoc_inv _ _ _ Hbh) as [->|Hbh'].
    { rewrite entries_nil in He. rewrite He in Hn. by destruct Hn. }
    intros Hp. etrans; [eapply (IH _ Hbh' Hcb); [| |exact Hp]|].
    + simpl. rewrite lookup_delete_ne; [done|].
      intros Heq. apply Hoff. by rewrite Heq.
    + intros ?. apply Hoff. by apply prefix_app_r.
    + simpl. apply lookup_delete_ne. intros <-.
      assert ((h ++ [x]) `prefix_of` h) as Hbad by (by etrans).
      by apply prefix_snoc_longer in Hbad.
  - apply rmdir_Raise in E as (-> & c' & f & ->). by intros [= <-].
Qed.

Lemma delete_cgroup_Ok s p w w' :
  delete_cgroup s p w = (Ok tt, w') →
  os.removedirs (subsystem_path s p) w = (Ok tt, w').
Proof.
  unfold delete_cgroup.
  destruct (os.isfile w _); [done|]. destruct (os.islink w _); [done|].
  by destruct (os.exists_ w _).
Qed.

(** C10.  When [delete_cgroup] succeeds, the group directory is gone, and
    so is every directory above it that was left with no entry: every
    head [a] of the path under which the tree held nothing but the plain
    directories on the way to the group.  A head that has another entry
    is kept, with the heads above it, and so is every path that is not a
    head of the group's path; nothing is written. *)
Theorem delete_cgroup_removes_emptied_parents s p w w' :
  delete_cgroup s p w = (Ok tt, w') →
  let t := subsystem_path s p in
  tree w' !! t = None
  ∧ (∀ a, a ≠ [] → a `prefix_of` t →
          (∀ b, a `prefix_of` b → b `prefix_of` t → b ≠ t →
                tree w !! b = Some (Dir false)) →
          (∀ k, is_Some (tree w !! k) → a `prefix_of` k → a ≠ k →
                k `prefix_of` t) →
          tree w' !! a = None)
  ∧ (∀ b n c, b `prefix_of` t → c `prefix_of` b →
              is_Some (tree w !! (b ++ [n])) → ¬ (b ++ [n]) `prefix_of` t →
              tree w' !! c = tree w !! c)
  ∧ (∀ k, ¬ k `prefix_of` t → tree w' !! k = tree w !! k)
  ∧ written w' = written w.
Proof.
  intros Hd%delete_cgroup_Ok t.
  assert (∃ h x, t = h ++ [x]) as (h & x & Ht).
  { unfold t, subsystem_path. destruct p as [|y p _] using rev_ind.
    - by exists CGROUP_PATH, s.
    - exists (CGROUP_PATH ++ s :: p), y. by rewrite app_comm_cons, app_assoc. }
  fold t in Hd. rewrite Ht in *. rewrite removedirs_snoc in Hd.
  destruct (os.rmdir (h ++ [x]) w) as [[[]|e] w1] eqn:E; [|done].
  apply rmdir_Ok in E as (_ & Ht_dir & Ht_empty & ->).
  destruct (prune_rev_frame _ _ _ Hd) as [Hw Hframe].
  assert (tree w' !! (h ++ [x]) = None) as Hgone.
  { destruct (Hframe (h ++ [x])) as [->|[? _]]; [|done].
    simpl. apply lookup_delete_eq. }
  split_and!; [done| | | |done].
  - intros a Ha Hat Hdirs Hbelow.
    destruct (prefix_snoc_inv _ _ _ Hat) as [->|Hah]; [done|].
    eapply prune_rev_removes; [done|exact Hah| | |exact Hd]; simpl.
    + intros b Hab Hbh.
      assert (b ≠ h ++ [x]) by (intros ->; by apply prefix_snoc_longer in Hbh).
      rewrite lookup_delete_ne by done.
      apply Hdirs; [done| |done]. by apply prefix_app_r.
    + intros k Hk Hak Hne.
      destruct (decide (k = h ++ [x])) as [->|Hkne].
      { rewrite lookup_delete_eq in Hk. by destruct Hk. }
      rewrite lookup_delete_ne in Hk by done.
      destruct (prefix_snoc_inv k h x); [by apply Hbelow|done..].
  - intros b n c Hbt Hcb Hn Hoff.
    destruct (prefix_snoc_inv _ _ _ Hbt) as [->|Hbh].
    { rewrite entries_nil in Ht_empty. rewrite Ht_empty in Hn. by destruct Hn. }
    assert (c ≠ h ++ [x]).
    { intros ->. assert ((h ++ [x]) `prefix_of` h) as Hbad by (by etrans).
      by apply prefix_snoc_longer in Hbad. }
    etrans; [eapply (prune_rev_keeps b n c h); [done|done| | |exact Hd]|].
    + simpl. rewrite lookup_delete_ne; [done|].
      intros Heq. apply Hoff. by rewrite Heq.
    + intros ?. apply Hoff. by apply prefix_app_r.
    + simpl. by apply lookup_delete_ne.
  - intros k Hk.
    assert (k ≠ h ++ [x]) by (by intros ->).
    destruct (Hframe k) as [->|(_ & Hkh & _)].
    + simpl. by apply lookup_delete_ne.
    + destruct Hk. by apply prefix_app_r.
Qed.

Lemma delete_cgroup_removes_emptied_parents_witness :
  let w' := (delete_cgroup "cpu" ["a"; "b"] world_nested).2 in
  tree w' !! subsystem_path "cpu" ["a"; "b"] = None
  ∧ written w' = written world_nested.
Proof.
  intros w'.
  destruct (delete_cgroup_removes_emptied_parents "cpu" ["a"; "b"] world_nested w')
    as (H1 & _ & _ & _ & H5); [reflexivity|].
  exact (conj H1 H5).
Defined.

(** Deleting [a/b] removes [a] as well, which held nothing else; [cpu],
    which holds its membership file, stays. *)
Lemma delete_cgroup_removes_parent :
  let r := delete_cgroup "cpu" ["a"; "b"] world_nested in
  r.1 = Ok tt
  ∧ world_nested.(tree) !! ["sys"; "fs"; "cgroup"; "cpu"; "a"] = Some (Dir false)
  ∧ r.2.(tree) !! ["sys"; "fs"; "cgroup"; "cpu"; "a"; "b"] = None
  ∧ r.2.(tree) !! ["sys"; "fs"; "cgroup"; "cpu"; "a"] = None
  ∧ r.2.(tree) !! ["sys"; "fs"; "cgroup"; "cpu"] = Some (Dir false).
Proof. by vm_compute. Qed.

(** ** Writing the membership *)

Lemma dirname_ne (f : path) : f ≠ [] → os.dirname f ≠ f.
Proof.
  intros Hf Heq. destruct f as [|x f _] using rev_ind; [done|].
  unfold os.dirname in Heq. rewrite removelast_last in Heq.
  apply (f_equal length) in Heq. rewrite length_app in Heq. simpl in Heq. lia.
Qed.

Lemma stat_put_ne f n text w k :
  k ≠ f → os.stat (os.put f n text w) k = os.stat w k.
Proof.
  intros Hk. destruct k; [done|]. simpl. by apply lookup_insert_ne.
Qed.

Lemma stat_put_eq f n text w :
  f ≠ [] → os.stat (os.put f n text w) f = Some n.
Proof. intros Hf. destruct f; [done|]. simpl. apply lookup_insert_eq. Qed.

(** The four outcomes of a write. *)
Lemma write_cases f text w :
  (os.write f text w = (Ok tt, os.put f (File text) text w)
   ∧ f ≠ []
   ∧ ((∃ data, os.stat w f = Some (File data))
      ∨ (os.stat w f = None ∧ os.isdir w (os.dirname f) = true)))
  ∨ (∃ ids i, os.stat w f = Some (Members ids) ∧ f ≠ []
        ∧ os.parse_id text = Some i
        ∧ os.write f text w
          = (Ok tt,
             os.put f (Members (if decide (i ∈ ids) then ids else ids ++ [i]))
               text w))
  ∨ (∃ e, os.write f text w = (Raise e, w)).
Proof.
  unfold os.write, os.isdir.
  destruct (os.stat w f) as [[l|data|ids]|] eqn:Hs.
  - right. right. by eexists.
  - left. split_and!; [done|by intros ->|]. left. by eexists.
  - destruct (os.parse_id text) as [i|] eqn:Hi.
    + right. left. exists ids, i. split_and!; try done. by intros ->.
    + right. right. by eexists.
  - assert (f ≠ []) by (by intros ->).
    destruct (os.stat w (os.dirname f)) as [[]|];
      try (right; right; by eexists).
    left. split_and!; try done. by right.
Qed.

Lemma write_frame f text w k :
  k ≠ f → os.stat (os.write f text w).2 k = os.stat w k.
Proof.
  intros Hk.
  destruct (write_cases f text w)
    as [(-> & _)|[(ids & i & _ & _ & _ & ->)|(e & ->)]];
    cbn [fst snd]; by rewrite ?stat_put_ne.
Qed.

Lemma write_same_dirs f text w : same_dirs (os.write f text w).2 w.
Proof.
  intros k. unfold os.isdir, os.islink.
  destruct (decide (k = f)) as [->|Hk]; [|by rewrite write_frame].
  destruct (write_cases f text w)
    as [(-> & Hf & Hs)|[(ids & i & Hs & Hf & _ & ->)|(e & ->)]]; cbn [fst snd];
    [|by rewrite stat_put_eq, Hs|done].
  rewrite stat_put_eq by done.
  by destruct Hs as [[data ->]|[-> _]].
Qed.

Lemma write_local f text w1 w2 :
  agree f w1 w2 →
  (os.write f text w1).1 = (os.write f text w2).1
  ∧ agree f (os.write f text w1).2 (os.write f text w2).2.
Proof.
  intros [Hf Hd]. unfold agree.
  destruct (decide (f = [])) as [->|Hne]; [done|].
  rewrite !(write_frame f text _ (os.dirname f)) by (by apply dirname_ne).
  unfold os.write. rewrite Hf, Hd.
  destruct (os.stat w2 f) as [[l|data|ids]|] eqn:Hs2; cbn [fst snd].
  - split_and!; congruence.
  - rewrite !stat_put_eq by done. done.
  - destruct (os.parse_id text); cbn [fst snd].
    + rewrite !stat_put_eq by done. done.
    + split_and!; congruence.
  - destruct (os.stat w2 (os.dirname f)) as [[]|]; cbn [fst snd];
      rewrite ?stat_put_eq by done; split_and!; congruence.
Qed.

Lemma same_dirs_refl w : same_dirs w w.
Proof. done. Qed.

Lemma same_dirs_trans w1 w2 w3 : same_dirs w1 w2 → same_dirs w2 w3 → same_dirs w1 w3.
Proof. intros H1 H2 k. destruct (H1 k), (H2 k). split; congruence. Qed.

Lemma yielded_same_dirs lookup include_aliases w1 w2 s :
  same_dirs w1 w2 →
  yielded lookup include_aliases w1 s = yielded lookup include_aliases w2 s.
Proof.
  intros Hd. unfold yielded. by destruct (Hd (subsystem_path s [])) as [-> ->].
Qed.

Lemma for_each_cons {A} (x : A) l body w :
  for_each (x :: l) body w =
    match body x w with
    | (Ok _, w') => for_each l body w'
    | (Raise e, w') => (Raise e, w')
    end.
Proof. done. Qed.

Section writes.
Context (f : path).
Let body (i : string) : M unit := os.write f (i +:+ "
").

Lemma for_each_write_frame ids w k :
  k ≠ f → os.stat (for_each ids body w).2 k = os.stat w k.
Proof.
  intros Hk. revert w. induction ids as [|i ids IH]; intros w; [done|].
  rewrite for_each_cons. unfold body at 1.
  pose proof (write_frame f (i +:+ "
") w k Hk) as Hw.
  destruct (os.write f _ w) as [[[]|e] w1]; simpl in *; [|done].
  by rewrite IH.
Qed.

Lemma for_each_write_same_dirs ids w : same_dirs (for_each ids body w).2 w.
Proof.
  revert w. induction ids as [|i ids IH]; intros w; [done|].
  rewrite for_each_cons. unfold body at 1.
  pose proof (write_same_dirs f (i +:+ "
") w) as Hw.
  destruct (os.write f _ w) as [[[]|e] w1]; simpl in *; [|done].
  by eapply same_dirs_trans.
Qed.

Lemma for_each_write_local ids w1 w2 :
  agree f w1 w2 →
  (for_each ids body w1).1 = (for_each ids body w2).1
  ∧ agree f (for_each ids body w1).2 (for_each ids body w2).2.
Proof.
  revert w1 w2. induction ids as [|i ids IH]; intros w1 w2 Ha; [done|].
  rewrite !for_each_cons. change (body i) with (os.write f (i +:+ "
")).
  destruct (write_local f (i +:+ "
") w1 w2 Ha) as [H1 H2].
  destruct (os.write f _ w1) as [[[]|e1] w1'],
           (os.write f _ w2) as [[[]|e2] w2']; simpl in *; try done.
  by apply IH.
Qed.
End writes.

Lemma add_procs_unfold fname s proc_ids p w :
  _add_procs fname s proc_ids p w =
    match _normalize_process_id_list proc_ids with
    | Ok ids =>
        for_each ids (λ i, os.write (membership_file fname s p) (i +:+ "
")) w
    | Raise e => (Raise e, w)
    end.
Proof.
  unfold _add_procs, bindM, lift.
  by destruct (_normalize_process_id_list proc_ids).
Qed.

Lemma add_procs_frame fname s proc_ids p w k :
  k ≠ membership_file fname s p →
  os.stat (_add_procs fname s proc_ids p w).2 k = os.stat w k.
Proof.
  intros Hk. rewrite add_procs_unfold.
  destruct (_normalize_process_id_list proc_ids); [|done].
  by apply for_each_write_frame.
Qed.

Lemma add_procs_same_dirs fname s proc_ids p w :
  same_dirs (_add_procs fname s proc_ids p w).2 w.
Proof.
  rewrite add_procs_unfold.
  destruct (_normalize_process_id_list proc_ids); [|done].
  apply for_each_write_same_dirs.
Qed.

Lemma add_procs_local fname s proc_ids p w1 w2 :
  agree (membership_file fname s p) w1 w2 →
  (_add_procs fname s proc_ids p w1).1 = (_add_procs fname s proc_ids p w2).1
  ∧ agree (membership_file fname s p)
      (_add_procs fname s proc_ids p w1).2 (_add_procs fname s proc_ids p w2).2.
Proof.
  intros Ha. rewrite !add_procs_unfold.
  destruct (_normalize_process_id_list proc_ids); [|done].
  by apply for_each_write_local.
Qed.

Lemma membership_file_inj fname s1 s2 p :
  membership_file fname s1 p = membership_file fname s2 p → s1 = s2.
Proof.
  unfold membership_file, subsystem_path. intros H%app_inv_head. congruence.
Qed.

Lemma membership_file_dirname fname s p :
  os.dirname (membership_file fname s p) = subsystem_path s p.
Proof.
  unfold os.dirname, membership_file, subsystem_path.
  rewrite app_comm_cons, app_assoc. apply removelast_last.
Qed.

Lemma membership_file_ne_dirname fname s1 s2 p :
  os.dirname (membership_file fname s1 p) ≠ membership_file fname s2 p.
Proof.
  rewrite membership_file_dirname. unfold membership_file, subsystem_path.
  intros H%(f_equal length). rewrite !length_app in H. simpl in H.
  rewrite length_app in H. simpl in H. lia.
Qed.

Lemma dict_set_fresh {V} (k : string) (v : V) (d : dict V) :
  k ∉ d.*1 → dict_set k v d = d ++ [(k, v)].
Proof.
  induction d as [|[k' v'] d IH]; simpl; [done|].
  rewrite not_elem_of_cons. intros [Hne Hd].
  rewrite decide_False by done. by rewrite IH.
Qed.

Section report.
Context (fname : string) (proc_ids : pyval) (p : list string).
Context (lookup : option (gset string)) (w0 : world).

Let run (s : string) : M unit := _add_procs fname s proc_ids p.
Let file (s : string) : path := membership_file fname s p.
Let kept (names : list string) : list string :=
  List.filter (yielded lookup false w0) names.
Let body (failed : dict string) (s : string) : M (dict string) :=
  catchM (let! _ := _add_procs fname s proc_ids p in retM failed)
    (λ e, retM (dict_set s (str_exn e) failed)).

Lemma report_body failed s w :
  body failed s w =
    (Ok match (run s w).1 with
        | Ok _ => failed
        | Raise e => dict_set s (str_exn e) failed
        end,
     (run s w).2).
Proof.
  unfold body, run, catchM, bindM, retM.
  by destruct (_add_procs fname s proc_ids p w) as [[[]|e] w'].
Qed.

Lemma report_loop names failed wc :
  NoDup names →
  same_dirs wc w0 →
  (∀ s, s ∈ names → agree (file s) wc w0) →
  (∀ s, s ∈ names → s ∉ failed.*1) →
  let r := for_names lookup false names body failed wc in
  r.1 = Ok (failed ++ omap (write_failure fname proc_ids p w0) (kept names))
  ∧ same_dirs r.2 w0
  ∧ (∀ s, s ∈ kept names → os.stat r.2 (file s) = os.stat (run s w0).2 (file s))
  ∧ (∀ k, (∀ s, s ∈ kept names → k ≠ file s) → os.stat r.2 k = os.stat wc k).
Proof.
  revert failed wc.
  induction names as [|s names IH]; intros failed wc Hnd Hdirs Hagree Hfresh.
  { simpl. rewrite app_nil_r. split_and!; try done.
    intros s Hs. by apply elem_of_nil in Hs. }
  apply NoDup_cons in Hnd as [Hs Hnd].
  cbn [for_names]. rewrite (yielded_same_dirs _ _ wc w0) by done.
  unfold kept. cbn [List.filter]. fold (kept names).
  destruct (yielded lookup false w0 s) eqn:Hy.
  - unfold bindM. rewrite report_body.
    destruct (add_procs_local fname s proc_ids p wc w0) as [Hfst Hag].
    { apply Hagree. by left. }
    fold (run s wc) (run s w0) (file s) in Hfst, Hag.
    set (w1 := (run s wc).2) in *.
    set (failed1 := match (run s wc).1 with
                    | Ok _ => failed
                    | Raise e => dict_set s (str_exn e) failed
                    end).
    assert (failed1 ++ omap (write_failure fname proc_ids p w0) (kept names)
            = failed ++ omap (write_failure fname proc_ids p w0) (s :: kept names))
      as Hrep.
    { unfold failed1. cbn [omap list_omap].
      change (write_failure fname proc_ids p w0 s)
        with (match (run s w0).1 with
              | Raise e => Some (s, str_exn e)
              | Ok _ => None
              end).
      rewrite <- Hfst.
      destruct ((run s wc).1) as [|e]; [done|].
      rewrite dict_set_fresh by (apply Hfresh; by left).
      by rewrite <- app_assoc. }
    assert (∀ k, k ≠ file s → os.stat w1 k = os.stat wc k) as Hframe1.
    { intros k Hk. by apply add_procs_frame. }
    destruct (IH failed1 w1) as (H1 & H2 & H3 & H4); [done| | | |].
    + eapply same_dirs_trans; [apply add_procs_same_dirs|done].
    + intros s' Hs'. destruct (Hagree s') as [Ha1 Ha2]; [by right|].
      assert (s' ≠ s) by (by intros ->).
      split; rewrite Hframe1; try done.
      * intros Heq. by apply membership_file_inj in Heq.
      * apply membership_file_ne_dirname.
    + intros s' Hs'. unfold failed1.
      destruct ((run s wc).1) as [|e]; [apply Hfresh; by right|].
      rewrite dict_set_fresh by (apply Hfresh; by left).
      rewrite fmap_app, not_elem_of_app. split; [apply Hfresh; by right|].
      simpl. rewrite list_elem_of_singleton. by intros ->.
    + split_and!; [by rewrite H1, Hrep|done| |].
      * intros s' [->|Hs']%elem_of_cons; [|by apply H3].
        rewrite H4; [by destruct Hag|].
        intros s' Hs' Heq%membership_file_inj. subst s'.
        apply elem_of_List_filter in Hs' as [? _]. done.
      * intros k Hk. rewrite H4.
        -- apply Hframe1, Hk. by left.
        -- intros s' Hs'. apply Hk. by right.
  - destruct (IH failed wc) as (H1 & H2 & H3 & H4); try done.
    + intros s' Hs'. apply Hagree. by right.
    + intros s' Hs'. apply Hfresh. by right.
Qed.
End report.

Lemma agree_refl f w : agree f w w.
Proof. done. Qed.

Lemma elem_of_report fname proc_ids p w (l : list string) s m :
  (s, m) ∈ omap (write_failure fname proc_ids p w) l
  ↔ s ∈ l ∧ ∃ e, (_add_procs fname s proc_ids p w).1 = Raise e ∧ m = str_exn e.
Proof.
  rewrite list_elem_of_omap. unfold write_failure. split.
  - intros (s' & Hs' & Hw).
    destruct ((_add_procs fname s' proc_ids p w).1) as [|e] eqn:He; [done|].
    injection Hw as -> <-. eauto.
  - intros (Hs & e & He & ->). exists s. by rewrite He.
Qed.

Lemma report_nil fname proc_ids p w (l : list string) :
  omap (write_failure fname proc_ids p w) l = []
  ↔ ∀ s, s ∈ l → (_add_procs fname s proc_ids p w).1 = Ok tt.
Proof.
  split.
  - intros Hnil s Hs.
    destruct ((_add_procs fname s proc_ids p w).1) as [[]|e] eqn:He; [done|].
    assert ((s, str_exn e) ∈ omap (write_failure fname proc_ids p w) l) as Hin
      by (apply elem_of_report; eauto).
    rewrite Hnil in Hin. by apply elem_of_nil in Hin.
  - intros Hok. apply elem_of_nil_inv. intros [s m] (Hs & e & He & _)%elem_of_report.
    rewrite Hok in He by done. done.
Qed.

(** C5.  Where the subsystems can be enumerated, [_subsystems_add_procs]
    attempts the write in every subsystem in scope, each with the outcome
    and the effect it has on its own in the initial world; the report
    holds, for each subsystem whose write raises, the message of its
    exception; the effect of every attempt stays, whatever the others do;
    and the call raises [CGroupAccessViolation] with the report when the
    report is not empty, and returns otherwise, that is exactly when
    every write succeeded. *)
Theorem subsystems_add_procs_reports fname proc_ids p lookup_subsystems w l :
  iter_subsystems lookup_subsystems false w = Ok l →
  let r := _subsystems_add_procs fname proc_ids p lookup_subsystems w in
  let failed := omap (write_failure fname proc_ids p w) l in
  r.1 = match failed with
        | [] => Ok tt
        | _ => Raise (new_CGroupAccessViolation FAILED_WRITE failed)
        end
  ∧ (r.1 = Ok tt ↔ ∀ s, s ∈ l → (_add_procs fname s proc_ids p w).1 = Ok tt)
  ∧ (∀ s m, (s, m) ∈ failed
            ↔ s ∈ l ∧ ∃ e, (_add_procs fname s proc_ids p w).1 = Raise e
                           ∧ m = str_exn e)
  ∧ (∀ s, s ∈ l →
          os.stat r.2 (membership_file fname s p)
          = os.stat (_add_procs fname s proc_ids p w).2 (membership_file fname s p))
  ∧ (∀ k, (∀ s, s ∈ l → k ≠ membership_file fname s p) →
          os.stat r.2 k = os.stat w k).
Proof.
  intros Hl r failed.
  unfold iter_subsystems in Hl.
  destruct (os.listdir w CGROUP_PATH) as [names|] eqn:Hnames; [|done].
  injection Hl as <-.
  destruct (report_loop fname proc_ids p (lookup_set lookup_subsystems) w names [] w)
    as (H1 & _ & H3 & H4); [|done|done|by intros; apply not_elem_of_nil|].
  { apply listdir_Ok in Hnames as ->. apply NoDup_entries. }
  rewrite app_nil_l in H1. fold failed in H1.
  assert (r = (match failed with
               | [] => Ok tt
               | _ => Raise (new_CGroupAccessViolation FAILED_WRITE failed)
               end,
               (for_names (lookup_set lookup_subsystems) false names
                  (λ failed s,
                     catchM (let! _ := _add_procs fname s proc_ids p in retM failed)
                       (λ e, retM (dict_set s (str_exn e) failed)))
                  [] w).2)) as ->.
  { unfold r, _subsystems_add_procs, for_iter_subsystems, bindM, lift.
    rewrite Hnames. destruct (for_names _ _ _ _ _ _) as [r1 w1].
    simpl in H1. rewrite H1. by destruct failed. }
  cbn [fst snd]. split_and!; [done| |apply elem_of_report|done|done].
  rewrite <- report_nil. fold failed. by destruct failed.
Qed.

Lemma subsystems_add_procs_reports_witness :
  let r := _subsystems_add_procs TASKS_FILE_NAME (PInt 1234) ["g"] Unset world_partial in
  r.1 = Raise (new_CGroupAccessViolation FAILED_WRITE
                 [("memory",
                   "[Errno 2] No such file or directory: '/sys/fs/cgroup/memory/g/tasks'")])
  ∧ os.stat r.2 (membership_file TASKS_FILE_NAME "cpu" ["g"])
    = os.stat (_add_procs TASKS_FILE_NAME "cpu" (PInt 1234) ["g"] world_partial).2
        (membership_file TASKS_FILE_NAME "cpu" ["g"]).
Proof.
  intros r.
  destruct (subsystems_add_procs_reports TASKS_FILE_NAME (PInt 1234) ["g"] Unset
              world_partial ["memory"; "cpu"])
    as (H1 & _ & _ & H4 & _); [reflexivity|].
  split; [exact H1|]. apply H4. right. by left.
Defined.

(** The write to [cpu] has taken effect although the call fails for
    [memory]. *)
Lemma subsystems_add_procs_partial :
  let r := _subsystems_add_procs TASKS_FILE_NAME (PInt 1234) ["g"] Unset world_partial in
  r.1 = Raise (new_CGroupAccessViolation FAILED_WRITE
                 [("memory",
                   "[Errno 2] No such file or directory: '/sys/fs/cgroup/memory/g/tasks'")])
  ∧ cgroup_tasks "cpu" ["g"] world_partial = Ok []
  ∧ cgroup_tasks "cpu" ["g"] r.2 = Ok ["1234"]
  ∧ written r.2 = [(membership_file TASKS_FILE_NAME "cpu" ["g"], "1234
")].
Proof. by vm_compute. Qed.

(** ** Round trip through a membership file *)

Lemma rstrip_cons c s :
  str.isspace c = false → str.rstrip (String c s) = String c (str.rstrip s).
Proof. intros Hc. simpl. rewrite Hc. by destruct (str.rstrip s). Qed.

Lemma rstrip_line s : no_space s = true → str.rstrip (s +:+ "
") = s.
Proof.
  induction s as [|c s IH]; [done|].
  intros [Hc Hs]%andb_true_iff. apply negb_true_iff in Hc.
  change (String c s +:+ "
") with (String c (s +:+ "
")).
  rewrite rstrip_cons by done. by rewrite IH.
Qed.

Lemma lstrip_no_space s : no_space s = true → str.lstrip s = s.
Proof.
  destruct s as [|c s]; [done|].
  intros [Hc _]%andb_true_iff. apply negb_true_iff in Hc. simpl. by rewrite Hc.
Qed.

Lemma strip_line s : no_space s = true → str.strip (s +:+ "
") = s.
Proof.
  intros Hs. unfold str.strip. rewrite rstrip_line by done.
  by apply lstrip_no_space.
Qed.

Lemma lines_line s rest :
  no_space s = true →
  str.lines (s +:+ "
" +:+ rest) = (s +:+ "
") :: str.lines rest.
Proof.
  induction s as [|c s IH]; [done|].
  intros [Hc Hs]%andb_true_iff. apply negb_true_iff in Hc.
  change (String c s +:+ ?x) with (String c (s +:+ x)).
  cbn [str.lines].
  destruct (Ascii.eqb_spec c str.LF) as [->|_]; [by vm_compute in Hc|].
  by rewrite IH.
Qed.

Lemma string_of_uint_no_space d : no_space (NilEmpty.string_of_uint d) = true.
Proof. unfold no_space. induction d; simpl; by rewrite ?IHd. Qed.

Lemma of_N_no_space n : no_space (str.of_N n) = true.
Proof.
  unfold str.of_N, NilZero.string_of_uint.
  destruct (N.to_uint n); [done|apply string_of_uint_no_space..].
Qed.

Lemma lines_members ids :
  str.lines (foldr (λ i text, str.of_N i +:+ "
" +:+ text) "" ids)
  = (λ i, str.of_N i +:+ "
") <$> ids.
Proof.
  induction ids as [|i ids IH]; [done|]. cbn [foldr].
  rewrite lines_line by apply of_N_no_space. by rewrite IH.
Qed.

(** Reading a membership file of the kernel yields what it lists. *)
Lemma cgroup_procs_members fname s p w ids :
  os.stat w (membership_file fname s p) = Some (Members ids) →
  _cgroup_procs fname s p w = Ok (str.of_N <$> ids).
Proof.
  intros Hs. unfold _cgroup_procs, os.readlines, os.read.
  fold (membership_file fname s p). rewrite Hs. simpl.
  rewrite lines_members, <- list_fmap_compose. f_equal.
  apply list_fmap_ext. intros _ i _. simpl. apply strip_line, of_N_no_space.
Qed.










(** ** Validation and creation of a group *)

Lemma mkdir_cases p w :
  (os.stat w p = None ∧ os.isdir w (os.dirname p) = true
   ∧ os.mkdir p w = (Ok tt, World (<[p := Dir false]> (tree w)) (written w)))
  ∨ (∃ e f, os.mkdir p w = (Raise (OSError e f), w)
            ∧ (is_Some (os.stat w p) ∨ os.isdir w (os.dirname p) = false)).
Proof.
  unfold os.mkdir, os.isdir. destruct (os.stat w p) as [n|] eqn:Hs.
  - right. eexists _, _. split; [done|]. left. by eexists.
  - destruct (os.stat w (os.dirname p)) as [[]|];
      [by left|right; eexists _, _; split; [done|by right]..].
Qed.

Lemma makedirs_rev_snoc h x exist_ok :
  os.makedirs_rev (reverse (h ++ [x])) exist_ok =
    (let! _ :=
       (λ w,
          if negb (os.exists_ w h) then
            catchM (os.makedirs_rev (reverse h) exist_ok)
              (λ e, match e with
                    | OSError EEXIST _ => retM tt
                    | _ => raiseM e
                    end) w
          else (Ok tt, w)) in
     catchM (os.mkdir (h ++ [x]))
       (λ e w,
          match e with
          | OSError _ _ =>
              if negb exist_ok || negb (os.isdir w (h ++ [x]))
              then (Raise e, w) else (Ok tt, w)
          | _ => (Raise e, w)
          end)).
Proof.
  rewrite reverse_snoc. cbn [os.makedirs_rev].
  by rewrite reverse_cons, reverse_involutive.
Qed.

(** The last step of [os.makedirs]: the directory is made, or is there. *)
Lemma mkdir_exist_ok h x w :
  os.isdir w h = true →
  (os.stat w (h ++ [x]) = None ∨ os.isdir w (h ++ [x]) = true) →
  ∃ w', catchM (os.mkdir (h ++ [x]))
          (λ e w,
             match e with
             | OSError _ _ =>
                 if negb true || negb (os.isdir w (h ++ [x]))
                 then (Raise e, w) else (Ok tt, w)
             | _ => (Raise e, w)
             end) w = (Ok tt, w')
        ∧ os.isdir w' (h ++ [x]) = true
        ∧ written w' = written w
        ∧ (∀ k, k ≠ h ++ [x] → os.stat w' k = os.stat w k)
        ∧ (os.isdir w (h ++ [x]) = true → w' = w).
Proof.
  intros Hh Hx. unfold catchM.
  assert (os.dirname (h ++ [x]) = h) as Hdn by apply removelast_last.
  destruct (mkdir_cases (h ++ [x]) w) as [(Hs & Hd & ->)|(e & f & -> & Hwhy)].
  - eexists. split; [done|]. split_and!; [|done| |].
    + unfold os.isdir. destruct h; simpl; by rewrite lookup_insert_eq.
    + intros k Hk. destruct k; [done|]. simpl. by rewrite lookup_insert_ne.
    + unfold os.isdir. by rewrite Hs.
  - assert (os.isdir w (h ++ [x]) = true) as Hd.
    { destruct Hx as [Hx|Hx]; [|done]. rewrite Hdn, Hh, Hx in Hwhy.
      by destruct Hwhy as [[]|]. }
    rewrite Hd. simpl. by exists w.
Qed.

(** [os.makedirs(name, exist_ok=True)] succeeds when the heads of the
    name that exist are directories: afterwards every head of the name is
    a directory, and nothing that existed has changed. *)
Lemma makedirs_creates name w :
  (∀ k, k `prefix_of` name → os.stat w k = None ∨ os.isdir w k = true) →
  (∀ k k', k' `prefix_of` k → k `prefix_of` name →
           os.isdir w k = true → os.isdir w k' = true) →
  ∃ w', os.makedirs name true w = (Ok tt, w')
        ∧ (∀ k, k `prefix_of` name → os.isdir w' k = true)
        ∧ (∀ k, ¬ k `prefix_of` name → os.stat w' k = os.stat w k)
        ∧ (∀ k, is_Some (os.stat w k) → os.stat w' k = os.stat w k)
        ∧ written w' = written w.
Proof.
  unfold os.makedirs. revert w.
  induction name as [|x h IH] using rev_ind; intros w Hway Hclosed.
  { exists w. split_and!; try done. by intros k ->%prefix_nil_inv. }
  rewrite makedirs_rev_snoc. unfold bindM at 1.
  assert (∃ w1, (if negb (os.exists_ w h)
                 then catchM (os.makedirs_rev (reverse h) true)
                        (λ e, match e with
                              | OSError EEXIST _ => retM tt
                              | _ => raiseM e
                              end) w
                 else (Ok tt, w)) = (Ok tt, w1)
                ∧ (∀ k, k `prefix_of` h → os.isdir w1 k = true)
                ∧ (∀ k, ¬ k `prefix_of` h → os.stat w1 k = os.stat w k)
                ∧ (∀ k, is_Some (os.stat w k) → os.stat w1 k = os.stat w k)
                ∧ written w1 = written w) as (w1 & -> & Hh & Hout & Hkeep & Hwr).
  { destruct (os.exists_ w h) eqn:He; simpl.
    - exists w. split_and!; try done. intros k Hk.
      apply (Hclosed h k); [done|by apply prefix_app_r|].
      destruct (Hway h) as [Hn|Hd]; [by apply prefix_app_r| |done].
      unfold os.exists_ in He. by rewrite Hn in He.
    - destruct (IH w) as (w1 & Hm & Hdirs & Hout & Hkeep & Hwr).
      { intros k Hk. apply Hway. by apply prefix_app_r. }
      { intros k k' Hk' Hk. apply Hclosed; [done|]. by apply prefix_app_r. }
      exists w1. unfold catchM. by rewrite Hm. }
  assert (os.stat w1 (h ++ [x]) = os.stat w (h ++ [x])) as Hsame
    by (apply Hout; apply prefix_snoc_longer).
  destruct (mkdir_exist_ok h x w1) as (w' & -> & Hx & Hwr' & Hframe & Hthere).
  { by apply Hh. }
  { unfold os.isdir. rewrite Hsame. apply Hway. done. }
  exists w'. split_and!; [done| | | |congruence].
  - intros k [->|Hk]%prefix_snoc_inv; [done|].
    assert (k ≠ h ++ [x]) by (intros ->; by apply prefix_snoc_longer in Hk).
    unfold os.isdir. rewrite Hframe by done. by apply Hh.
  - intros k Hk. rewrite Hframe by (by intros ->). apply Hout.
    intros ?. apply Hk. by apply prefix_app_r.
  - intros k Hk. destruct (decide (k = h ++ [x])) as [->|Hne].
    + rewrite Hthere; [done|]. unfold os.isdir. rewrite Hsame.
      destruct (Hway (h ++ [x])) as [Hn|Hd]; [done| |done].
      rewrite Hn in Hk. by destruct Hk.
    + rewrite Hframe by done. by apply Hkeep.
Qed.

Lemma validate_file s p create w :
  os.isfile w (subsystem_path s p) = true →
  validate_subsystem_path s p create w
  = (Raise (AttributeError "FILE_INSTEAD_OF_FOLDER"), w).
Proof. intros Hf. unfold validate_subsystem_path, bindM. by rewrite Hf. Qed.

(** A path that is neither a file nor a directory is reported missing
    when it is not to be created. *)
Lemma validate_missing s p w :
  os.isfile w (subsystem_path s p) = false →
  os.isdir w (subsystem_path s p) = false →
  validate_subsystem_path s p false w
  = (Raise (new_CGroupLookupError GROUP_NOT_EXISTS
              (path_str (subsystem_path s p))), w).
Proof.
  intros Hf Hd. unfold validate_subsystem_path, bindM. by rewrite Hf, Hd.
Qed.

(** A missing path is created, with the directories on the way to it,
    and returned, for a subsystem other than [cpuset]. *)
Lemma validate_creates s p w :
  s ≠ "cpuset" →
  os.exists_ w (subsystem_path s p) = false →
  (∀ k, k `prefix_of` subsystem_path s p →
        os.stat w k = None ∨ os.isdir w k = true) →
  (∀ k k', k' `prefix_of` k → k `prefix_of` subsystem_path s p →
           os.isdir w k = true → os.isdir w k' = true) →
  ∃ w', validate_subsystem_path s p true w = (Ok (subsystem_path s p), w')
        ∧ (∀ k, k `prefix_of` subsystem_path s p → os.isdir w' k = true)
        ∧ (∀ k, is_Some (os.stat w k) → os.stat w' k = os.stat w k)
        ∧ (∀ k, ¬ k `prefix_of` subsystem_path s p → os.stat w' k = os.stat w k)
        ∧ written w' = written w.
Proof.
  intros Hs He Hway Hclosed.
  destruct (makedirs_creates _ w Hway Hclosed) as (w' & Hm & H1 & H2 & H3 & H4).
  exists w'. split_and!; try done.
  unfold validate_subsystem_path, bindM, os.isfile, os.isdir.
  unfold os.exists_ in He. destruct (os.stat w (subsystem_path s p)); [done|].
  simpl. rewrite Hm. by rewrite bool_decide_eq_false_2.
Qed.

(** C6 fails on the code where the path is a file.  The type that
    [validate_subsystem_path] names, [FILE_INSTEAD_OF_FOLDER], is not a
    member of [CGroupLookupError.Type]: the call raises [AttributeError],
    with [create] set or not.  [delete_cgroup], on the same path, raises
    the lookup error of type [FILE_INSTEAD_OF_GROUP]. *)
Lemma validate_file_raises_attribute_error :
  os.isfile world_g (subsystem_path "cpu" ["g"; "cpu.shares"]) = true
  ∧ (validate_subsystem_path "cpu" ["g"; "cpu.shares"] false world_g).1
    = Raise (AttributeError "FILE_INSTEAD_OF_FOLDER")
  ∧ (validate_subsystem_path "cpu" ["g"; "cpu.shares"] true world_g).1
    = Raise (AttributeError "FILE_INSTEAD_OF_FOLDER")
  ∧ (delete_cgroup "cpu" ["g"; "cpu.shares"] world_g).1
    = Raise (CGroupLookupError FILE_INSTEAD_OF_GROUP
               "/sys/fs/cgroup/cpu/g/cpu.shares"
               "Requested a group, but /sys/fs/cgroup/cpu/g/cpu.shares is a file.").
Proof. by vm_compute. Qed.

(** The other two cases of C6, on [world_g]: a missing group is reported,
    or made with the directory on the way to it. *)
Lemma validate_missing_or_created :
  (validate_subsystem_path "cpu" ["h"; "i"] false world_g).1
  = Raise (CGroupLookupError GROUP_NOT_EXISTS "/sys/fs/cgroup/cpu/h/i"
             "Requested a group /sys/fs/cgroup/cpu/h/i does not exist.")
  ∧ (let r := validate_subsystem_path "cpu" ["h"; "i"] true world_g in
     r.1 = Ok ["sys"; "fs"; "cgroup"; "cpu"; "h"; "i"]
     ∧ os.isdir r.2 ["sys"; "fs"; "cgroup"; "cpu"; "h"] = true
     ∧ os.isdir r.2 ["sys"; "fs"; "cgroup"; "cpu"; "h"; "i"] = true).
Proof. by vm_compute. Qed.

(** For [cpuset], validation also fills the empty settings of the group
    from the root of the hierarchy. *)
Lemma validate_cpuset_inherits :
  let r := validate_subsystem_path "cpuset" ["a"] false world_cpuset in
  r.1 = Ok ["sys"; "fs"; "cgroup"; "cpuset"; "a"]
  ∧ os.read r.2 ["sys"; "fs"; "cgroup"; "cpuset"; "a"; "cpuset.mems"] = Ok "0
"
  ∧ os.read r.2 ["sys"; "fs"; "cgroup"; "cpuset"; "a"; "cpuset.cpus"] = Ok "0-3
".
Proof. by vm_compute. Qed.

(** * Further properties *)

(** ** The subsystems that have a path *)

(** A loop over the subsystems whose body leaves the world as it is. *)
Lemma for_names_observe {S} lookup include_aliases names
    (body : S → string → M S) (f : S → string → result S) acc w :
  (∀ acc s, s ∈ names → yielded lookup include_aliases w s = true →
            body acc s w = (f acc s, w)) →
  for_names lookup include_aliases names body acc w
  = (rfold (List.filter (yielded lookup include_aliases w) names) f acc, w).
Proof.
  revert acc. induction names as [|s names IH]; intros acc Hbody; [done|].
  cbn [for_names List.filter].
  destruct (yielded lookup include_aliases w s) eqn:Hy.
  - unfold bindM. rewrite Hbody by (done || by left). cbn [rfold bindR].
    destruct (f acc s) as [acc'|e]; [|done].
    apply IH. intros acc'' s' Hs'. apply Hbody. by right.
  - apply IH. intros acc'' s' Hs'. apply Hbody. by right.
Qed.

Lemma for_iter_subsystems_observe {S} lookup_subsystems include_aliases
    (body : S → string → M S) (f : S → string → result S) acc w l :
  iter_subsystems lookup_subsystems include_aliases w = Ok l →
  (∀ acc s, s ∈ l → body acc s w = (f acc s, w)) →
  for_iter_subsystems lookup_subsystems include_aliases body acc w
  = (rfold l f acc, w).
Proof.
  unfold iter_subsystems, for_iter_subsystems, bindM, lift.
  destruct (os.listdir w CGROUP_PATH) as [names|]; [|done].
  intros [= <-] Hbody. apply for_names_observe.
  intros acc' s Hs Hy. apply Hbody. by apply elem_of_List_filter.
Qed.

(** What [validate_subsystem_path] does when nothing is to be created,
    for a subsystem other than [cpuset]: the world stays as it is. *)
Lemma validate_lookup s p w :
  s ≠ "cpuset" →
  validate_subsystem_path s p false w =
    (if os.isfile w (subsystem_path s p) then
       Raise (AttributeError "FILE_INSTEAD_OF_FOLDER")
     else if os.isdir w (subsystem_path s p) then Ok (subsystem_path s p)
     else Raise (new_CGroupLookupError GROUP_NOT_EXISTS
                   (path_str (subsystem_path s p))),
     w).
Proof.
  intros Hs. unfold validate_subsystem_path, bindM.
  rewrite bool_decide_eq_false_2 by done.
  destruct (os.isfile w _); [done|]. by destruct (os.isdir w _).
Qed.

Lemma rfold_supported (isf isd : string → bool) (l : list string)
    (acc : gset string) :
  rfold l
    (λ supported s,
       if isf s then Raise (AttributeError "FILE_INSTEAD_OF_FOLDER")
       else if isd s then Ok (supported ∪ {[ s ]})
       else Ok supported) acc
  = if existsb isf l then Raise (AttributeError "FILE_INSTEAD_OF_FOLDER")
    else Ok (acc ∪ list_to_set (List.filter isd l)).
Proof.
  revert acc. induction l as [|s l IH]; intros acc; simpl.
  { f_equal. set_solver. }
  destruct (isf s); simpl; [done|].
  destruct (isd s); simpl; rewrite IH; destruct (existsb isf l); try done;
    f_equal; set_solver.
Qed.

(** X1.  Without creation, and where [cpuset] is not among the
    subsystems in scope, [supported_subsystems_path] changes nothing.  If
    the path is a file in a subsystem in scope it raises
    [AttributeError]: that failure of the validation is not a lookup
    error, and is not swallowed.  Otherwise it returns exactly the
    subsystems in scope in which the path is a directory. *)
Theorem supported_subsystems_path_lookup p lookup_subsystems w l :
  iter_subsystems lookup_subsystems false w = Ok l →
  "cpuset" ∉ l →
  ((∃ s, s ∈ l ∧ has_file w p s) →
   supported_subsystems_path p lookup_subsystems false w
   = (Raise (AttributeError "FILE_INSTEAD_OF_FOLDER"), w))
  ∧ ((∀ s, s ∈ l → ¬ has_file w p s) →
     ∃ supported : gset string,
       supported_subsystems_path p lookup_subsystems false w = (Ok supported, w)
       ∧ ∀ s, s ∈ supported ↔ s ∈ l ∧ has_dir w p s).
Proof.
  intros Hl Hcpuset. unfold supported_subsystems_path.
  rewrite (for_iter_subsystems_observe _ _ _
             (λ supported s,
                if os.isfile w (subsystem_path s p)
                then Raise (AttributeError "FILE_INSTEAD_OF_FOLDER")
                else if os.isdir w (subsystem_path s p)
                     then Ok (supported ∪ {[ s ]})
                     else Ok supported) _ _ l Hl).
  2:{ intros acc s Hs. unfold catchM, bindM.
      rewrite validate_lookup by (by intros ->).
      destruct (os.isfile w _); [done|]. by destruct (os.isdir w _). }
  rewrite rfold_supported. split.
  - intros (s & Hs & Hf). rewrite (proj2 (existsb_exists _ _)); [done|].
    exists s. split; [by apply list_elem_of_In|done].
  - intros Hnone. destruct (existsb _ l) eqn:He.
    { apply existsb_exists in He as (s & Hs%list_elem_of_In & Hf).
      by destruct (Hnone s Hs). }
    eexists. split; [done|]. intros s.
    rewrite elem_of_union, elem_of_list_to_set, elem_of_List_filter.
    unfold has_dir. set_solver.
Qed.

Lemma supported_subsystems_path_lookup_witness :
  ∃ supported : gset string,
    supported_subsystems_path ["g"] Unset false world_partial = (Ok supported, world_partial)
    ∧ ∀ s, s ∈ supported ↔ s ∈ ["memory"; "cpu"] ∧ has_dir world_partial ["g"] s.
Proof.
  apply (proj2 (supported_subsystems_path_lookup ["g"] Unset world_partial
                  ["memory"; "cpu"] eq_refl
                  ltac:(apply (bool_decide_unpack _); by vm_compute))).
  intros s Hs Hf.
  apply elem_of_cons in Hs as [->|Hs]; [by vm_compute in Hf|].
  apply list_elem_of_singleton in Hs as ->. by vm_compute in Hf.
Defined.

(** ** The children of a group *)

Lemma dict_get_set_eq {V} (k : string) (v : V) (d : dict V) :
  dict_get k (dict_set k v d) = Some v.
Proof.
  induction d as [|[k' v'] d IH]; simpl; [by rewrite decide_True|].
  destruct (decide (k' = k)) as [->|Hne]; simpl.
  - by rewrite decide_True.
  - by rewrite decide_False.
Qed.

Lemma dict_get_set_ne {V} (k k' : string) (v : V) (d : dict V) :
  k' ≠ k → dict_get k' (dict_set k v d) = dict_get k' d.
Proof.
  intros Hne. induction d as [|[k'' v''] d IH]; simpl.
  { by rewrite decide_False. }
  destruct (decide (k'' = k)) as [->|Hne']; simpl.
  - by rewrite !decide_False.
  - destruct (decide (k'' = k')); [done|apply IH].
Qed.

Lemma dict_set_keys {V} (k : string) (v : V) (d : dict V) :
  (dict_set k v d).*1 = if decide (k ∈ d.*1) then d.*1 else d.*1 ++ [k].
Proof.
  induction d as [|[k' v'] d IH]; csimpl; [done|].
  destruct (decide (k' = k)) as [->|Hne]; csimpl.
  - rewrite decide_True; [done|by left].
  - rewrite IH. destruct (decide (k ∈ d.*1)).
    + rewrite decide_True; [done|by right].
    + rewrite decide_False; [done|]. rewrite not_elem_of_cons. naive_solver.
Qed.

Lemma dict_set_NoDup {V} (k : string) (v : V) (d : dict V) :
  NoDup d.*1 → NoDup (dict_set k v d).*1.
Proof.
  intros Hd. rewrite dict_set_keys. case_decide; [done|].
  apply NoDup_app. split_and!; [done| |apply NoDup_singleton].
  intros x Hx ->%list_elem_of_singleton. done.
Qed.

Lemma dict_get_add_eq k s ret :
  dict_get k (dict_add k s ret) = Some (default ∅ (dict_get k ret) ∪ {[ s ]}).
Proof.
  unfold dict_add. destruct (dict_get k ret) as [S|]; rewrite dict_get_set_eq; simpl;
    f_equal; set_solver.
Qed.

Lemma dict_get_add_ne k k' s ret :
  k' ≠ k → dict_get k' (dict_add k s ret) = dict_get k' ret.
Proof.
  intros Hne. unfold dict_add.
  destruct (dict_get k ret); by rewrite dict_get_set_ne.
Qed.

Lemma dict_add_NoDup k s ret : NoDup ret.*1 → NoDup (dict_add k s ret).*1.
Proof. intros Hd. unfold dict_add. destruct (dict_get k ret); by apply dict_set_NoDup. Qed.

(** One subsystem's children added to the mapping. *)
Lemma foldl_dict_add s dirs ret :
  NoDup dirs →
  NoDup ret.*1 →
  NoDup (foldl (λ ret sub_path, dict_add sub_path s ret) ret dirs).*1
  ∧ ∀ child,
      dict_get child (foldl (λ ret sub_path, dict_add sub_path s ret) ret dirs) =
      if decide (child ∈ dirs)
      then Some (default ∅ (dict_get child ret) ∪ {[ s ]})
      else dict_get child ret.
Proof.
  intros Hdirs. revert ret.
  induction Hdirs as [|d dirs Hd Hdirs IH]; intros ret Hret; cbn [foldl].
  { split; [done|]. intros child. case_decide as Hc; [|done].
    by apply elem_of_nil in Hc. }
  destruct (IH (dict_add d s ret)) as [Hnd Hget]; [by apply dict_add_NoDup|].
  split; [done|]. intros child. rewrite Hget.
  destruct (decide (child = d)) as [->|Hne].
  - rewrite decide_False by done. rewrite decide_True by (by left).
    apply dict_get_add_eq.
  - rewrite dict_get_add_ne by done.
    destruct (decide (child ∈ dirs)).
    + rewrite decide_True; [done|by right].
    + rewrite decide_False; [done|]. rewrite not_elem_of_cons. naive_solver.
Qed.

Lemma stat_snoc w (h : path) x : os.stat w (h ++ [x]) = tree w !! (h ++ [x]).
Proof. by destruct h. Qed.

Lemma sub_cgroups_isdir s p w :
  os.isdir w (subsystem_path s p) = true →
  ∃ dirs, sub_cgroups s p w = Next dirs ∧ NoDup dirs
          ∧ ∀ child, child ∈ dirs ↔ os.isdir w (subsystem_path s (p ++ [child])) = true.
Proof.
  intros Hd. unfold sub_cgroups, cgroups_content, walk_first.
  rewrite listdir_isdir by done. eexists. split; [done|]. split.
  - apply NoDup_ListNoDup, List.NoDup_filter, NoDup_ListNoDup, NoDup_entries.
  - intros child. rewrite elem_of_List_filter, elem_of_entries.
    assert (subsystem_path s (p ++ [child]) = subsystem_path s p ++ [child]) as ->.
    { unfold subsystem_path. by rewrite app_comm_cons, !app_assoc. }
    split; [by intros [_ ?]|]. intros Hc. split; [|done].
    apply isdir_Some in Hc as [link Hc]. rewrite stat_snoc in Hc. by rewrite Hc.
Qed.

Lemma sub_cgroups_not_isdir s p w :
  os.isdir w (subsystem_path s p) = false → sub_cgroups s p w = StopIteration.
Proof.
  intros Hd. unfold sub_cgroups, cgroups_content, walk_first, os.listdir.
  unfold os.isdir in Hd. by destruct (os.stat w (subsystem_path s p)) as [[]|].
Qed.

Section children.
Context (p : list string) (w : world).

Let body (ret : dict (gset string)) (s : string) : next_item (dict (gset string)) :=
  match sub_cgroups s p w with
  | Next dirs => Next (foldl (λ ret sub_path, dict_add sub_path s ret) ret dirs)
  | StopIteration => StopIteration
  end.
Let has (child s : string) : bool := os.isdir w (subsystem_path s (p ++ [child])).

Lemma nfold_children l ret :
  (∀ s, s ∈ l → os.isdir w (subsystem_path s p) = true) →
  NoDup ret.*1 →
  ∃ ret', nfold l body ret = Next ret' ∧ NoDup ret'.*1
          ∧ ∀ child,
              dict_get child ret' =
              if decide (List.filter (has child) l = [])
              then dict_get child ret
              else Some (default ∅ (dict_get child ret)
                           ∪ list_to_set (List.filter (has child) l)).
Proof.
  revert ret. induction l as [|s l IH]; intros ret Hdirs Hret.
  { exists ret. split_and!; try done. }
  destruct (sub_cgroups_isdir s p w) as (dirs & Hsub & Hnd & Hin).
  { apply Hdirs. by left. }
  cbn [nfold]. unfold body at 1. rewrite Hsub.
  destruct (foldl_dict_add s dirs ret Hnd Hret) as [Hret1 Hget1].
  destruct (IH (foldl (λ ret sub_path, dict_add sub_path s ret) ret dirs))
    as (ret' & -> & Hnd' & Hget'); [|done|].
  { intros s' Hs'. apply Hdirs. by right. }
  exists ret'. split_and!; try done. intros child.
  rewrite Hget', Hget1. cbn [List.filter].
  change (has child s) with (os.isdir w (subsystem_path s (p ++ [child]))).
  pose proof (Hin child) as Hic.
  destruct (decide (child ∈ dirs)) as [Hcd|Hcd].
  - rewrite (proj1 Hic Hcd).
    destruct (decide (List.filter (has child) l = [])) as [Hl|Hl].
    + rewrite Hl. rewrite (decide_False (P := [s] = [])) by done.
      f_equal. set_solver.
    + rewrite (decide_False (P := s :: _ = [])) by done. simpl.
      f_equal. set_solver.
  - destruct (os.isdir w (subsystem_path s (p ++ [child]))); [|done].
    destruct Hcd. by apply Hic.
Qed.

Lemma nfold_children_stop l ret s :
  s ∈ l → os.isdir w (subsystem_path s p) = false →
  nfold l body ret = StopIteration.
Proof.
  revert ret. induction l as [|s' l IH]; intros ret Hs Hd.
  { by apply elem_of_nil in Hs. }
  cbn [nfold]. unfold body at 1.
  destruct (sub_cgroups s' p w) as [dirs|] eqn:Hsub; [|done].
  apply elem_of_cons in Hs as [->|Hs]; [|by apply IH].
  by rewrite sub_cgroups_not_isdir in Hsub.
Qed.
End children.

(** X2.  [subsystems_sub_cgroups] maps each name that is a directory
    under the path in some subsystem in scope to the set of exactly those
    subsystems, when the path is a directory in every subsystem in scope.
    When it is not a directory in one of them, the walk of that subsystem
    yields nothing and the call ends with [StopIteration]. *)
Theorem subsystems_sub_cgroups_children p lookup_subsystems w l :
  iter_subsystems lookup_subsystems false w = Ok l →
  ((∃ s, s ∈ l ∧ ¬ has_dir w p s) →
   subsystems_sub_cgroups p lookup_subsystems w = Ok StopIteration)
  ∧ ((∀ s, s ∈ l → has_dir w p s) →
     ∃ ret, subsystems_sub_cgroups p lookup_subsystems w = Ok (Next ret)
            ∧ NoDup ret.*1
            ∧ ∀ child (S : gset string),
                dict_get child ret = Some S
                ↔ (∃ s, s ∈ S)
                  ∧ ∀ s, s ∈ S ↔ s ∈ l ∧ has_dir w (p ++ [child]) s).
Proof.
  intros Hl. unfold subsystems_sub_cgroups. rewrite Hl. cbn [bindR]. split.
  - intros (s & Hs & Hd). f_equal. eapply nfold_children_stop; [done|].
    unfold has_dir in Hd. by destruct (os.isdir w (subsystem_path s p)).
  - intros Hall.
    destruct (nfold_children p w l []) as (ret & -> & Hnd & Hget);
      [done|constructor|].
    exists ret. split_and!; try done. intros child S. rewrite Hget. simpl.
    assert (∀ s, s ∈ (list_to_set (List.filter
                        (λ s, os.isdir w (subsystem_path s (p ++ [child]))) l)
                      : gset string)
                 ↔ s ∈ l ∧ has_dir w (p ++ [child]) s) as Hset.
    { intros s. by rewrite elem_of_list_to_set, elem_of_List_filter. }
    case_decide as He.
    + split; [done|]. intros [[s Hs] HS]. apply HS, Hset in Hs.
      rewrite He in Hs. set_solver.
    + split.
      * intros [= <-]. split.
        -- destruct (List.filter _ l) as [|s r] eqn:Hf; [done|]. exists s. set_solver.
        -- intros s. rewrite <- Hset. set_solver.
      * intros [_ HS]. f_equal. apply set_eq. intros s.
        rewrite HS, <- Hset. set_solver.
Qed.

Lemma subsystems_sub_cgroups_children_witness :
  ∃ ret, subsystems_sub_cgroups [] Unset world_g = Ok (Next ret)
         ∧ NoDup ret.*1
         ∧ ∀ child (S : gset string),
             dict_get child ret = Some S
             ↔ (∃ s, s ∈ S)
               ∧ ∀ s, s ∈ S ↔ s ∈ ["memory"; "cpu"] ∧ has_dir world_g ([] ++ [child]) s.
Proof.
  apply (proj2 (subsystems_sub_cgroups_children [] Unset world_g
                  ["memory"; "cpu"] eq_refl)).
  intros s Hs.
  apply elem_of_cons in Hs as [->|Hs]; [reflexivity|].
  apply list_elem_of_singleton in Hs as ->. reflexivity.
Defined.

(** ** Deletion in one subsystem and in all *)

Lemma subsystem_path_snoc s p : ∃ h x, subsystem_path s p = h ++ [x].
Proof.
  unfold subsystem_path. destruct p as [|y p _] using rev_ind.
  - by exists CGROUP_PATH, s.
  - exists (CGROUP_PATH ++ s :: p), y. by rewrite app_comm_cons, app_assoc.
Qed.

(** The outcome of [delete_cgroup] is decided by what the path leads to
    and by whether it has entries. *)
Lemma delete_cgroup_fst s p w :
  (delete_cgroup s p w).1 =
    match os.stat w (subsystem_path s p) with
    | Some (File _) | Some (Members _) =>
        Raise (new_CGroupLookupError FILE_INSTEAD_OF_GROUP
                 (path_str (subsystem_path s p)))
    | Some (Dir true) =>
        Raise (new_CGroupLookupError LINK (path_str (subsystem_path s p)))
    | None =>
        Raise (new_CGroupLookupError NOT_EXISTS (path_str (subsystem_path s p)))
    | Some (Dir false) =>
        match os.entries w (subsystem_path s p) with
        | [] => Ok tt
        | _ => Raise (OSError ENOTEMPTY (Some (subsystem_path s p)))
        end
    end.
Proof.
  unfold delete_cgroup, os.isfile, os.islink, os.exists_.
  destruct (subsystem_path_snoc s p) as (h & x & Ht). rewrite Ht.
  rewrite stat_snoc.
  destruct (tree w !! (h ++ [x])) as [[[]|data|ids]|] eqn:Hs; try done.
  cbn [negb]. rewrite removedirs_snoc.
  unfold os.rmdir. rewrite Hs.
  destruct (h ++ [x]) as [|y t] eqn:Hhx; [by destruct h|]. rewrite <- Hhx.
  destruct (os.entries w (h ++ [x])); [|done].
  by destruct (prune_rev_ok h (World (delete (h ++ [x]) (tree w)) (written w)))
    as [w' ->].
Qed.

(** What a deletion changes: nothing when it fails; when it succeeds,
    heads of the group's path, which are gone, the path among them. *)
Lemma delete_cgroup_effect s p w :
  (∀ e, (delete_cgroup s p w).1 = Raise e → (delete_cgroup s p w).2 = w)
  ∧ ((delete_cgroup s p w).1 = Ok tt →
     os.stat (delete_cgroup s p w).2 (subsystem_path s p) = None)
  ∧ (∀ k, os.stat (delete_cgroup s p w).2 k = os.stat w k
          ∨ (os.stat (delete_cgroup s p w).2 k = None
             ∧ k `prefix_of` subsystem_path s p))
  ∧ written (delete_cgroup s p w).2 = written w.
Proof.
  unfold delete_cgroup.
  destruct (os.isfile w _); [by split_and!; try done; left|].
  destruct (os.islink w _); [by split_and!; try done; left|].
  destruct (os.exists_ w _); cbn [negb]; [|by split_and!; try done; left].
  destruct (subsystem_path_snoc s p) as (h & x & ->).
  rewrite removedirs_snoc.
  destruct (os.rmdir (h ++ [x]) w) as [[[]|e] w1] eqn:E.
  - apply rmdir_Ok in E as (_ & _ & _ & ->).
    destruct (prune_rev_ok h (World (delete (h ++ [x]) (tree w)) (written w)))
      as [w' Hp].
    rewrite Hp. cbn [fst snd].
    destruct (prune_rev_frame _ _ _ Hp) as [Hw Hframe].
    assert (∀ k, os.stat w' k = os.stat w k
                 ∨ (os.stat w' k = None ∧ k `prefix_of` h ++ [x])) as Hk.
    { intros k. destruct k as [|y k]; [by left|]. cbn [os.stat].
      destruct (Hframe (y :: k)) as [->|(-> & Hpre & _)].
      - simpl. destruct (decide (y :: k = h ++ [x])) as [->|Hne].
        + right. by rewrite lookup_delete_eq.
        + left. by rewrite lookup_delete_ne.
      - right. split; [done|]. by apply prefix_app_r. }
    split_and!; [done| |done|done].
    intros _. rewrite stat_snoc.
    destruct (Hframe (h ++ [x])) as [->|[-> _]]; [|done].
    simpl. apply lookup_delete_eq.
  - apply rmdir_Raise in E as (-> & _). by split_and!; try done; left.
Qed.

(** X3.  [delete_cgroup] succeeds exactly on a directory that is not a
    link and has no entry; the group is gone afterwards.  A deletion that
    fails leaves the tree as it was. *)
Theorem delete_cgroup_succeeds_iff s p w :
  ((delete_cgroup s p w).1 = Ok tt
   ↔ tree w !! subsystem_path s p = Some (Dir false)
     ∧ ∀ n, tree w !! (subsystem_path s p ++ [n]) = None)
  ∧ ((delete_cgroup s p w).1 = Ok tt →
     tree (delete_cgroup s p w).2 !! subsystem_path s p = None)
  ∧ (∀ e, (delete_cgroup s p w).1 = Raise e → (delete_cgroup s p w).2 = w).
Proof.
  destruct (delete_cgroup_effect s p w) as (Hfail & Hgone & _ & _).
  split_and!; [|done|done].
  rewrite delete_cgroup_fst, <- entries_nil.
  change (os.stat w (subsystem_path s p)) with (tree w !! subsystem_path s p).
  destruct (tree w !! subsystem_path s p) as [[[]|data|ids]|];
    try (split; [done|by intros [? _]]).
  destruct (os.entries w (subsystem_path s p)); [done|].
  split; [done|by intros [_ ?]].
Qed.

Lemma under_subsystem_path s p : under s (subsystem_path s p).
Proof. exists p. unfold subsystem_path. by rewrite <- app_assoc. Qed.

Lemma under_prefix s s' p k :
  under s k → k `prefix_of` subsystem_path s' p → s = s'.
Proof.
  intros Hu Hk. assert (under s (subsystem_path s' p)) as [q Hq].
  { unfold under in *. by etrans. }
  unfold subsystem_path in Hq. rewrite <- app_assoc in Hq.
  apply app_inv_head in Hq. by injection Hq.
Qed.

Lemma delete_cgroup_local s p w1 w2 :
  (∀ k, under s k → os.stat w1 k = os.stat w2 k) →
  (delete_cgroup s p w1).1 = (delete_cgroup s p w2).1.
Proof.
  intros Hs. rewrite !delete_cgroup_fst.
  rewrite (Hs _ (under_subsystem_path s p)).
  destruct (os.stat w2 (subsystem_path s p)) as [[[]|data|ids]|]; try done.
  assert (os.entries w1 (subsystem_path s p) = []
          ↔ os.entries w2 (subsystem_path s p) = []) as He.
  { rewrite !entries_nil. apply forall_proper. intros n.
    rewrite <- !stat_snoc, Hs; [done|].
    unfold under. etrans; [apply under_subsystem_path|]. by apply prefix_app_r. }
  destruct (os.entries w1 _), (os.entries w2 _); try done.
  - by destruct He as [He _]; specialize (He eq_refl).
  - by destruct He as [_ He]; specialize (He eq_refl).
Qed.

Lemma yielded_local lookup include_aliases s w1 w2 :
  (∀ k, under s k → os.stat w1 k = os.stat w2 k) →
  yielded lookup include_aliases w1 s = yielded lookup include_aliases w2 s.
Proof.
  intros Hs. unfold yielded, os.isdir, os.islink.
  by rewrite (Hs _ (under_subsystem_path s [])).
Qed.

Section delete_loop.
Context (p : list string) (lookup : option (gset string)).

Let body : dict string → string → M (dict string) :=
  λ failed s,
    catchM (let! _ := delete_cgroup s p in retM failed)
      (λ e, retM (dict_set s (str_exn e) failed)).

Lemma delete_body failed s w :
  body failed s w =
    (Ok (match delete_failure p w s with
         | Some msg => dict_set s msg failed
         | None => failed
         end), (delete_cgroup s p w).2).
Proof.
  unfold body, delete_failure, catchM, bindM, retM.
  by destruct (delete_cgroup s p w) as [[[]|e] w1].
Qed.

Lemma for_names_delete names w0 :
  NoDup names →
  ∀ failed w,
    (∀ s k, s ∈ names → under s k → os.stat w k = os.stat w0 k) →
    (∀ s, s ∈ names → dict_get s failed = None) →
    ∃ failed' w',
      for_names lookup false names body failed w = (Ok failed', w')
      ∧ written w' = written w
      ∧ (∀ k, os.stat w' k = os.stat w k
              ∨ (os.stat w' k = None
                 ∧ ∃ s, s ∈ names ∧ yielded lookup false w0 s = true
                        ∧ k `prefix_of` subsystem_path s p))
      ∧ (∀ s, dict_get s failed' =
              if decide (s ∈ names ∧ yielded lookup false w0 s = true)
              then delete_failure p w0 s else dict_get s failed)
      ∧ (∀ s, s ∈ names → yielded lookup false w0 s = true →
              delete_failure p w0 s = None →
              os.stat w' (subsystem_path s p) = None).
Proof.
  induction 1 as [|s names Hs Hnd IH]; intros failed w Hagree Hfresh.
  - exists failed, w. split_and!; try done.
    + by left.
    + by intros s []%elem_of_nil.
  - cbn [for_names].
    assert (∀ k, under s k → os.stat w k = os.stat w0 k) as Hws.
    { intros k. apply Hagree. by left. }
    rewrite (yielded_local _ _ _ _ _ Hws).
    assert (delete_failure p w s = delete_failure p w0 s) as Hfail.
    { unfold delete_failure. by rewrite (delete_cgroup_local _ _ _ _ Hws). }
    destruct (yielded lookup false w0 s) eqn:Hy.
    + unfold bindM at 1. rewrite delete_body, Hfail.
      destruct (delete_cgroup_effect s p w) as (_ & Hgone & Hk & Hwr).
      assert ((delete_cgroup s p w).1 = Ok tt ↔ delete_failure p w0 s = None)
        as Hok.
      { rewrite <- Hfail. unfold delete_failure.
        by destruct (delete_cgroup s p w).1 as [[]|]. }
      set (w1 := (delete_cgroup s p w).2) in *.
      set (failed1 := match delete_failure p w0 s with
                      | Some msg => dict_set s msg failed
                      | None => failed
                      end).
      destruct (IH failed1 w1) as (failed' & w' & -> & Hwr' & Hk' & Hd & Hg).
      { intros s' k Hs' Hu. rewrite <- (Hagree s' k) by (by right || done).
        destruct (Hk k) as [->|[_ Hpre]]; [done|].
        pose proof (under_prefix _ _ _ _ Hu Hpre). by subst. }
      { intros s' Hs'. unfold failed1.
        destruct (delete_failure p w0 s).
        - rewrite dict_get_set_ne by (by intros ->).
          apply Hfresh. by right.
        - apply Hfresh. by right. }
      exists failed', w'. split_and!; [done|congruence| | |].
      * intros k. destruct (Hk' k) as [->|[-> (s' & ? & ? & ?)]].
        -- destruct (Hk k) as [->|[-> ?]]; [by left|].
           right. split; [done|]. exists s. split_and!; [by left|done|done].
        -- right. split; [done|]. exists s'. split_and!; [by right|done|done].
      * intros s'. rewrite Hd.
        destruct (decide (s' = s)) as [->|Hne].
        -- case_decide as H1; [by destruct H1|].
           case_decide as H2; [|destruct H2; split; [by left|done]].
           unfold failed1.
           destruct (delete_failure p w0 s) eqn:Hf; [apply dict_get_set_eq|].
           apply Hfresh. by left.
        -- assert (dict_get s' failed1 = dict_get s' failed) as ->.
           { unfold failed1. destruct (delete_failure p w0 s); [|done].
             by apply dict_get_set_ne. }
           apply decide_ext. rewrite elem_of_cons. naive_solver.
      * intros s' [->|Hs']%elem_of_cons Hy' Hnone.
        -- destruct (Hk' (subsystem_path s p)) as [->|[-> _]]; [|done].
           by apply Hgone, Hok.
        -- by apply Hg.
    + destruct (IH failed w) as (failed' & w' & -> & Hwr' & Hk' & Hd & Hg).
      { intros s' k Hs'. apply Hagree. by right. }
      { intros s' Hs'. apply Hfresh. by right. }
      exists failed', w'. split_and!; [done|done| | |].
      * intros k. destruct (Hk' k) as [->|[-> (s' & ? & ? & ?)]]; [by left|].
        right. split; [done|]. exists s'. split_and!; [by right|done|done].
      * intros s'. rewrite Hd.
        apply decide_ext. rewrite elem_of_cons. split; [naive_solver|].
        intros [[->|?] ?]; [congruence|done].
      * intros s' [->|Hs']%elem_of_cons Hy' Hnone; [congruence|].
        by apply Hg.
Qed.

End delete_loop.

(** X4.  [subsystems_delete_cgroup] never raises once the subsystems can
    be listed.  Its report holds, for each subsystem listed, the message
    of the failure that [delete_cgroup] would meet in that subsystem on
    the tree as it was before the call: the deletions do not influence
    each other.  Where none is reported the group is gone, and all that
    the call changes is to remove heads of the group's paths. *)
Theorem subsystems_delete_cgroup_reports p lookup_subsystems w l :
  iter_subsystems lookup_subsystems false w = Ok l →
  ∃ failed w',
    subsystems_delete_cgroup p lookup_subsystems w = (Ok failed, w')
    ∧ (∀ s, dict_get s failed =
            if decide (s ∈ l) then delete_failure p w s else None)
    ∧ (∀ s, s ∈ l → dict_get s failed = None →
            tree w' !! subsystem_path s p = None)
    ∧ (∀ k, os.stat w' k = os.stat w k
            ∨ (os.stat w' k = None
               ∧ ∃ s, s ∈ l ∧ k `prefix_of` subsystem_path s p))
    ∧ written w' = written w.
Proof.
  unfold iter_subsystems, subsystems_delete_cgroup, for_iter_subsystems.
  unfold bindM at 1, lift.
  destruct (os.listdir w CGROUP_PATH) as [names|e] eqn:Hl; [|done].
  intros [= <-]. apply listdir_Ok in Hl as ->.
  destruct (for_names_delete p (lookup_set lookup_subsystems)
              (os.entries w CGROUP_PATH) w (NoDup_entries _ _) [] w)
    as (failed & w' & Hrun & Hwr & Hk & Hd & Hg); [done|done|].
  exists failed, w'.
  assert (∀ s, s ∈ List.filter
                     (yielded (lookup_set lookup_subsystems) false w)
                     (os.entries w CGROUP_PATH)
               ↔ s ∈ os.entries w CGROUP_PATH
                 ∧ yielded (lookup_set lookup_subsystems) false w s = true)
    as Hin.
  { intros s. rewrite elem_of_List_filter. tauto. }
  split_and!; [done| | | |done].
  - intros s. rewrite Hd. apply decide_ext. by rewrite Hin.
  - intros s [Hs Hy]%Hin Hnone. rewrite <- stat_subsystem_path.
    apply Hg; [done|done|].
    rewrite Hd, decide_True in Hnone by done. done.
  - intros k. destruct (Hk k) as [->|[-> (s & ? & ? & ?)]]; [by left|].
    right. split; [done|]. exists s. by rewrite Hin.
Qed.

Lemma subsystems_delete_cgroup_reports_witness :
  ∃ failed w',
    subsystems_delete_cgroup ["a"; "b"] Unset world_nested = (Ok failed, w')
    ∧ (∀ s, dict_get s failed =
            if decide (s ∈ ["cpu"])
            then delete_failure ["a"; "b"] world_nested s else None)
    ∧ (∀ s, s ∈ ["cpu"] → dict_get s failed = None →
            tree w' !! subsystem_path s ["a"; "b"] = None)
    ∧ (∀ k, os.stat w' k = os.stat world_nested k
            ∨ (os.stat w' k = None
               ∧ ∃ s, s ∈ ["cpu"] ∧ k `prefix_of` subsystem_path s ["a"; "b"]))
    ∧ written w' = written world_nested.
Proof.
  apply (subsystems_delete_cgroup_reports ["a"; "b"] Unset world_nested ["cpu"]).
  by vm_compute.
Defined.

(** ** The content of a group *)

(** X5.  The content of a group that is a directory is its entries, the
    directories (also those reached through a link) apart from the rest;
    [sub_cgroups] and [cgroup_files] are the two parts.  Where the path is
    not a directory, no error of the operating system is raised: the
    three functions stop with [StopIteration]. *)
Theorem cgroups_content_parts s p w :
  (os.isdir w (subsystem_path s p) = true →
   ∃ dirs files,
     cgroups_content s p w = Next (dirs, files)
     ∧ sub_cgroups s p w = Next dirs
     ∧ cgroup_files s p w = Next files
     ∧ dirs ++ files ≡ₚ os.entries w (subsystem_path s p)
     ∧ (∀ n, n ∈ dirs → os.isdir w (subsystem_path s p ++ [n]) = true)
     ∧ (∀ n, n ∈ files → os.isdir w (subsystem_path s p ++ [n]) = false))
  ∧ (os.isdir w (subsystem_path s p) = false →
     cgroups_content s p w = StopIteration
     ∧ sub_cgroups s p w = StopIteration
     ∧ cgroup_files s p w = StopIteration).
Proof.
  unfold sub_cgroups, cgroup_files, cgroups_content, walk_first. split.
  - intros Hd. rewrite listdir_isdir by done. eexists _, _.
    split_and!; try done.
    + generalize (os.entries w (subsystem_path s p)). intros l.
      induction l as [|n l IH]; [done|]. cbn [List.filter].
      destruct (os.isdir w (subsystem_path s p ++ [n])); cbn [negb].
      * by constructor.
      * rewrite <- Permutation_middle. by constructor.
    + by intros n [_ ?]%elem_of_List_filter.
    + by intros n [_ ?%negb_true_iff]%elem_of_List_filter.
  - intros Hd. unfold os.listdir. unfold os.isdir in Hd.
    by destruct (os.stat w (subsystem_path s p)) as [[]|].
Qed.

(** ** Ids that cannot be written, and none to write *)

Lemma rfold_fail_all (l : list string) (m : string) (failed : dict string) :
  NoDup l → (∀ s, s ∈ l → s ∉ failed.*1) →
  rfold l (λ failed s, Ok (dict_set s m failed)) failed
  = Ok (failed ++ ((λ s, (s, m)) <$> l)).
Proof.
  revert failed. induction l as [|s l IH]; intros failed Hnd Hfresh.
  { by rewrite app_nil_r. }
  apply NoDup_cons in Hnd as [Hs Hnd]. cbn [rfold bindR].
  rewrite dict_set_fresh by (apply Hfresh; by left).
  rewrite IH; [by rewrite <- app_assoc|done|].
  intros s' Hs'. rewrite fmap_app, elem_of_app. intros [?|Hin].
  - by apply (Hfresh s'); [right|].
  - apply list_elem_of_singleton in Hin. by subst.
Qed.

(** X6.  Ids that cannot be normalised are found in every subsystem
    before anything is written: the call raises the access violation
    whose report holds the same message for each subsystem looked up,
    and no file is touched.  With no subsystem to look up, the ids are
    not looked at, and the call returns. *)
Theorem subsystems_add_procs_invalid_ids fname proc_ids p lookup_subsystems
    w l e :
  iter_subsystems lookup_subsystems false w = Ok l →
  _normalize_process_id_list proc_ids = Raise e →
  _subsystems_add_procs fname proc_ids p lookup_subsystems w
  = (match l with
     | [] => Ok tt
     | _ => Raise (new_CGroupAccessViolation FAILED_WRITE
                     ((λ s, (s, str_exn e)) <$> l))
     end, w).
Proof.
  intros Hl He. unfold _subsystems_add_procs. unfold bindM at 1.
  rewrite (for_iter_subsystems_observe _ _ _
             (λ failed s, Ok (dict_set s (str_exn e) failed)) _ _ l Hl).
  - rewrite rfold_fail_all;
      [|by eapply NoDup_iter_subsystems|by intros ? _ ?%elem_of_nil].
    by destruct l.
  - intros failed s _. unfold catchM. unfold bindM at 1.
    by rewrite add_procs_unfold, He.
Qed.

Lemma subsystems_add_procs_invalid_ids_witness :
  _subsystems_add_procs TASKS_FILE_NAME (PSeq [PInt 1; PNone]) ["g"] Unset
    world_partial
  = (Raise (new_CGroupAccessViolation FAILED_WRITE
              ((λ s, (s, str_exn (ValueError "Process/task ID must be an integer or a string, but got <class 'NoneType'> instead.")))
                 <$> ["memory"; "cpu"])),
     world_partial).
Proof.
  by apply (subsystems_add_procs_invalid_ids TASKS_FILE_NAME
              (PSeq [PInt 1; PNone]) ["g"] Unset world_partial
              ["memory"; "cpu"]).
Defined.

(** X7.  With an empty sequence of ids nothing is opened: the call
    returns and touches no file, also where the group, or its membership
    file, does not exist in a subsystem looked up. *)
Theorem subsystems_add_procs_no_ids fname p lookup_subsystems w l :
  iter_subsystems lookup_subsystems false w = Ok l →
  _subsystems_add_procs fname (PSeq []) p lookup_subsystems w = (Ok tt, w).
Proof.
  intros Hl. unfold _subsystems_add_procs. unfold bindM at 1.
  rewrite (for_iter_subsystems_observe _ _ _ (λ failed s, Ok failed) _ _ l Hl).
  - assert (∀ failed : dict string,
              rfold l (λ failed s, Ok failed) failed = Ok failed) as ->; [|done].
    clear Hl. induction l as [|s l' IH]; [done|]. intros failed. apply IH.
  - intros failed s _. unfold catchM. unfold bindM at 1.
    by rewrite add_procs_unfold.
Qed.

Lemma subsystems_add_procs_no_ids_witness :
  os.exists_ world_partial (membership_file TASKS_FILE_NAME "memory" ["g"])
  = false
  ∧ _subsystems_add_procs TASKS_FILE_NAME (PSeq []) ["g"] Unset world_partial
    = (Ok tt, world_partial).
Proof.
  split; [done|].
  by apply (subsystems_add_procs_no_ids TASKS_FILE_NAME ["g"] Unset
              world_partial ["memory"; "cpu"]).
Defined.

(** ** Stripping *)

Lemma lstrip_chars_head chars s : head_in chars (str.lstrip_chars chars s) = false.
Proof.
  induction s as [|c s IH]; [done|]. simpl.
  destruct (str.contains chars c) eqn:Hc; [done|]. simpl. by rewrite Hc.
Qed.

Lemma lstrip_idem s : str.lstrip (str.lstrip s) = str.lstrip s.
Proof.
  induction s as [|c s IH]; [done|]. simpl.
  destruct (str.isspace c) eqn:Hc; [done|]. simpl. by rewrite Hc.
Qed.

Lemma rstrip_idem s : str.rstrip (str.rstrip s) = str.rstrip s.
Proof.
  induction s as [|c s IH]; [done|]. cbn [str.rstrip].
  destruct (str.rstrip s) as [|d r] eqn:Hr.
  - destruct (str.isspace c) eqn:Hc; [done|]. simpl. by rewrite Hc.
  - cbn [str.rstrip]. cbn [str.rstrip] in IH. by rewrite IH.
Qed.

Lemma rstrip_lstrip s : str.rstrip (str.lstrip s) = str.lstrip (str.rstrip s).
Proof.
  induction s as [|c s IH]; [done|]. cbn [str.lstrip str.rstrip].
  destruct (str.isspace c) eqn:Hc.
  - rewrite IH. destruct (str.rstrip s) as [|d r]; [done|].
    cbn [str.lstrip]. by rewrite Hc.
  - cbn [str.rstrip].
    destruct (str.rstrip s) as [|d r]; rewrite ?Hc; cbn [str.lstrip];
      by rewrite Hc.
Qed.

Lemma strip_idem s : str.strip (str.strip s) = str.strip s.
Proof.
  unfold str.strip. by rewrite rstrip_lstrip, lstrip_idem, rstrip_idem.
Qed.

Lemma strip_lstrip s : str.lstrip (str.strip s) = str.strip s.
Proof. apply lstrip_idem. Qed.

Lemma strip_rstrip s : str.rstrip (str.strip s) = str.strip s.
Proof. unfold str.strip. by rewrite rstrip_lstrip, rstrip_idem. Qed.

(** ** The ids of a group *)

(** X8.  Every id that [_cgroup_procs] yields is stripped: it has white
    space at neither end.  One id is yielded for each line of the file. *)
Theorem cgroup_procs_stripped fname s p w ids :
  _cgroup_procs fname s p w = Ok ids →
  (∀ i, i ∈ ids → str.lstrip i = i ∧ str.rstrip i = i)
  ∧ ∃ text, os.read w (subsystem_path s (p ++ [fname])) = Ok text
            ∧ length ids = length (str.lines text).
Proof.
  unfold _cgroup_procs, os.readlines.
  destruct (os.read w _) as [text|e]; [|done]. cbn [bindR]. intros [= <-].
  split.
  - intros i (line & -> & _)%list_elem_of_fmap.
    split; [apply strip_lstrip|apply strip_rstrip].
  - exists text. by rewrite length_fmap.
Qed.

Lemma cgroup_procs_stripped_witness :
  (∀ i, i ∈ ["7"; "8"] → str.lstrip i = i ∧ str.rstrip i = i)
  ∧ ∃ text, os.read world_g (subsystem_path "memory" (["g"] ++ [TASKS_FILE_NAME]))
            = Ok text
            ∧ length ["7"; "8"] = length (str.lines text).
Proof.
  apply (cgroup_procs_stripped TASKS_FILE_NAME "memory" ["g"] world_g).
  by vm_compute.
Defined.

(** ** The cgroups of a task *)

Section task_lines.
Implicit Types (res : dict (gset string)) (l : string).

Let body res l : result (dict (gset string)) :=
  let? (_, subsystem, p) := unpack3 (str.split ":" (str.strip l)) in
  let subsystem := str.lstrip_chars "name=" subsystem in
  let p := str.lstrip_chars "/" p in
  match dict_get p res with
  | Some subsystems => Ok (dict_set p (subsystems ∪ {[ subsystem ]}) res)
  | None => Ok (dict_set p {[ subsystem ]} res)
  end.

Let fields l : nat := length (str.split ":" (str.strip l)).

Let well_keyed res : Prop :=
  NoDup res.*1
  ∧ ∀ path S, dict_get path res = Some S →
      head_in "/" path = false
      ∧ (∃ s, s ∈ S)
      ∧ ∀ s, s ∈ S → head_in "name=" s = false.

Lemma unpack3_Ok parts :
  length parts = 3 ↔ ∃ a b c, unpack3 parts = Ok (a, b, c).
Proof.
  destruct parts as [|a [|b [|c [|d parts]]]]; unfold unpack3;
    try (split; [done|]; intros (? & ? & ? & H);
         by destruct (Nat.ltb _ _)).
  split; [|done]. intros _. by eexists _, _, _.
Qed.

Lemma unpack3_Raise parts :
  length parts ≠ 3 → ∃ msg, unpack3 parts = Raise (ValueError msg).
Proof.
  intros Hn. destruct parts as [|a [|b [|c [|d parts]]]]; try done;
    unfold unpack3; destruct (Nat.ltb _ _); by eexists.
Qed.

Lemma task_line_Ok res l :
  fields l = 3 →
  ∃ a b c, unpack3 (str.split ":" (str.strip l)) = Ok (a, b, c)
           ∧ body res l
             = Ok (dict_add (str.lstrip_chars "/" c)
                     (str.lstrip_chars "name=" b) res).
Proof.
  intros (a & b & c & Hu)%unpack3_Ok. exists a, b, c. split; [done|].
  unfold body, dict_add. rewrite Hu. cbn [bindR].
  by destruct (dict_get _ res).
Qed.

Lemma task_line_Raise res l :
  fields l ≠ 3 → ∃ msg, body res l = Raise (ValueError msg).
Proof.
  intros (msg & Hu)%unpack3_Raise. exists msg. unfold body. by rewrite Hu.
Qed.

Lemma task_line_keyed res l res' :
  well_keyed res → body res l = Ok res' → well_keyed res'.
Proof.
  intros [Hnd Hres] Hb.
  destruct (decide (fields l = 3)) as [Hf|Hf];
    [|destruct (task_line_Raise res l Hf) as [msg Hm]; congruence].
  destruct (task_line_Ok res l Hf) as (a & b & c & _ & Hrun).
  rewrite Hrun in Hb. injection Hb as <-. split.
  - by apply dict_add_NoDup.
  - intros path S.
    destruct (decide (path = str.lstrip_chars "/" c)) as [->|Hne].
    + rewrite dict_get_add_eq. intros [= <-]. split_and!.
      * apply lstrip_chars_head.
      * exists (str.lstrip_chars "name=" b). set_solver.
      * intros s [Hs| ->%elem_of_singleton]%elem_of_union;
          [|apply lstrip_chars_head].
        destruct (dict_get _ res) as [S0|] eqn:Hg; [|set_solver].
        by eapply Hres.
    + rewrite dict_get_add_ne by done. apply Hres.
Qed.

Lemma task_lines_keyed data res res' :
  well_keyed res → rfold data body res = Ok res' → well_keyed res'.
Proof.
  revert res. induction data as [|l data IH]; intros res Hres.
  { by intros [= <-]. }
  cbn [rfold]. destruct (body res l) as [res1|e] eqn:Hb; [|done].
  cbn [bindR]. apply IH. by eapply task_line_keyed.
Qed.

Lemma task_lines_Ok data res :
  Forall (λ l, fields l = 3) data → ∃ res', rfold data body res = Ok res'.
Proof.
  intros Hall. revert res. induction Hall as [|l data Hl _ IH]; intros res.
  { by eexists. }
  destruct (task_line_Ok res l Hl) as (a & b & c & _ & Hrun).
  cbn [rfold]. rewrite Hrun. apply IH.
Qed.

Lemma task_lines_Raise data res :
  Exists (λ l, fields l ≠ 3) data →
  ∃ msg, rfold data body res = Raise (ValueError msg).
Proof.
  revert res. induction data as [|l data IH]; intros res Hex.
  { by apply Exists_nil in Hex. }
  cbn [rfold]. destruct (decide (fields l = 3)) as [Hf|Hf].
  - destruct (task_line_Ok res l Hf) as (a & b & c & _ & ->). cbn [bindR].
    apply IH. by apply Exists_cons in Hex as [?|?].
  - destruct (task_line_Raise res l Hf) as [msg ->]. by exists msg.
Qed.

(** X9.  In what [task_cgroups] returns no key is repeated, no key starts
    with the path separator, every key has at least one subsystem, and no
    subsystem name starts with one of the characters of [name=]. *)
Theorem task_cgroups_keys task w res :
  task_cgroups task w = Ok res →
  NoDup res.*1
  ∧ ∀ path S, dict_get path res = Some S →
      head_in "/" path = false
      ∧ (∃ s, s ∈ S)
      ∧ ∀ s, s ∈ S → head_in "name=" s = false.
Proof.
  unfold task_cgroups.
  destruct (_normalize_process_id task) as [task_id|]; [|done]. cbn [bindR].
  destruct (os.readlines w _) as [data|]; [|done]. cbn [bindR].
  apply task_lines_keyed. split; [constructor|done].
Qed.

(** X10.  [task_cgroups] returns exactly when every line of the list has
    three fields between its colons; with a line of fewer or of more it
    raises [ValueError]. *)
Theorem task_cgroups_fields task task_id w data :
  _normalize_process_id task = Ok task_id →
  os.readlines w (TASK_CGROUP_LIST task_id) = Ok data →
  (Forall (λ l, length (str.split ":" (str.strip l)) = 3) data →
   ∃ res, task_cgroups task w = Ok res)
  ∧ (Exists (λ l, length (str.split ":" (str.strip l)) ≠ 3) data →
     ∃ msg, task_cgroups task w = Raise (ValueError msg)).
Proof.
  intros Hid Hdata. unfold task_cgroups. rewrite Hid. cbn [bindR].
  rewrite Hdata. cbn [bindR]. split.
  - apply task_lines_Ok.
  - apply task_lines_Raise.
Qed.

End task_lines.

Lemma task_cgroups_keys_witness :
  ∃ res, task_cgroups (PInt 1) world_proc = Ok res
         ∧ NoDup res.*1
         ∧ ∀ path S, dict_get path res = Some S →
             head_in "/" path = false
             ∧ (∃ s, s ∈ S)
             ∧ ∀ s, s ∈ S → head_in "name=" s = false.
Proof.
  eexists. split; [vm_compute; reflexivity|].
  apply (task_cgroups_keys (PInt 1) world_proc). vm_compute. reflexivity.
Defined.

Lemma task_cgroups_fields_witness :
  (Forall (λ l, length (str.split ":" (str.strip l)) = 3)
     ["3:cpu,cpuacct:/g
"; "2:name=elogind:/
"; "1:memory:/g
"] →
   ∃ res, task_cgroups (PInt 1) world_proc = Ok res)
  ∧ (Exists (λ l, length (str.split ":" (str.strip l)) ≠ 3)
       ["3:cpu,cpuacct:/g
"; "2:name=elogind:/
"; "1:memory:/g
"] →
     ∃ msg, task_cgroups (PInt 1) world_proc = Raise (ValueError msg)).
Proof.
  apply (task_cgroups_fields (PInt 1) "1" world_proc); by vm_compute.
Defined.

(** ** Default settings *)

Lemma write_Ok f text w w1 :
  os.write f text w = (Ok tt, w1) → ∃ node, f ≠ [] ∧ w1 = os.put f node text w.
Proof.
  destruct (write_cases f text w)
    as [(-> & Hf & _)|[(ids & i & _ & Hf & _ & ->)|(e & ->)]];
    [| |done]; intros [= <-]; by eexists.
Qed.

Lemma setting_file_inj s p : Inj (=) (=) (setting_file s p).
Proof.
  intros n n' H. unfold setting_file, subsystem_path in H.
  apply app_inv_head in H. injection H as H. apply app_inv_head in H.
  by injection H.
Qed.

Lemma current_data_stat w1 w2 s p n :
  os.stat w1 (setting_file s p n) = os.stat w2 (setting_file s p n) →
  current_data w1 s p n = current_data w2 s p n.
Proof. intros H. unfold current_data, os.read. by rewrite H. Qed.

Section defaults.
Context (s : string) (p : list string).

Let body (output_data : dict (option string)) (item : string * option string)
  : M (dict (option string)) :=
  let '(file_name, data) := item in
  λ w,
    let full_path := subsystem_path s (p ++ [file_name]) in
    if os.isdir w full_path then
      (Raise (new_CGroupLookupError GROUP_INSTEAD_OF_FILE (path_str full_path)), w)
    else if negb (os.exists_ w full_path) then
      (Raise (new_CGroupLookupError NOT_EXISTS (path_str full_path)), w)
    else
      (let! text := lift (λ w, os.read w full_path) in
       let current_data := str.strip text in
       if negb (bool_decide (current_data = "")) then
         retM (dict_set file_name (Some current_data) output_data)
       else
         let! _ := os.write full_path (format_data data +:+ "
") in
         retM (dict_set file_name data output_data)) w.

Lemma init_cgroup_default_unfold d :
  init_cgroup_default s p d = for_fold d body [].
Proof.
  unfold init_cgroup_default. f_equal.
Qed.

Lemma default_step acc item wc out1 w1 :
  body acc item wc = (Ok out1, w1) →
  out1 = dict_set item.1 (default_value wc s p item).2 acc
  ∧ written w1 = written wc ++ from_option (λ x, [x]) [] (default_write wc s p item)
  ∧ (∀ k, k ≠ setting_file s p item.1 → os.stat w1 k = os.stat wc k)
  ∧ (is_blank wc s p item.1 = false → w1 = wc).
Proof.
  destruct item as [n data]. unfold body, default_value, default_write, is_blank.
  unfold current_data. fold (setting_file s p n). cbn [fst snd].
  destruct (os.isdir wc _); [done|].
  destruct (os.exists_ wc _); [|done]. cbn [negb].
  unfold bindM at 1, lift.
  destruct (os.read wc (setting_file s p n)) as [text|e]; [|done].
  destruct (bool_decide (str.strip text = "")) eqn:Hb.
  - apply bool_decide_eq_true in Hb. rewrite Hb.
    rewrite bool_decide_eq_true_2 by done. cbn [negb].
    unfold bindM, retM.
    destruct (os.write _ _ wc) as [[[]|e] w2] eqn:Hw; [|done].
    intros [= <- <-]. apply write_Ok in Hw as (node & Hne & ->).
    split_and!; [done|done| |done].
    intros k Hk. by apply stat_put_ne.
  - apply bool_decide_eq_false in Hb. cbn [negb]. unfold retM.
    intros [= <- <-].
    rewrite bool_decide_eq_false_2 by (by intros [= ?]).
    split_and!; [done|by rewrite app_nil_r|done|done].
Qed.

Lemma default_loop w d :
  NoDup d.*1 →
  ∀ acc wc out w',
    (∀ n, n ∈ d.*1 → n ∉ acc.*1) →
    (∀ n, n ∈ d.*1 →
          os.stat wc (setting_file s p n) = os.stat w (setting_file s p n)) →
    for_fold d body acc wc = (Ok out, w') →
    out = acc ++ (default_value w s p <$> d)
    ∧ written w' = written wc ++ omap (default_write w s p) d
    ∧ (∀ k, (∀ n, n ∈ d.*1 → is_blank w s p n = true → k ≠ setting_file s p n) →
            os.stat w' k = os.stat wc k).
Proof.
  induction d as [|[n data] d IH]; intros Hnd acc wc out w' Hfresh Hagree.
  { intros [= <- <-]. by rewrite !app_nil_r. }
  apply NoDup_cons in Hnd as [Hn Hnd]. cbn [for_fold]. unfold bindM at 1.
  destruct (body acc (n, data) wc) as [[out1|e] w1] eqn:Hb; [|done].
  apply default_step in Hb as (-> & Hwr & Hframe & Hsame). cbn [fst snd] in *.
  assert (current_data wc s p n = current_data w s p n) as Hcur.
  { apply current_data_stat, Hagree. by left. }
  assert (is_blank wc s p n = is_blank w s p n) as Hbl.
  { unfold is_blank. by rewrite Hcur. }
  assert (default_value wc s p (n, data) = default_value w s p (n, data)) as Hv.
  { unfold default_value. cbn [fst snd]. by rewrite Hbl, Hcur. }
  assert (default_write wc s p (n, data) = default_write w s p (n, data)) as Hd.
  { unfold default_write. cbn [fst snd]. by rewrite Hbl. }
  rewrite Hv, Hd in *. intros Hrun.
  apply IH in Hrun as (-> & Hwr' & Hframe'); [|done| |].
  - rewrite dict_set_fresh by (apply Hfresh; by left).
    split_and!.
    + by rewrite <- app_assoc.
    + rewrite Hwr', Hwr. cbn [omap list_omap].
      rewrite <- app_assoc. f_equal.
      by destruct (default_write w s p (n, data)).
    + intros k Hk. rewrite Hframe' by (intros n' Hn'; apply Hk; by right).
      destruct (is_blank w s p n) eqn:Hbn.
      * apply Hframe, Hk; [by left|done].
      * by rewrite Hsame by congruence.
  - intros n' Hn'. rewrite dict_set_keys.
    assert (n' ≠ n) by (by intros ->).
    assert (n' ∉ acc.*1) by (apply Hfresh; by right).
    case_decide; [done|]. rewrite elem_of_app, list_elem_of_singleton. tauto.
  - intros n' Hn'. rewrite Hframe; [apply Hagree; by right|].
    intros ?%setting_file_inj. by subst.
Qed.

Lemma default_step_File acc n data wc data0 :
  os.stat wc (setting_file s p n) = Some (File data0) →
  ∃ out1,
    body acc (n, data) wc
    = (Ok out1,
       if is_blank wc s p n
       then os.put (setting_file s p n) (File (format_data data +:+ "
")) (format_data data +:+ "
") wc
       else wc).
Proof.
  intros Hs. unfold body, is_blank, current_data, os.isdir, os.exists_, os.read.
  fold (setting_file s p n). rewrite Hs. cbn [negb os.text_of].
  unfold bindM at 1, lift. rewrite Hs. cbn [os.text_of].
  destruct (bool_decide (str.strip (str.universal_newlines data0) = ""))
    eqn:Hb.
  - apply bool_decide_eq_true in Hb. rewrite Hb.
    rewrite bool_decide_eq_true_2 by done. cbn [negb].
    unfold bindM, os.write. rewrite Hs. by eexists.
  - apply bool_decide_eq_false in Hb.
    rewrite bool_decide_eq_false_2 by (by intros [= ?]). by eexists.
Qed.

Lemma default_loop_File w d :
  NoDup d.*1 →
  (∀ n, n ∈ d.*1 → ∃ data0, os.stat w (setting_file s p n) = Some (File data0)) →
  ∀ acc wc,
    (∀ n, n ∈ d.*1 → n ∉ acc.*1) →
    (∀ n, n ∈ d.*1 →
          os.stat wc (setting_file s p n) = os.stat w (setting_file s p n)) →
    ∃ out w',
      for_fold d body acc wc = (Ok out, w')
      ∧ ∀ n data, (n, data) ∈ d →
          os.stat w' (setting_file s p n)
          = if is_blank w s p n
            then Some (File (format_data data +:+ "
"))
            else os.stat w (setting_file s p n).
Proof.
  induction d as [|[n data] d IH]; intros Hnd Hfile acc wc Hfresh Hagree.
  { exists acc, wc. split; [done|]. by intros n data ?%elem_of_nil. }
  apply NoDup_cons in Hnd as [Hn Hnd].
  destruct (Hfile n) as [data0 Hs0]; [by left|].
  assert (os.stat wc (setting_file s p n) = Some (File data0)) as Hsc.
  { rewrite Hagree; [done|by left]. }
  assert (is_blank wc s p n = is_blank w s p n) as Hbl.
  { unfold is_blank.
    by rewrite (current_data_stat wc w s p n) by (by rewrite Hsc). }
  destruct (default_step_File acc n data wc data0 Hsc) as [out1 Hstep].
  rewrite Hbl in Hstep. cbn [for_fold]. unfold bindM at 1. rewrite Hstep.
  set (w1 := if is_blank w s p n then _ else wc) in *.
  assert (∀ k, k ≠ setting_file s p n → os.stat w1 k = os.stat wc k) as Hframe.
  { intros k Hk. unfold w1. destruct (is_blank w s p n); [|done].
    by apply stat_put_ne. }
  assert (∀ n', n' ∈ d.*1 → setting_file s p n' ≠ setting_file s p n) as Hne.
  { intros n' Hn' ?%setting_file_inj. by subst. }
  assert (∀ n', n' ∈ d.*1 → n' ∉ out1.*1) as Hfresh1.
  { apply default_step in Hstep as (-> & _). cbn [fst].
    intros n' Hn'. rewrite dict_set_keys.
    assert (n' ≠ n) by (by intros ->).
    assert (n' ∉ acc.*1) by (apply Hfresh; by right).
    case_decide; [done|]. rewrite elem_of_app, list_elem_of_singleton. tauto. }
  destruct (IH Hnd) with (acc := out1) (wc := w1)
    as (out & w' & Hrun & Hpost); [|done| |].
  { intros n' Hn'. apply Hfile. by right. }
  { intros n' Hn'. rewrite Hframe by (by apply Hne).
    apply Hagree. by right. }
  exists out, w'. split; [done|].
  intros n' data' [[= -> ->]|Hin]%elem_of_cons; [|by apply Hpost].
  destruct (default_loop w d Hnd out1 w1 out w') as (_ & _ & Hrest);
    [done| |done|].
  { intros n' Hn'. rewrite Hframe by (by apply Hne). apply Hagree. by right. }
  rewrite Hrest.
  2:{ intros n' Hn' _ Heq. by apply (Hne n' Hn'). }
  unfold w1. destruct (is_blank w s p n); [|by rewrite Hsc].
  apply stat_put_eq. unfold setting_file, subsystem_path. by destruct p.
Qed.

(** Defaults for settings that are regular files: the call returns. *)
Lemma init_cgroup_default_File d w :
  NoDup d.*1 →
  (∀ n, n ∈ d.*1 → ∃ data0, os.stat w (setting_file s p n) = Some (File data0)) →
  ∃ w',
    init_cgroup_default s p d w = (Ok (default_value w s p <$> d), w')
    ∧ written w' = written w ++ omap (default_write w s p) d
    ∧ (∀ k, (∀ n, n ∈ d.*1 → is_blank w s p n = true → k ≠ setting_file s p n) →
            os.stat w' k = os.stat w k)
    ∧ ∀ n data, (n, data) ∈ d →
        os.stat w' (setting_file s p n)
        = if is_blank w s p n
          then Some (File (format_data data +:+ "
"))
          else os.stat w (setting_file s p n).
Proof.
  intros Hnd Hfile. rewrite init_cgroup_default_unfold.
  destruct (default_loop_File w d Hnd Hfile [] w) as (out & w' & Hrun & Hpost);
    [by intros n _ ?%elem_of_nil|done|].
  destruct (default_loop w d Hnd [] w out w') as (-> & Hwr & Hframe);
    [by intros n _ ?%elem_of_nil|done|done|].
  exists w'. by rewrite Hrun.
Qed.

(** X11.  What [init_cgroup_default] has done when it returns, for
    defaults with no name repeated.  A setting that held text other than
    white space is left as it is, and its stripped text is returned for
    it.  A blank setting is returned with its default, and the default,
    followed by a line feed, is written to its file.  The settings come
    in the order of the defaults, the writes likewise, and no other file
    is touched. *)
Theorem init_cgroup_default_returns d w out w' :
  NoDup d.*1 →
  init_cgroup_default s p d w = (Ok out, w') →
  out = default_value w s p <$> d
  ∧ written w' = written w ++ omap (default_write w s p) d
  ∧ (∀ k, (∀ n, n ∈ d.*1 → is_blank w s p n = true → k ≠ setting_file s p n) →
          os.stat w' k = os.stat w k).
Proof.
  intros Hnd. rewrite init_cgroup_default_unfold. intros Hrun.
  apply (default_loop w d Hnd [] w out w') in Hrun; [done| |done].
  by intros n _ ?%elem_of_nil.
Qed.

End defaults.

Lemma init_cgroup_default_returns_witness :
  let d := [("cpuset.mems", Some "0"); ("cpuset.cpus", None)] in
  let r := init_cgroup_default "cpuset" ["a"] d world_cpuset in
  r.1 = Ok (default_value world_cpuset "cpuset" ["a"] <$> d)
  ∧ written r.2
    = written world_cpuset ++ omap (default_write world_cpuset "cpuset" ["a"]) d
  ∧ (∀ k, (∀ n, n ∈ d.*1 → is_blank world_cpuset "cpuset" ["a"] n = true →
                k ≠ setting_file "cpuset" ["a"] n) →
          os.stat r.2 k = os.stat world_cpuset k).
Proof.
  intros d r.
  destruct (init_cgroup_default_returns "cpuset" ["a"] d world_cpuset
              (default_value world_cpuset "cpuset" ["a"] <$> d) r.2)
    as (H1 & H2 & H3).
  - repeat (constructor; [set_solver|]). constructor.
  - vm_compute. reflexivity.
  - split_and!; [vm_compute; reflexivity|exact H2|exact H3].
Defined.

(** ** Text written and read again *)

Lemma universal_newlines_no_cr s : no_cr (str.universal_newlines s) = true.
Proof.
  assert (∀ n s, (String.length s ≤ n)%nat → no_cr (str.universal_newlines s) = true)
    as H; [|by apply (H (String.length s))].
  clear s. induction n as [|n IH]; intros s Hn.
  { destruct s; [done|simpl in Hn; lia]. }
  destruct s as [|c s]; [done|]. cbn [str.universal_newlines].
  destruct (Ascii.eqb c str.CR) eqn:Hc.
  - unfold no_cr. cbn [str_forall]. cbn [negb andb Ascii.eqb].
    change (str_forall _ ?x) with (no_cr x).
    destruct s as [|d s]; [done|].
    destruct (Ascii.eqb d str.LF); apply IH; simpl in *; lia.
  - unfold no_cr. cbn [str_forall]. rewrite Hc. cbn [negb andb].
    apply IH. simpl in Hn. lia.
Qed.

Lemma universal_newlines_id s : no_cr s = true → str.universal_newlines s = s.
Proof.
  induction s as [|c s IH]; [done|]. unfold no_cr. cbn [str_forall].
  intros [Hc Hs]%andb_true_iff. apply negb_true_iff in Hc.
  cbn [str.universal_newlines]. rewrite Hc. by rewrite IH.
Qed.

Lemma no_cr_lstrip s : no_cr s = true → no_cr (str.lstrip s) = true.
Proof.
  induction s as [|c s IH]; [done|]. intros H. cbn [str.lstrip].
  destruct (str.isspace c); [|done]. apply IH.
  unfold no_cr in H. cbn [str_forall] in H. by apply andb_true_iff in H as [_ ?].
Qed.

Lemma no_cr_rstrip s : no_cr s = true → no_cr (str.rstrip s) = true.
Proof.
  induction s as [|c s IH]; [done|]. unfold no_cr. cbn [str_forall].
  intros [Hc Hs]%andb_true_iff. specialize (IH Hs). cbn [str.rstrip].
  destruct (str.rstrip s) as [|d r].
  - destruct (str.isspace c); [done|]. cbn [str_forall]. by rewrite Hc.
  - cbn [str_forall]. rewrite Hc. exact IH.
Qed.

Lemma no_cr_line s : no_cr s = true → no_cr (s +:+ "
") = true.
Proof.
  induction s as [|c s IH]; [done|]. unfold no_cr. cbn [str_forall].
  intros [Hc Hs]%andb_true_iff.
  change (str_forall _ (String c s +:+ ?x))
    with (negb (Ascii.eqb c str.CR) && no_cr (s +:+ x)).
  by rewrite Hc, IH.
Qed.

Lemma rstrip_line_any s : str.rstrip (s +:+ "
") = str.rstrip s.
Proof.
  induction s as [|c s IH]; [done|].
  change (String c s +:+ ?x) with (String c (s +:+ x)).
  cbn [str.rstrip]. by rewrite IH.
Qed.

(** A stripped text that was read is read again, stripped, after it is
    written with a line feed. *)
Lemma strip_written data :
  str.strip (str.universal_newlines
               (str.strip (str.universal_newlines data) +:+ "
"))
  = str.strip (str.universal_newlines data).
Proof.
  rewrite universal_newlines_id.
  - unfold str.strip at 1. rewrite rstrip_line_any. apply strip_idem.
  - apply no_cr_line, no_cr_lstrip, no_cr_rstrip, universal_newlines_no_cr.
Qed.

(** ** Settings inherited from the parents *)

Lemma root_defaults (file_list : list string) (acc : dict (option string)) :
  NoDup file_list → (∀ n, n ∈ file_list → n ∉ acc.*1) →
  foldl (λ d name, dict_set name None d) acc file_list
  = acc ++ ((λ n, (n, None)) <$> file_list).
Proof.
  revert acc. induction file_list as [|n l IH]; intros acc Hnd Hfresh.
  { by rewrite app_nil_r. }
  apply NoDup_cons in Hnd as [Hn Hnd]. cbn [foldl].
  rewrite dict_set_fresh by (apply Hfresh; by left).
  rewrite IH; [by rewrite <- app_assoc|done|].
  intros n' Hn'. rewrite fmap_app, elem_of_app. intros [?|Hin].
  - by apply (Hfresh n'); [right|].
  - apply list_elem_of_singleton in Hin. by subst.
Qed.

Section settings.
Context (s : string).

Let check (item : string * option string) : M unit :=
  let '(n, d) := item in
  match d with
  | None =>
      raiseM (ValueError ("No data is set for file " +:+ n +:+ " in "
                            +:+ s +:+ "'s root path."))
  | Some _ => retM tt
  end.

Lemma check_loop (l : dict (option string)) w :
  (∃ n0, (n0, None) ∈ l
         ∧ for_each l check w
           = (Raise (ValueError ("No data is set for file " +:+ n0 +:+ " in "
                                   +:+ s +:+ "'s root path.")), w))
  ∨ ((∀ n d, (n, d) ∈ l → is_Some d) ∧ for_each l check w = (Ok tt, w)).
Proof.
  induction l as [|[n [v|]] l IH].
  - right. split; [by intros n d ?%elem_of_nil|done].
  - cbn [for_each]. unfold bindM. cbn [check retM].
    destruct IH as [(n0 & Hin & ->)|[Hall ->]].
    + left. exists n0. split; [by right|done].
    + right. split; [|done].
      intros n' d [[= -> ->]|Hin]%elem_of_cons; [done|by eapply Hall].
  - left. exists n. split; [by left|done].
Qed.

Lemma settings_unfold p file_list w :
  init_cgroup_settings_from_parents s p file_list w =
    match init_cgroup_default s []
            (foldl (λ d name, dict_set name None d) [] file_list) w with
    | (Ok files_data, w1) =>
        match for_each files_data check w1 with
        | (Ok _, w2) =>
            match for_fold (seq 1 (length p))
                    (λ files_data i,
                       init_cgroup_default s (take i p) files_data)
                    files_data w2 with
            | (Ok _, w3) => (Ok tt, w3)
            | (Raise e, w3) => (Raise e, w3)
            end
        | (Raise e, w2) => (Raise e, w2)
        end
    | (Raise e, w1) => (Raise e, w1)
    end.
Proof.
  unfold init_cgroup_settings_from_parents, bindM.
  destruct (init_cgroup_default s [] _ w) as [[files_data|e] w1]; [|done].
  fold check.
  destruct (for_each files_data check w1) as [[[]|e] w2]; [|done].
  by destruct (for_fold _ _ _ w2) as [[?|e] w3].
Qed.

(** X12.  Where a setting of the list is blank at the root of the
    subsystem, [init_cgroup_settings_from_parents] raises [ValueError]
    for one such setting, and by then it has written the text [None] to
    every regular file of the list that was blank at the root. *)
Theorem settings_from_parents_blank_root p file_list w :
  NoDup file_list →
  (∀ n, n ∈ file_list →
        ∃ data, os.stat w (setting_file s [] n) = Some (File data)) →
  (∃ n, n ∈ file_list ∧ is_blank w s [] n = true) →
  ∃ n0 w',
    init_cgroup_settings_from_parents s p file_list w
    = (Raise (ValueError ("No data is set for file " +:+ n0 +:+ " in "
                            +:+ s +:+ "'s root path.")), w')
    ∧ n0 ∈ file_list ∧ is_blank w s [] n0 = true
    ∧ (∀ n, n ∈ file_list → is_blank w s [] n = true →
            os.stat w' (setting_file s [] n) = Some (File "None
"))
    ∧ (∀ k, (∀ n, n ∈ file_list → is_blank w s [] n = true →
                  k ≠ setting_file s [] n) →
            os.stat w' k = os.stat w k).
Proof.
  intros Hnd Hfile (nb & Hnb & Hblank).
  rewrite settings_unfold, root_defaults by (done || by intros ? _ ?%elem_of_nil).
  rewrite app_nil_l.
  set (d0 := (λ n, (n, None)) <$> file_list).
  assert (d0.*1 = file_list) as Hkeys.
  { unfold d0. rewrite <- list_fmap_compose. apply list_fmap_id. }
  destruct (init_cgroup_default_File s [] d0 w) as (w1 & -> & _ & Hframe & Hpost).
  { by rewrite Hkeys. }
  { by rewrite Hkeys. }
  rewrite Hkeys in Hframe.
  destruct (check_loop (default_value w s [] <$> d0) w1)
    as [(n0 & Hin & ->)|[Hall _]].
  - apply list_elem_of_fmap in Hin as ([n1 d1] & Heq & Hin1).
    apply list_elem_of_fmap in Hin1 as (n2 & [= -> ->] & Hn2).
    unfold default_value in Heq. cbn [fst snd] in Heq.
    injection Heq as -> Hv.
    assert (is_blank w s [] n2 = true) as Hb2.
    { destruct (is_blank w s [] n2) eqn:Hb; [done|].
      destruct (Hfile n2 Hn2) as [data Hs].
      unfold current_data, os.read in Hv. by rewrite Hs in Hv. }
    exists n2, w1. split_and!; [done|done|done| |done].
    intros n Hn Hb.
    rewrite (Hpost n None) by (apply list_elem_of_fmap; by exists n).
    by rewrite Hb.
  - destruct (Hall nb None) as [v Hv]; [|done].
    apply list_elem_of_fmap. exists (nb, None). split.
    + unfold default_value. cbn [fst snd]. by rewrite Hblank.
    + apply list_elem_of_fmap. by exists nb.
Qed.

End settings.

Lemma current_data_File w s p n data :
  os.stat w (setting_file s p n) = Some (File data) →
  current_data w s p n = Some (str.strip (str.universal_newlines data)).
Proof. intros H. unfold current_data, os.read. by rewrite H. Qed.

Lemma is_blank_stat w1 w2 s p n :
  os.stat w1 (setting_file s p n) = os.stat w2 (setting_file s p n) →
  is_blank w1 s p n = is_blank w2 s p n.
Proof.
  intros H. unfold is_blank. by rewrite (current_data_stat w1 w2 s p n H).
Qed.

Lemma setting_file_level s (p : list string) i j n n' :
  (i ≤ length p)%nat → (j ≤ length p)%nat → i ≠ j →
  setting_file s (take i p) n ≠ setting_file s (take j p) n'.
Proof.
  intros Hi Hj Hij Heq. apply (f_equal length) in Heq.
  unfold setting_file, subsystem_path in Heq.
  rewrite !length_app, !length_cons, !length_app, !length_take in Heq.
  simpl in Heq. lia.
Qed.

Section levels.
Context (s : string) (p file_list : list string).
Hypothesis file_list_NoDup : NoDup file_list.

Let file (i : nat) (n : string) : path := setting_file s (take i p) n.
Let data_of (w : world) (i : nat) : dict (option string) :=
  (λ n, (n, current_data w s (take i p) n)) <$> file_list.

Lemma data_of_keys w i : (data_of w i).*1 = file_list.
Proof. unfold data_of. rewrite <- list_fmap_compose. apply list_fmap_id. Qed.

(** One level: the settings of the level below it are those of the
    level itself afterwards. *)
Lemma level_step b wc :
  (S b ≤ length p)%nat →
  (∀ n, n ∈ file_list →
        ∃ data, os.stat wc (file (S b) n) = Some (File data)) →
  (∀ n, n ∈ file_list →
        (∃ data, os.stat wc (file b n) = Some (File data))
        ∧ is_blank wc s (take b p) n = false) →
  ∃ w1,
    init_cgroup_default s (take (S b) p) (data_of wc b) wc
    = (Ok (data_of w1 (S b)), w1)
    ∧ (∀ n, n ∈ file_list →
            (∃ data, os.stat w1 (file (S b) n) = Some (File data))
            ∧ is_blank w1 s (take (S b) p) n = false
            ∧ current_data w1 s (take (S b) p) n
              = if is_blank wc s (take (S b) p) n
                then current_data wc s (take b p) n
                else current_data wc s (take (S b) p) n)
    ∧ (∀ k, (∀ n, n ∈ file_list → is_blank wc s (take (S b) p) n = true →
                  k ≠ file (S b) n) →
            os.stat w1 k = os.stat wc k).
Proof.
  intros Hb Hfile Hprev.
  destruct (init_cgroup_default_File s (take (S b) p) (data_of wc b) wc)
    as (w1 & Hrun & _ & Hframe & Hpost).
  { by rewrite data_of_keys. }
  { by rewrite data_of_keys. }
  rewrite data_of_keys in Hframe.
  assert (∀ n, n ∈ file_list →
            (∃ data, os.stat w1 (file (S b) n) = Some (File data))
            ∧ is_blank w1 s (take (S b) p) n = false
            ∧ current_data w1 s (take (S b) p) n
              = if is_blank wc s (take (S b) p) n
                then current_data wc s (take b p) n
                else current_data wc s (take (S b) p) n) as Hlevel.
  { intros n Hn.
    destruct (Hprev n Hn) as [[data_b Hsb] Hnb].
    destruct (Hfile n Hn) as [data_a Hsa].
    pose proof (current_data_File _ _ _ _ _ Hsb) as Hcb.
    pose proof (current_data_File _ _ _ _ _ Hsa) as Hca.
    specialize (Hpost n (current_data wc s (take b p) n)).
    rewrite Hcb in Hpost. cbn [format_data] in Hpost.
    assert (os.stat w1 (file (S b) n)
            = if is_blank wc s (take (S b) p) n
              then Some (File (str.strip (str.universal_newlines data_b) +:+ "
"))
              else os.stat wc (file (S b) n)) as Hs1.
    { apply Hpost. unfold data_of. apply list_elem_of_fmap.
      exists n. by rewrite Hcb. }
    unfold is_blank in Hnb. rewrite Hcb in Hnb.
    apply bool_decide_eq_false in Hnb.
    destruct (is_blank wc s (take (S b) p) n) eqn:Hba.
    - pose proof (current_data_File _ _ _ _ _ Hs1) as Hc1.
      rewrite strip_written in Hc1.
      split_and!; [by eexists| |by rewrite Hc1, Hcb].
      unfold is_blank. rewrite Hc1. by apply bool_decide_eq_false.
    - split_and!.
      + exists data_a. by rewrite Hs1.
      + by rewrite (is_blank_stat w1 wc) by done.
      + by apply current_data_stat. }
  exists w1. split_and!; [|done|done].
  rewrite Hrun. do 2 f_equal. unfold data_of.
  rewrite <- list_fmap_compose. apply list_fmap_ext.
  intros _ n Hn%list_elem_of_lookup_2. unfold default_value. cbn.
  destruct (Hlevel n Hn) as (_ & _ & ->). done.
Qed.

Lemma levels_loop m :
  ∀ b wc,
    b + m = length p →
    (∀ j n, (b < j ≤ length p)%nat → n ∈ file_list →
            ∃ data, os.stat wc (file j n) = Some (File data)) →
    (∀ n, n ∈ file_list →
          (∃ data, os.stat wc (file b n) = Some (File data))
          ∧ is_blank wc s (take b p) n = false) →
    ∃ out w',
      for_fold (seq (S b) m)
        (λ files_data i, init_cgroup_default s (take i p) files_data)
        (data_of wc b) wc = (Ok out, w')
      ∧ (∀ j n, (b ≤ j < length p)%nat → n ∈ file_list →
                is_blank w' s (take (S j) p) n = false
                ∧ current_data w' s (take (S j) p) n
                  = if is_blank wc s (take (S j) p) n
                    then current_data w' s (take j p) n
                    else current_data wc s (take (S j) p) n)
      ∧ (∀ k, (∀ j n, (b < j ≤ length p)%nat → n ∈ file_list →
                      is_blank wc s (take j p) n = true → k ≠ file j n) →
              os.stat w' k = os.stat wc k).
Proof.
  induction m as [|m IH]; intros b wc Hlen Hfiles Hprev.
  { exists (data_of wc b), wc. split_and!; [done| |done].
    intros j n Hj. lia. }
  cbn [seq for_fold]. unfold bindM at 1.
  destruct (level_step b wc) as (w1 & -> & Hlevel & Hframe);
    [lia| |done|].
  { intros n Hn. apply Hfiles; [lia|done]. }
  assert (∀ j n, (j ≤ length p)%nat → j ≠ S b →
                 os.stat w1 (file j n) = os.stat wc (file j n)) as Hother.
  { intros j n Hj Hne. apply Hframe. intros n' _ _.
    apply setting_file_level; [done|lia|done]. }
  destruct (IH (S b) w1) as (out & w' & -> & Hlevels & Hframe'); [lia| | |].
  { intros j n Hj Hn. rewrite Hother by lia. apply Hfiles; [lia|done]. }
  { intros n Hn. by destruct (Hlevel n Hn) as (? & ? & _). }
  assert (∀ j n, (j ≤ S b)%nat →
                 os.stat w' (file j n) = os.stat w1 (file j n)) as Hbelow.
  { intros j n Hj. apply Hframe'. intros j' n' Hj' _ _.
    apply setting_file_level; lia. }
  exists out, w'. split_and!; [done| |].
  - intros j n Hj Hn. destruct (decide (j = b)) as [->|Hne].
    + destruct (Hlevel n Hn) as (_ & Hnb & Hc).
      rewrite (is_blank_stat w' w1) by (by apply Hbelow).
      split; [done|].
      rewrite (current_data_stat w' w1 s (take (S b) p)) by (by apply Hbelow).
      rewrite (current_data_stat w' wc s (take b p)); [done|].
      fold (file b n). rewrite Hbelow by lia. apply Hother; lia.
    + destruct (Hlevels j n) as [Hnb Hc]; [lia|done|]. split; [done|].
      rewrite Hc.
      rewrite (is_blank_stat w1 wc) by (apply Hother; lia).
      by rewrite (current_data_stat w1 wc s (take (S j) p))
        by (apply Hother; lia).
  - intros k Hk. rewrite Hframe'.
    + apply Hframe. intros n Hn Hb. apply Hk; [lia|done|done].
    + intros j n Hj Hn Hb. apply Hk; [lia|done|].
      by rewrite <- (is_blank_stat w1 wc) by (apply Hother; lia).
Qed.

(** X13.  Where the settings of the list are regular files in the root
    of the subsystem and in every group on the way down the path, and
    none is blank at the root, [init_cgroup_settings_from_parents]
    returns.  Afterwards no setting of the list is blank on the way: one
    that was blank holds what the group above it holds, one that was not
    holds what it held.  No other file is touched. *)
Theorem settings_from_parents_inherits w :
  (∀ i n, (i ≤ length p)%nat → n ∈ file_list →
          ∃ data, os.stat w (setting_file s (take i p) n) = Some (File data)) →
  (∀ n, n ∈ file_list → is_blank w s [] n = false) →
  ∃ w',
    init_cgroup_settings_from_parents s p file_list w = (Ok tt, w')
    ∧ (∀ i n, (i ≤ length p)%nat → n ∈ file_list →
              is_blank w' s (take i p) n = false)
    ∧ (∀ i n, (i < length p)%nat → n ∈ file_list →
              current_data w' s (take (S i) p) n
              = if is_blank w s (take (S i) p) n
                then current_data w' s (take i p) n
                else current_data w s (take (S i) p) n)
    ∧ (∀ k, (∀ i n, (i ≤ length p)%nat → n ∈ file_list →
                    is_blank w s (take i p) n = true →
                    k ≠ setting_file s (take i p) n) →
            os.stat w' k = os.stat w k).
Proof.
  intros Hfiles Hroot.
  rewrite settings_unfold, root_defaults by (done || by intros ? _ ?%elem_of_nil).
  rewrite app_nil_l.
  set (d0 := (λ n, (n, None)) <$> file_list).
  assert (d0.*1 = file_list) as Hkeys.
  { unfold d0. rewrite <- list_fmap_compose. apply list_fmap_id. }
  destruct (init_cgroup_default_File s [] d0 w) as (w1 & -> & _ & Hframe & _).
  { by rewrite Hkeys. }
  { rewrite Hkeys. intros n Hn. apply (Hfiles 0); [lia|done]. }
  rewrite Hkeys in Hframe.
  assert (∀ k, os.stat w1 k = os.stat w k) as Hsame.
  { intros k. apply Hframe. intros n Hn Hb. by rewrite Hroot in Hb. }
  assert (default_value w s [] <$> d0 = data_of w1 0) as ->.
  { unfold d0, data_of. rewrite <- list_fmap_compose. apply list_fmap_ext.
    intros _ n Hn%list_elem_of_lookup_2. unfold default_value. cbn.
    rewrite Hroot by done. f_equal. symmetry. by apply current_data_stat. }
  destruct (check_loop s (data_of w1 0) w1) as [(n0 & Hin & _)|[_ ->]].
  { apply list_elem_of_fmap in Hin as (n & [= -> Hc] & Hn).
    destruct (Hfiles 0 n) as [data Hs]; [lia|done|].
    rewrite <- Hsame in Hs. apply current_data_File in Hs. cbn in Hc.
    congruence. }
  destruct (levels_loop (length p) 0 w1) as (out & w' & -> & Hlevels & Hframe');
    [done| | |].
  { intros j n Hj Hn. unfold file. rewrite Hsame. apply Hfiles; [lia|done]. }
  { intros n Hn. split.
    - unfold file. rewrite Hsame. apply (Hfiles 0); [lia|done].
    - cbn [take]. rewrite (is_blank_stat w1 w) by done. by apply Hroot. }
  exists w'. split_and!; [done| | |].
  - intros [|i] n Hi Hn.
    + cbn [take].
      rewrite (is_blank_stat w' w); [by apply Hroot|].
      rewrite <- Hsame. apply Hframe'. intros j n' Hj _ _.
      apply (setting_file_level s p 0 j); lia.
    + by apply Hlevels; [lia|].
  - intros i n Hi Hn. destruct (Hlevels i n) as [_ ->]; [lia|done|].
    rewrite (is_blank_stat w1 w) by done.
    by rewrite (current_data_stat w1 w s (take (S i) p)) by done.
  - intros k Hk. rewrite Hframe', Hsame; [done|].
    intros j n Hj Hn Hb. apply Hk; [lia|done|].
    by rewrite <- (is_blank_stat w1 w) by done.
Qed.

End levels.

Lemma settings_from_parents_blank_root_witness :
  ∃ n0 w',
    init_cgroup_settings_from_parents "cpuset" ["a"]
      ["cpuset.mems"; "cpuset.cpus"] world_unset
    = (Raise (ValueError ("No data is set for file " +:+ n0 +:+ " in "
                            +:+ "cpuset" +:+ "'s root path.")), w')
    ∧ n0 ∈ ["cpuset.mems"; "cpuset.cpus"]
    ∧ is_blank world_unset "cpuset" [] n0 = true
    ∧ (∀ n, n ∈ ["cpuset.mems"; "cpuset.cpus"] →
            is_blank world_unset "cpuset" [] n = true →
            os.stat w' (setting_file "cpuset" [] n) = Some (File "None
"))
    ∧ (∀ k, (∀ n, n ∈ ["cpuset.mems"; "cpuset.cpus"] →
                  is_blank world_unset "cpuset" [] n = true →
                  k ≠ setting_file "cpuset" [] n) →
            os.stat w' k = os.stat world_unset k).
Proof.
  apply (settings_from_parents_blank_root "cpuset" ["a"]
           ["cpuset.mems"; "cpuset.cpus"] world_unset).
  - repeat (constructor; [set_solver|]). constructor.
  - intros n [->|[->|[]%elem_of_nil]%elem_of_cons]%elem_of_cons;
      eexists; vm_compute; reflexivity.
  - exists "cpuset.mems". split; [by left|vm_compute; reflexivity].
Defined.

Lemma settings_from_parents_inherits_witness :
  ∃ w',
    init_cgroup_settings_from_parents "cpuset" ["a"]
      ["cpuset.mems"; "cpuset.cpus"] world_cpuset = (Ok tt, w')
    ∧ (∀ i n, (i ≤ length ["a"])%nat → n ∈ ["cpuset.mems"; "cpuset.cpus"] →
              is_blank w' "cpuset" (take i ["a"]) n = false)
    ∧ (∀ i n, (i < length ["a"])%nat → n ∈ ["cpuset.mems"; "cpuset.cpus"] →
              current_data w' "cpuset" (take (S i) ["a"]) n
              = if is_blank world_cpuset "cpuset" (take (S i) ["a"]) n
                then current_data w' "cpuset" (take i ["a"]) n
                else current_data world_cpuset "cpuset" (take (S i) ["a"]) n)
    ∧ (∀ k, (∀ i n, (i ≤ length ["a"])%nat →
                    n ∈ ["cpuset.mems"; "cpuset.cpus"] →
                    is_blank world_cpuset "cpuset" (take i ["a"]) n = true →
                    k ≠ setting_file "cpuset" (take i ["a"]) n) →
            os.stat w' k = os.stat world_cpuset k).
Proof.
  apply (settings_from_parents_inherits "cpuset" ["a"]
           ["cpuset.mems"; "cpuset.cpus"]).
  - repeat (constructor; [set_solver|]). constructor.
  - intros i n Hi Hn. simpl in Hi.
    assert (i = 0 ∨ i = 1) as [-> | ->] by lia;
      revert Hn;
      intros [->|[->|[]%elem_of_nil]%elem_of_cons]%elem_of_cons;
      eexists; vm_compute; reflexivity.
  - intros n [->|[->|[]%elem_of_nil]%elem_of_cons]%elem_of_cons;
      vm_compute; reflexivity.
Defined.

(** ** What a classification tells *)

(** X14.  What [interpret_cgroup_path] returns can be relied on.  A file
    is the path in the one subsystem in scope where it is a file, and it
    is a directory in none.  A set of subsystems is not empty and holds
    exactly the subsystems in scope where the path is a directory, and it
    is a file in none.  Nothing is returned only where the path is
    neither in any subsystem in scope.  The path has a name in each
    case. *)
Theorem interpret_result_sound p lookup_subsystems w c :
  interpret_cgroup_path p lookup_subsystems w = Ok c →
  p ≠ []
  ∧ match c with
    | is_file f =>
        ∃ s, in_scope lookup_subsystems w s ∧ has_file w p s
             ∧ f = subsystem_path s p
             ∧ (∀ s', in_scope lookup_subsystems w s' → has_file w p s' → s' = s)
             ∧ (∀ s', in_scope lookup_subsystems w s' → ¬ has_dir w p s')
    | is_dir X =>
        (∃ s, s ∈ X)
        ∧ (∀ s, s ∈ X ↔ in_scope lookup_subsystems w s ∧ has_dir w p s)
        ∧ (∀ s, in_scope lookup_subsystems w s → ¬ has_file w p s)
    | is_none =>
        ∀ s, in_scope lookup_subsystems w s → ¬ has_file w p s ∧ ¬ has_dir w p s
    end.
Proof.
  intros Hc.
  assert (p ≠ []) as Hp.
  { intros ->. by apply interpret_root_never_classifies in Hc. }
  split; [done|].
  destruct (iter_subsystems lookup_subsystems false w) as [l|e] eqn:Hl.
  2:{ unfold interpret_cgroup_path in Hc. by rewrite Hl in Hc. }
  assert (os.isdir w CGROUP_PATH = true) as Hm.
  { unfold iter_subsystems, os.listdir in Hl. unfold os.isdir.
    by destruct (os.stat w CGROUP_PATH) as [[]|]. }
  assert (¬ file_or_group lookup_subsystems w p) as Hnfg.
  { intros Hfg%(file_or_group_test p _ _ _ Hl).
    rewrite (interpret_unfold p _ _ _ Hl) in Hc.
    destruct (join_nonempty p Hp) as (full_path & Hj). rewrite Hj in Hc.
    cbn [bindR] in Hc. by rewrite Hfg in Hc. }
  assert (¬ multi_files lookup_subsystems w p) as Hnmf.
  { intros Hmf%(multi_files_test p _ _ _ Hl).
    rewrite (interpret_unfold p _ _ _ Hl) in Hc.
    destruct (join_nonempty p Hp) as (full_path & Hj). rewrite Hj in Hc.
    cbn [bindR] in Hc. rewrite Hmf in Hc. by destruct (_ && _). }
  destruct (interpret_classifies p lookup_subsystems w Hp Hm Hnfg Hnmf)
    as [Hfile Hnofile].
  assert (∀ s, in_scope lookup_subsystems w s ↔ s ∈ l) as Hin.
  { intros s. rewrite in_scope_iter. split.
    - intros (l' & Hl' & Hs). congruence.
    - intros Hs. by exists l. }
  destruct (decide (Exists (λ s, os.isfile w (subsystem_path s p) = true) l))
    as [Hex|Hnex].
  - apply Exists_exists in Hex as (s & Hs%Hin & Hf).
    rewrite (Hfile s Hs Hf) in Hc. injection Hc as <-.
    exists s. split_and!; try done.
    + intros s' Hs' Hf'. destruct (decide (s' = s)) as [|Hne]; [done|].
      destruct Hnmf. by exists s', s.
    + intros s' Hs' Hd. apply Hnfg. split; [by exists s'|by exists s].
  - assert (∀ s, in_scope lookup_subsystems w s → ¬ has_file w p s) as Hno.
    { intros s Hs%Hin Hf. apply Hnex, Exists_exists. by exists s. }
    set (X := list_to_set
                (List.filter (λ s, os.isdir w (subsystem_path s p)) l)
              : gset string).
    assert (∀ s, s ∈ X ↔ in_scope lookup_subsystems w s ∧ has_dir w p s)
      as HS.
    { intros s. unfold X. rewrite elem_of_list_to_set, elem_of_List_filter.
      by rewrite Hin. }
    rewrite (Hnofile Hno X HS) in Hc. injection Hc as <-.
    destruct (decide (X = ∅)) as [Hempty|Hne].
    + intros s Hs. split; [by apply Hno|].
      intros Hd. assert (s ∈ X) as Hin' by (by apply HS).
      rewrite Hempty in Hin'. set_solver.
    + split_and!; [|done|done]. by apply set_choose_L.
Qed.

Lemma interpret_result_sound_witness :
  ["g"] ≠ []
  ∧ (∃ s, s ∈ ({[ "memory"; "cpu" ]} : gset string))
  ∧ (∀ s, s ∈ ({[ "memory"; "cpu" ]} : gset string)
          ↔ in_scope Unset world_g s ∧ has_dir world_g ["g"] s)
  ∧ (∀ s, in_scope Unset world_g s → ¬ has_file world_g ["g"] s).
Proof.
  apply (interpret_result_sound ["g"] Unset world_g
           (is_dir {[ "memory"; "cpu" ]})).
  vm_compute. reflexivity.
Defined.

(** ** Directories are kept *)

Lemma grows_refl w : grows w w.
Proof. by intros k link. Qed.

Lemma grows_trans w1 w2 w3 : grows w1 w2 → grows w2 w3 → grows w1 w3.
Proof. intros H12 H23 k link Hk. by apply H23, H12. Qed.

Lemma grows_isdir w w' k : grows w w' → os.isdir w k = true → os.isdir w' k = true.
Proof.
  intros Hg [link Hk]%isdir_Some. apply isdir_Some. exists link. by apply Hg.
Qed.

Lemma growing_ret {A} (a : A) : growing (retM a).
Proof. intros w. apply grows_refl. Qed.

Lemma growing_raise {A} e : growing (raiseM (A := A) e).
Proof. intros w. apply grows_refl. Qed.

Lemma growing_lift {A} (r : world → result A) : growing (lift r).
Proof. intros w. apply grows_refl. Qed.

Lemma growing_bind {A B} (m : M A) (k : A → M B) :
  growing m → (∀ a, growing (k a)) → growing (bindM m k).
Proof.
  intros Hm Hk w. unfold bindM. specialize (Hm w).
  destruct (m w) as [[a|e] w1]; [|done].
  eapply grows_trans; [done|apply Hk].
Qed.

Lemma growing_catch {A} (m : M A) (h : exn → M A) :
  growing m → (∀ e, growing (h e)) → growing (catchM m h).
Proof.
  intros Hm Hh w. unfold catchM. specialize (Hm w).
  destruct (m w) as [[a|e] w1]; [done|].
  eapply grows_trans; [done|apply Hh].
Qed.

Lemma growing_if {A} (b : world → bool) (m1 m2 : M A) :
  growing m1 → growing m2 → growing (λ w, if b w then m1 w else m2 w).
Proof. intros H1 H2 w. destruct (b w); [apply H1|apply H2]. Qed.

Lemma growing_for_each {A} (l : list A) (body : A → M unit) :
  (∀ x, growing (body x)) → growing (for_each l body).
Proof.
  intros Hb. induction l as [|x l IH]; [apply growing_ret|].
  apply growing_bind; [apply Hb|done].
Qed.

Lemma growing_for_fold {A S} (l : list A) (body : S → A → M S) acc :
  (∀ acc x, growing (body acc x)) → growing (for_fold l body acc).
Proof.
  intros Hb. revert acc. induction l as [|x l IH]; intros acc.
  { apply growing_ret. }
  apply growing_bind; [apply Hb|done].
Qed.

Lemma growing_for_names {S} lookup include_aliases names
    (body : S → string → M S) acc :
  (∀ acc s, growing (body acc s)) →
  growing (for_names lookup include_aliases names body acc).
Proof.
  intros Hb. revert acc. induction names as [|s names IH]; intros acc.
  { apply growing_ret. }
  intros w. cbn [for_names].
  destruct (yielded lookup include_aliases w s); [|apply IH].
  by apply growing_bind.
Qed.

Lemma growing_write f text : growing (os.write f text).
Proof.
  intros w k link Hk.
  destruct (decide (k = f)) as [->|Hne]; [|by rewrite write_frame].
  unfold os.write. by rewrite Hk.
Qed.

Lemma growing_mkdir f : growing (os.mkdir f).
Proof.
  intros w k link Hk.
  destruct (mkdir_cases f w) as [(Hs & _ & ->)|(e & f' & -> & _)]; [|done].
  cbn [snd]. destruct k as [|x k]; [done|]. cbn [os.stat tree].
  rewrite lookup_insert_ne; [done|]. intros ->. congruence.
Qed.

Lemma growing_makedirs name exist_ok : growing (os.makedirs name exist_ok).
Proof.
  unfold os.makedirs. induction name as [|x h IH] using rev_ind.
  { cbn. destruct exist_ok; [apply growing_ret|apply growing_raise]. }
  rewrite makedirs_rev_snoc. apply growing_bind.
  - apply (growing_if (λ w, negb (os.exists_ w h))); [|apply growing_ret].
    apply growing_catch; [done|].
    intros [[] ?| | | | | |]; apply growing_ret || apply growing_raise.
  - intros _. apply growing_catch; [apply growing_mkdir|].
    intros e w. destruct e; try apply grows_refl.
    destruct (_ || _); apply grows_refl.
Qed.

Lemma growing_init_cgroup_default s p d : growing (init_cgroup_default s p d).
Proof.
  unfold init_cgroup_default. apply growing_for_fold.
  intros acc [n data] w.
  destruct (os.isdir w _); [apply grows_refl|].
  destruct (negb (os.exists_ w _)); [apply grows_refl|].
  apply growing_bind; [apply growing_lift|]. intros text.
  destruct (negb _); [apply growing_ret|].
  apply growing_bind; [apply growing_write|]. intros _. apply growing_ret.
Qed.

Lemma growing_settings s p file_list :
  growing (init_cgroup_settings_from_parents s p file_list).
Proof.
  unfold init_cgroup_settings_from_parents.
  apply growing_bind; [apply growing_init_cgroup_default|]. intros files_data.
  apply growing_bind.
  { apply growing_for_each. intros [n [v|]];
      [apply growing_ret|apply growing_raise]. }
  intros _. apply growing_bind; [|intros _; apply growing_ret].
  apply growing_for_fold. intros acc i. apply growing_init_cgroup_default.
Qed.

Lemma growing_validate s p create : growing (validate_subsystem_path s p create).
Proof.
  unfold validate_subsystem_path. apply growing_bind.
  - intros w. destruct (os.isfile w _); [apply grows_refl|].
    destruct (negb (os.isdir w _)); [|apply grows_refl].
    destruct (negb create); [apply grows_refl|apply growing_makedirs].
  - intros _. apply growing_bind; [|intros _; apply growing_ret].
    case_bool_decide; [apply growing_settings|apply growing_ret].
Qed.

Lemma makedirs_Ok name w w' :
  os.makedirs name true w = (Ok tt, w') → os.isdir w' name = true.
Proof.
  unfold os.makedirs. destruct name as [|x h _] using rev_ind; [done|].
  rewrite makedirs_rev_snoc. unfold bindM at 1.
  destruct (if negb (os.exists_ w h) then _ else _) as [[[]|e] w1]; [|done].
  unfold catchM.
  destruct (mkdir_cases (h ++ [x]) w1) as [(_ & _ & ->)|(e & f & -> & _)].
  - intros [= <-]. unfold os.isdir. rewrite stat_snoc. cbn [tree].
    by rewrite lookup_insert_eq.
  - cbn [negb orb]. destruct (os.isdir w1 (h ++ [x])) eqn:Hd; [|done].
    by intros [= <-].
Qed.

Lemma validate_Ok s p create w r w' :
  validate_subsystem_path s p create w = (Ok r, w') →
  r = subsystem_path s p ∧ os.isdir w' r = true.
Proof.
  intros Hrun.
  unfold validate_subsystem_path in Hrun. unfold bindM at 1 in Hrun.
  destruct (os.isfile w (subsystem_path s p)); [done|].
  assert (∃ w1, os.isdir w1 (subsystem_path s p) = true
                ∧ (let! _ := if bool_decide (s = "cpuset")
                             then init_cgroup_settings_from_parents s p
                                    ["cpuset.mems"; "cpuset.cpus"]
                             else retM tt in
                   retM (subsystem_path s p)) w1 = (Ok r, w'))
    as (w1 & Hd1 & Hrest).
  { destruct (os.isdir w (subsystem_path s p)) eqn:Hd; cbn [negb] in Hrun.
    { by exists w. }
    destruct create; cbn [negb] in Hrun; [|done].
    destruct (os.makedirs (subsystem_path s p) true w) as [[[]|e] w1] eqn:Hm;
      [|done].
    exists w1. split; [by eapply makedirs_Ok|done]. }
  assert (growing (if bool_decide (s = "cpuset")
                   then init_cgroup_settings_from_parents s p
                          ["cpuset.mems"; "cpuset.cpus"]
                   else retM tt)) as Hgs.
  { case_bool_decide; [apply growing_settings|apply growing_ret]. }
  specialize (Hgs w1). unfold bindM, retM in Hrest, Hgs.
  destruct ((if bool_decide (s = "cpuset")
             then init_cgroup_settings_from_parents s p
                    ["cpuset.mems"; "cpuset.cpus"]
             else λ w, (Ok tt, w)) w1) as [[[]|e] w2]; [|done].
  injection Hrest as <- <-. split; [done|]. by eapply grows_isdir.
Qed.

(** X15.  What [validate_subsystem_path] returns is the full path of the
    group, and the path is then a directory, for every subsystem,
    [cpuset] included.  It was one before the call unless it was to be
    created.  The call removes no directory. *)
Theorem validate_subsystem_path_returns s p create w r w' :
  validate_subsystem_path s p create w = (Ok r, w') →
  r = subsystem_path s p
  ∧ os.isdir w' r = true
  ∧ (create = false → os.isdir w r = true)
  ∧ grows w w'.
Proof.
  intros Hrun. destruct (validate_Ok _ _ _ _ _ _ Hrun) as [-> Hd].
  split_and!; [done|done| |].
  - intros ->. unfold validate_subsystem_path in Hrun.
    unfold bindM at 1 in Hrun.
    destruct (os.isfile w (subsystem_path s p)); [done|].
    by destruct (os.isdir w (subsystem_path s p)).
  - pose proof (growing_validate s p create w) as H. by rewrite Hrun in H.
Qed.

Lemma validate_subsystem_path_returns_witness :
  let r := validate_subsystem_path "cpuset" ["a"] false world_cpuset in
  subsystem_path "cpuset" ["a"] = subsystem_path "cpuset" ["a"]
  ∧ os.isdir r.2 (subsystem_path "cpuset" ["a"]) = true
  ∧ (false = false → os.isdir world_cpuset (subsystem_path "cpuset" ["a"]) = true)
  ∧ grows world_cpuset r.2.
Proof.
  intros r.
  apply (validate_subsystem_path_returns "cpuset" ["a"] false world_cpuset).
  vm_compute. reflexivity.
Defined.

(** ** The subsystems that have a path, created or not *)

Lemma for_names_inv {S} (I : S → world → Prop) lookup include_aliases names
    (body : S → string → M S) :
  (∀ acc s wc acc' w1,
     s ∈ names → yielded lookup include_aliases wc s = true →
     I acc wc → body acc s wc = (Ok acc', w1) → I acc' w1) →
  ∀ acc w r w',
    I acc w →
    for_names lookup include_aliases names body acc w = (Ok r, w') → I r w'.
Proof.
  induction names as [|s names IH]; intros Hstep acc w r w' Hacc.
  { by intros [= <- <-]. }
  cbn [for_names].
  assert (∀ acc w r w', I acc w →
            for_names lookup include_aliases names body acc w = (Ok r, w') →
            I r w') as IH'.
  { apply IH. intros ? s' ? ? ? Hs'. apply Hstep. by right. }
  destruct (yielded lookup include_aliases w s) eqn:Hy; [|by apply IH'].
  unfold bindM at 1. destruct (body acc s w) as [[acc1|e] w1] eqn:Hb; [|done].
  apply IH'. eapply Hstep; [by left|done|done|done].
Qed.

(** X16.  Every subsystem that [supported_subsystems_path] returns,
    with [create] set or not, is an entry of the mount root that was
    asked for, and the path is a directory in it when the call returns.
    The call removes no directory. *)
Theorem supported_subsystems_path_sound p lookup_subsystems create w
    (supported : gset string) w' :
  supported_subsystems_path p lookup_subsystems create w = (Ok supported, w') →
  grows w w'
  ∧ ∀ s, s ∈ supported →
         has_dir w' p s
         ∧ s ∈ os.entries w CGROUP_PATH
         ∧ requested lookup_subsystems s.
Proof.
  unfold supported_subsystems_path, for_iter_subsystems.
  unfold bindM at 1, lift.
  destruct (os.listdir w CGROUP_PATH) as [names|e] eqn:Hl; [|done].
  apply listdir_Ok in Hl as ->.
  apply (for_names_inv
           (λ (acc : gset string) wc,
              grows w wc
              ∧ ∀ s, s ∈ acc →
                     has_dir wc p s
                     ∧ s ∈ os.entries w CGROUP_PATH
                     ∧ requested lookup_subsystems s)).
  - intros acc s wc acc' w1 Hs Hy [Hg Hacc].
    pose proof (growing_validate s p create wc) as Hgv.
    unfold catchM. unfold bindM at 1.
    destruct (validate_subsystem_path s p create wc) as [[r|e] w2] eqn:Hv.
    + intros [= <- <-]. split; [by eapply grows_trans|].
      intros s' [Hs'| ->%elem_of_singleton]%elem_of_union.
      * destruct (Hacc s' Hs') as (Hd & ? & ?). split_and!; [|done|done].
        by eapply grows_isdir.
      * apply validate_Ok in Hv as [-> Hd]. split_and!; [done|done|].
        by apply yielded_spec in Hy as [_ ?].
    + destruct e; try done. intros [= <- <-].
      split; [by eapply grows_trans|].
      intros s' Hs'. destruct (Hacc s' Hs') as (Hd & ? & ?).
      split_and!; [|done|done]. by eapply grows_isdir.
  - split; [apply grows_refl|]. intros s. set_solver.
Qed.

Lemma supported_subsystems_path_sound_witness :
  let r := supported_subsystems_path ["h"] Unset true world_g in
  grows world_g r.2
  ∧ ∀ s, s ∈ ({[ "memory"; "cpu" ]} : gset string) →
         has_dir r.2 ["h"] s
         ∧ s ∈ os.entries world_g CGROUP_PATH
         ∧ requested Unset s.
Proof.
  intros r.
  apply (supported_subsystems_path_sound ["h"] Unset true world_g).
  vm_compute. reflexivity.
Defined.

(** * The class [Cgroup] *)

(** ** Keys that name a group *)

Lemma parts_names l : pathlib_parts (AStr <$> l) = Ok l.
Proof.
  unfold pathlib_parts. induction l as [|n l IH]; [done|].
  csimpl. by rewrite IH.
Qed.

Lemma parts_key l k :
  ∃ msg, pathlib_parts ((AStr <$> l) ++ [key_arg k]) = Raise (TypeError msg).
Proof.
  unfold pathlib_parts. induction l as [|n l [msg IH]].
  - destruct k; by eexists.
  - exists msg. csimpl. by rewrite IH.
Qed.

Lemma init_refused path lookup_subsystems create w e :
  pathlib_parts path = Raise e →
  Cgroup.__init__ path lookup_subsystems create w
  = (match iter_subsystems lookup_subsystems false w with
     | Ok _ => Raise e
     | Raise e' => Raise e'
     end, w).
Proof.
  intros Hp. unfold Cgroup.__init__, bindM, lift. rewrite Hp.
  by destruct (iter_subsystems lookup_subsystems false w).
Qed.

(** A sub-cgroup for a key is never made: the key is handed over as one
    argument, a tuple or a list, where names are expected. *)
Lemma sub_cgroup_key self k lookup_subsystems create w :
  ∃ e, Cgroup.sub_cgroup self [key_arg k] lookup_subsystems create w
       = (Raise e, w)
       ∧ ((∃ l, iter_subsystems
                  (default (lookup_of (Cgroup.subsystems self)) lookup_subsystems)
                  false w = Ok l) →
          ∃ msg, e = TypeError msg).
Proof.
  unfold Cgroup.sub_cgroup.
  destruct (parts_key (Cgroup.path_parts self) k) as [msg Hp].
  rewrite (init_refused _ _ _ _ _ Hp).
  destruct (iter_subsystems _ false w) as [l|e].
  - exists (TypeError msg). split; [done|]. by exists msg.
  - exists e. split; [done|]. by intros [l ?].
Qed.

Lemma iter_subsystems_any lookup1 lookup2 w l :
  iter_subsystems lookup1 false w = Ok l →
  ∃ l', iter_subsystems lookup2 false w = Ok l'.
Proof.
  unfold iter_subsystems.
  destruct (os.listdir w CGROUP_PATH) as [names|]; [|done]. by eexists.
Qed.

Lemma interpret_Ok_iter p lookup_subsystems w c :
  interpret_cgroup_path p lookup_subsystems w = Ok c →
  ∃ l, iter_subsystems lookup_subsystems false w = Ok l.
Proof.
  unfold interpret_cgroup_path.
  destruct (iter_subsystems lookup_subsystems false w) as [l|]; [|done].
  by exists l.
Qed.

(** X17.  [__delitem__] deletes nothing: it raises for every key and
    leaves every file and directory as it is.  For a key that is
    a group the exception is a [TypeError]: the sub-cgroup to delete is
    asked for with the key as a tuple, which the path does not take. *)
Theorem delitem_always_raises self k w :
  ∃ e, Cgroup.__delitem__ self k w = (Raise e, w)
       ∧ ∀ X, interpret_cgroup_path
                (Cgroup.path_parts self ++ key_names k)
                (lookup_of (Cgroup.subsystems self)) w = Ok (is_dir X) →
              ∃ msg, e = TypeError msg.
Proof.
  unfold Cgroup.__delitem__. unfold bindM at 1, lift.
  destruct (interpret_cgroup_path _ _ w) as [[f|X|]|e] eqn:Hi.
  - by eexists.
  - destruct (sub_cgroup_key self k None false w) as (e & He & Hmsg).
    exists e. unfold bindM. rewrite He. split; [done|].
    intros _ _. apply Hmsg. by eapply interpret_Ok_iter.
  - by eexists.
  - by eexists.
Qed.

Section get.
Context (self : Cgroup.t) (k : key) (create : bool).

Let rest : M Cgroup.got :=
  let! interpreted :=
    lift (interpret_cgroup_path (Cgroup.path_parts self ++ key_names k)
            (lookup_of (Cgroup.subsystems self))) in
  match interpreted with
  | is_file extra_data =>
      let! text := lift (λ w, os.read w extra_data) in
      retM (Cgroup.GotText (str.strip text))
  | _ =>
      if create then
        let! c := Cgroup.sub_cgroup self [key_arg k] None true in
        retM (Cgroup.GotCgroup c)
      else
        match interpreted with
        | is_dir extra_data =>
            let! c :=
              Cgroup.sub_cgroup self [key_arg k] (Some (lookup_of extra_data))
                false in
            retM (Cgroup.GotCgroup c)
        | _ => retM Cgroup.GotDefault
        end
  end.

Lemma get_unfold w :
  Cgroup.get self k create w =
    if names_subsystem self k then
      (let! c := Cgroup.subsystem self (key_names k) false in
       retM (Cgroup.GotCgroup c)) w
    else if Cgroup.is_root self && match k with KList _ => true | _ => false end
    then (Raise (TypeError "unhashable type: 'list'"), w)
    else rest w.
Proof.
  unfold Cgroup.get, names_subsystem. unfold bindM at 1.
  destruct (Cgroup.is_root self); cbn [andb]; [|done].
  destruct k as [n|l|l]; [|done..].
  cbn [retM]. by case_bool_decide.
Qed.

(** Below the check for a subsystem, [get] returns a text or the
    default, or raises; it changes nothing. *)
Lemma get_rest w :
  ∃ r, rest w = (r, w)
       ∧ (∀ c, r ≠ Ok (Cgroup.GotCgroup c))
       ∧ (∀ X, interpret_cgroup_path (Cgroup.path_parts self ++ key_names k)
                 (lookup_of (Cgroup.subsystems self)) w = Ok (is_dir X) →
               ∃ msg, r = Raise (TypeError msg)).
Proof.
  unfold rest. unfold bindM at 1, lift.
  destruct (interpret_cgroup_path _ _ w) as [[f|X|]|e] eqn:Hi.
  - unfold bindM, lift, retM. destruct (os.read w f); by eexists.
  - assert (∀ lookup_subsystems create',
              (∃ l, iter_subsystems
                      (default (lookup_of (Cgroup.subsystems self))
                         lookup_subsystems) false w = Ok l) →
              ∃ msg,
                (let! c := Cgroup.sub_cgroup self [key_arg k] lookup_subsystems
                             create' in
                 retM (Cgroup.GotCgroup c)) w = (Raise (TypeError msg), w))
      as Hsub.
    { intros lookup_subsystems create' Hl.
      destruct (sub_cgroup_key self k lookup_subsystems create' w)
        as (e & He & Hmsg).
      destruct (Hmsg Hl) as [msg ->]. exists msg. unfold bindM. by rewrite He. }
    assert (∃ msg,
              (if create
               then let! c := Cgroup.sub_cgroup self [key_arg k] None true in
                    retM (Cgroup.GotCgroup c)
               else let! c := Cgroup.sub_cgroup self [key_arg k]
                                (Some (lookup_of X)) false in
                    retM (Cgroup.GotCgroup c)) w = (Raise (TypeError msg), w))
      as [msg ->].
    { destruct create; apply Hsub; cbn [default].
      - by eapply interpret_Ok_iter.
      - destruct (interpret_Ok_iter _ _ _ _ Hi) as [l Hl].
        by eapply iter_subsystems_any. }
    eexists. split_and!; [done|done|]. intros _ _. by exists msg.
  - destruct create; [|by eexists].
    destruct (sub_cgroup_key self k None true w) as (e & He & _).
    unfold bindM. rewrite He. by eexists.
  - by eexists.
Qed.

End get.

(** X18.  [get] returns a cgroup only at the root, for a key that is the
    name of one of the subsystems of the instance: never for the name of
    a group. *)
Theorem get_cgroup_only_subsystem self k create w c w' :
  Cgroup.get self k create w = (Ok (Cgroup.GotCgroup c), w') →
  Cgroup.is_root self = true
  ∧ ∃ n, k = KStr n ∧ n ∈ Cgroup.subsystems self
         ∧ Cgroup.subsystem self [n] false w = (Ok c, w').
Proof.
  rewrite get_unfold. unfold names_subsystem.
  destruct (get_rest self k create w) as (r & Hr & Hnot & _).
  destruct (Cgroup.is_root self); cbn [andb]; [|rewrite Hr; naive_solver].
  destruct k as [n|l|l]; [|rewrite Hr; naive_solver|done].
  case_bool_decide; [|rewrite Hr; naive_solver].
  unfold bindM, retM. cbn [key_names].
  destruct (Cgroup.subsystem self [n] false w) as [[c1|e] w1] eqn:Hs; [|done].
  intros [= -> ->]. split; [done|]. by exists n.
Qed.

Lemma get_cgroup_only_subsystem_witness :
  let self := Cgroup.new {[ "cpu"; "memory" ]} [] in
  let r := Cgroup.subsystem self ["cpu"] false world_g in
  Cgroup.is_root self = true
  ∧ ∃ n, KStr "cpu" = KStr n ∧ n ∈ Cgroup.subsystems self
         ∧ Cgroup.subsystem self [n] false world_g
           = (Ok (Cgroup.new {[ "cpu" ]} []), r.2).
Proof.
  intros self r.
  apply (get_cgroup_only_subsystem self (KStr "cpu") false world_g).
  vm_compute. reflexivity.
Defined.

(** X19.  Indexing an instance with the name of a group raises
    [TypeError] and changes nothing, unless the name is that of a
    subsystem at the root. *)
Theorem getitem_group_raises self k X w :
  names_subsystem self k = false →
  interpret_cgroup_path (Cgroup.path_parts self ++ key_names k)
    (lookup_of (Cgroup.subsystems self)) w = Ok (is_dir X) →
  ∃ msg, Cgroup.__getitem__ self k w = (Raise (TypeError msg), w).
Proof.
  intros Hk Hi. unfold Cgroup.__getitem__. unfold bindM.
  rewrite get_unfold, Hk.
  destruct (Cgroup.is_root self && _); [eexists; reflexivity|].
  destruct (get_rest self k false w) as (r & -> & _ & Hmsg).
  destruct (Hmsg X Hi) as [msg ->]. by exists msg.
Qed.

Lemma getitem_group_raises_witness :
  ∃ msg,
    Cgroup.__getitem__ (Cgroup.new {[ "cpu"; "memory" ]} []) (KStr "g") world_g
    = (Raise (TypeError msg), world_g).
Proof.
  apply (getitem_group_raises (Cgroup.new {[ "cpu"; "memory" ]} []) (KStr "g")
           {[ "memory"; "cpu" ]} world_g).
  - vm_compute. reflexivity.
  - vm_compute. reflexivity.
Defined.


(** ** Instances *)

Lemma supported_dirs p lookup_subsystems create w (X : gset string) w' :
  supported_subsystems_path p lookup_subsystems create w = (Ok X, w') →
  grows w w' ∧ ∀ s, s ∈ X → has_dir w' p s ∧ requested lookup_subsystems s.
Proof.
  unfold supported_subsystems_path, for_iter_subsystems.
  unfold bindM at 1, lift.
  destruct (os.listdir w CGROUP_PATH) as [names|e]; [|done].
  apply (for_names_inv
           (λ (acc : gset string) wc,
              grows w wc
              ∧ ∀ s, s ∈ acc → has_dir wc p s ∧ requested lookup_subsystems s)).
  - intros acc s wc acc' w1 _ Hy [Hg Hacc].
    pose proof (growing_validate s p create wc) as Hgv.
    unfold catchM. unfold bindM at 1.
    destruct (validate_subsystem_path s p create wc) as [[r|e] w2] eqn:Hv.
    + intros [= <- <-]. split; [by eapply grows_trans|].
      intros s' [Hs'| ->%elem_of_singleton]%elem_of_union.
      * destruct (Hacc s' Hs') as (Hd & ?). split; [|done].
        by eapply grows_isdir.
      * apply validate_Ok in Hv as [-> Hd]. split; [done|].
        by apply yielded_spec in Hy as [_ ?].
    + destruct e; try done. intros [= <- <-].
      split; [by eapply grows_trans|].
      intros s' Hs'. destruct (Hacc s' Hs') as (Hd & ?).
      split; [|done]. by eapply grows_isdir.
  - split; [apply grows_refl|]. intros s. set_solver.
Qed.

Lemma requested_lookup_of (X : gset string) s : requested (lookup_of X) s ↔ s ∈ X.
Proof. unfold requested, lookup_of. apply elem_of_elements. Qed.

(** X20.  An instance that [Cgroup] makes holds subsystems that are
    directories of the mount root and were asked for, and its path is a
    directory in each of them when the constructor returns.  Its path is
    the path given, less a leading name that is one of the subsystems
    found, which is then its only subsystem, if it has one.  With
    subsystems asked for, and no such leading name, the instance holds
    every subsystem found.  No directory is removed. *)
Theorem Cgroup_init_returns path lookup_subsystems create w c w' :
  Cgroup.__init__ path lookup_subsystems create w = (Ok c, w') →
  grows w w'
  ∧ (∀ s, s ∈ Cgroup.subsystems c →
          has_dir w' (Cgroup.path_parts c) s
          ∧ discovered false w s ∧ requested lookup_subsystems s)
  ∧ ∃ parts,
      pathlib_parts path = Ok parts
      ∧ ((∃ first, parts = first :: Cgroup.path_parts c
                   ∧ discovered false w first ∧ requested lookup_subsystems first
                   ∧ Cgroup.subsystems c ⊆ {[ first ]})
         ∨ (parts = Cgroup.path_parts c
            ∧ (lookup_subsystems ≠ Unset →
               ∀ s, discovered false w s → requested lookup_subsystems s →
                    s ∈ Cgroup.subsystems c))).
Proof.
  unfold Cgroup.__init__. unfold bindM at 1, lift.
  destruct (iter_subsystems lookup_subsystems false w) as [found|] eqn:Hl;
    [|done].
  unfold bindM at 1.
  destruct (pathlib_parts path) as [parts|] eqn:Hp; [|done].
  pose proof (λ s, elem_of_iter_subsystems _ _ _ _ s Hl) as Hfound.
  assert (∃ X q,
            match parts with
            | first :: rest =>
                if decide (first ∈ (list_to_set found : gset string))
                then (({[ first ]} : gset string), rest)
                else (list_to_set found, parts)
            | [] => (list_to_set found, parts)
            end = (X, q)
            ∧ (∀ s, s ∈ X → s ∈ found)
            ∧ ((∃ first, parts = first :: q ∧ first ∈ found ∧ X = {[ first ]})
               ∨ (parts = q ∧ X = list_to_set found)))
    as (X & q & -> & HX & Hparts).
  { destruct parts as [|first rest].
    - eexists _, _. split; [done|]. split; [set_solver|by right].
    - case_decide as Hf.
      + eexists _, _. split; [done|]. rewrite elem_of_list_to_set in Hf.
        split; [set_solver|]. left. by exists first.
      + eexists _, _. split; [done|]. split; [set_solver|by right]. }
  unfold bindM.
  destruct (supported_subsystems_path q (lookup_of X) create w)
    as [[ret|e] w1] eqn:Hs; [|done].
  apply supported_dirs in Hs as [Hg Hret].
  assert (∀ s, s ∈ ret → s ∈ X) as HretX.
  { intros s Hs. by apply requested_lookup_of, Hret. }
  assert (∀ Y : gset string,
            (∀ s, s ∈ Y → s ∈ ret) → (lookup_subsystems ≠ Unset → Y = X) →
            (Ok (Cgroup.new Y q), w1) = (Ok c, w') →
            grows w w'
            ∧ (∀ s, s ∈ Cgroup.subsystems c →
                    has_dir w' (Cgroup.path_parts c) s
                    ∧ discovered false w s ∧ requested lookup_subsystems s)
            ∧ ∃ parts0,
                Ok parts = Ok parts0
                ∧ ((∃ first, parts0 = first :: Cgroup.path_parts c
                             ∧ discovered false w first
                             ∧ requested lookup_subsystems first
                             ∧ Cgroup.subsystems c ⊆ {[ first ]})
                   ∨ (parts0 = Cgroup.path_parts c
                      ∧ (lookup_subsystems ≠ Unset →
                         ∀ s, discovered false w s →
                              requested lookup_subsystems s →
                              s ∈ Cgroup.subsystems c)))) as Hfinal.
  { intros Y HY Hall [= <- <-]. cbn [Cgroup.subsystems Cgroup.path_parts].
    split_and!; [done| |].
    - intros s Hs. destruct (Hret s (HY s Hs)) as [Hd _].
      split; [done|]. by apply Hfound, HX, HretX, HY.
    - exists parts. split; [done|].
      destruct Hparts as [(first & -> & Hf & ->)|[-> ->]].
      + left. exists first. split_and!; [done|by apply Hfound..|].
        intros s Hs. by apply HretX, HY.
      + right. split; [done|]. intros Hne s Hd Hr. rewrite (Hall Hne).
        apply elem_of_list_to_set, Hfound. done. }
  destruct lookup_subsystems as [|n|names].
  - apply Hfinal; [done|done].
  - case_decide as Hm; [|done]. apply Hfinal; [set_solver|done].
  - case_decide as Hm; [|done]. apply Hfinal; [set_solver|done].
Qed.

Lemma Cgroup_init_returns_witness :
  let r := Cgroup.__init__ [AStr "cpu"; AStr "g"] Unset false world_g in
  let c := Cgroup.new {[ "cpu" ]} ["g"] in
  grows world_g r.2
  ∧ (∀ s, s ∈ Cgroup.subsystems c →
          has_dir r.2 (Cgroup.path_parts c) s
          ∧ discovered false world_g s ∧ requested Unset s)
  ∧ ∃ parts,
      pathlib_parts [AStr "cpu"; AStr "g"] = Ok parts
      ∧ ((∃ first, parts = first :: Cgroup.path_parts c
                   ∧ discovered false world_g first ∧ requested Unset first
                   ∧ Cgroup.subsystems c ⊆ {[ first ]})
         ∨ (parts = Cgroup.path_parts c
            ∧ (Unset ≠ Unset →
               ∀ s, discovered false world_g s → requested Unset s →
                    s ∈ Cgroup.subsystems c))).
Proof.
  intros r c.
  apply (Cgroup_init_returns [AStr "cpu"; AStr "g"] Unset false world_g).
  vm_compute. reflexivity.
Defined.

(** ** Deleting the group of an instance *)

Lemma dict_get_keys {V} (k : string) (d : dict V) :
  is_Some (dict_get k d) ↔ k ∈ d.*1.
Proof.
  induction d as [|[k' v] d IH]; csimpl.
  - split; [by intros [? ?]|by intros ?%elem_of_nil].
  - case_decide as Hk; [subst; split; [by left|by eexists]|].
    rewrite IH, elem_of_cons. naive_solver.
Qed.

Lemma delete_report p lookup_subsystems w l :
  iter_subsystems lookup_subsystems false w = Ok l →
  ∃ failed w',
    subsystems_delete_cgroup p lookup_subsystems w = (Ok failed, w')
    ∧ (∀ s, s ∈ failed.*1 ↔ s ∈ l ∧ is_Some (delete_failure p w s))
    ∧ (∀ s, s ∈ l → s ∉ failed.*1 → tree w' !! subsystem_path s p = None).
Proof.
  unfold iter_subsystems, subsystems_delete_cgroup, for_iter_subsystems.
  unfold bindM at 1, lift.
  destruct (os.listdir w CGROUP_PATH) as [names|e] eqn:Hl; [|done].
  intros [= <-]. apply listdir_Ok in Hl as ->.
  destruct (for_names_delete p (lookup_set lookup_subsystems)
              (os.entries w CGROUP_PATH) w (NoDup_entries _ _) [] w)
    as (failed & w' & Hrun & _ & _ & Hd & Hg); [done|done|].
  exists failed, w'. split_and!; [done| |].
  - intros s. rewrite <- dict_get_keys, Hd, elem_of_List_filter.
    case_decide as Hs; [tauto|]. split; [by intros [? ?]|tauto].
  - intros s [Hy Hs]%elem_of_List_filter Hnone.
    rewrite <- stat_subsystem_path. apply Hg; [done|done|].
    rewrite <- dict_get_keys, Hd, decide_True in Hnone by done.
    destruct (delete_failure p w s); [|done]. by destruct Hnone.
Qed.

(** X21.  [delete], without recursion, never removes the root of a
    subsystem: at the root it raises [ValueError] and changes nothing.
    Elsewhere it returns once the subsystems can be listed.  The
    instance keeps its path and, as subsystems, those of its own in
    which the deletion failed; in the others the group is gone.  A
    warning is given exactly when a subsystem is kept. *)
Theorem Cgroup_delete_returns self w l :
  iter_subsystems (lookup_of (Cgroup.subsystems self)) false w = Ok l →
  if Cgroup.is_root self then
    Cgroup.delete self w
    = (Raise (ValueError "Cannot remove the root cgroup."), w)
  else
    ∃ c' warning w',
      Cgroup.delete self w = (Ok (c', warning), w')
      ∧ Cgroup.path_parts c' = Cgroup.path_parts self
      ∧ (∀ s, s ∈ Cgroup.subsystems c'
              ↔ s ∈ l ∧ is_Some (delete_failure (Cgroup.path_parts self) w s))
      ∧ Cgroup.subsystems c' ⊆ Cgroup.subsystems self
      ∧ (warning = None ↔ Cgroup.subsystems c' = ∅)
      ∧ (∀ s, s ∈ l → s ∉ Cgroup.subsystems c' →
              tree w' !! subsystem_path s (Cgroup.path_parts self) = None).
Proof.
  intros Hl. unfold Cgroup.delete.
  destruct (Cgroup.is_root self); [done|].
  destruct (delete_report (Cgroup.path_parts self) _ _ _ Hl)
    as (failed & w' & Hrun & Hkeys & Hgone).
  unfold bindM. rewrite Hrun. eexists _, _, _. split; [done|].
  cbn [Cgroup.path_parts Cgroup.subsystems].
  split_and!; [done| | | |].
  - intros s. by rewrite elem_of_list_to_set.
  - intros s [Hs _]%elem_of_list_to_set%Hkeys.
    apply (elem_of_iter_subsystems _ _ _ _ s Hl) in Hs as [_ Hr].
    by apply requested_lookup_of.
  - destruct failed as [|[s m] failed]; [done|]. split; [done|].
    csimpl. set_solver.
  - intros s Hs Hn. apply Hgone; [done|]. by rewrite elem_of_list_to_set in Hn.
Qed.

Lemma Cgroup_delete_returns_witness :
  ∃ c' warning w',
    Cgroup.delete (Cgroup.new {[ "cpu" ]} ["a"; "b"]) world_nested
    = (Ok (c', warning), w')
    ∧ Cgroup.path_parts c' = ["a"; "b"]
    ∧ (∀ s, s ∈ Cgroup.subsystems c'
            ↔ s ∈ ["cpu"]
              ∧ is_Some (delete_failure ["a"; "b"] world_nested s))
    ∧ Cgroup.subsystems c' ⊆ {[ "cpu" ]}
    ∧ (warning = None ↔ Cgroup.subsystems c' = ∅)
    ∧ (∀ s, s ∈ ["cpu"] → s ∉ Cgroup.subsystems c' →
            tree w' !! subsystem_path s ["a"; "b"] = None).
Proof.
  assert (iter_subsystems (lookup_of {[ "cpu" ]}) false world_nested
          = Ok ["cpu"]) as Hl by (vm_compute; reflexivity).
  exact (Cgroup_delete_returns (Cgroup.new {[ "cpu" ]} ["a"; "b"])
           world_nested ["cpu"] Hl).
Defined.

(** ** What is written *)

Lemma logs_weaken {A} (Q Q' : path * string → Prop) (m : M A) :
  (∀ x, Q x → Q' x) → logs Q m → logs Q' m.
Proof.
  intros HQ Hm w. destruct (Hm w) as (log & Hw & Hall).
  exists log. split; [done|]. by eapply Forall_impl.
Qed.

Lemma logs_same {A} Q (m : M A) : (∀ w, (m w).2 = w) → logs Q m.
Proof. intros Hm w. exists []. by rewrite Hm, app_nil_r. Qed.

Lemma logs_ret {A} Q (a : A) : logs Q (retM a).
Proof. by apply logs_same. Qed.

Lemma logs_raise {A} Q e : logs Q (raiseM (A := A) e).
Proof. by apply logs_same. Qed.

Lemma logs_lift {A} Q (r : world → result A) : logs Q (lift r).
Proof. by apply logs_same. Qed.

Lemma logs_bind {A B} Q (m : M A) (k : A → M B) :
  logs Q m → (∀ a, logs Q (k a)) → logs Q (bindM m k).
Proof.
  intros Hm Hk w. unfold bindM. destruct (Hm w) as (log & Hw & Hall).
  destruct (m w) as [[a|e] w1]; [|by exists log].
  destruct (Hk a w1) as (log' & Hw' & Hall'). exists (log ++ log').
  split; [|by apply Forall_app].
  rewrite Hw'. cbn [snd] in Hw. by rewrite Hw, app_assoc.
Qed.

Lemma logs_catch {A} Q (m : M A) (h : exn → M A) :
  logs Q m → (∀ e, logs Q (h e)) → logs Q (catchM m h).
Proof.
  intros Hm Hh w. unfold catchM. destruct (Hm w) as (log & Hw & Hall).
  destruct (m w) as [[a|e] w1]; [by exists log|].
  destruct (Hh e w1) as (log' & Hw' & Hall'). exists (log ++ log').
  split; [|by apply Forall_app].
  rewrite Hw'. cbn [snd] in Hw. by rewrite Hw, app_assoc.
Qed.

Lemma logs_for_each {A} Q (l : list A) (body : A → M unit) :
  (∀ x, x ∈ l → logs Q (body x)) → logs Q (for_each l body).
Proof.
  induction l as [|x l IH]; intros Hb; [apply logs_ret|].
  apply logs_bind; [apply Hb; by left|]. intros _. apply IH.
  intros y Hy. apply Hb. by right.
Qed.

Lemma logs_for_fold {A S} Q (l : list A) (body : S → A → M S) acc :
  (∀ acc x, x ∈ l → logs Q (body acc x)) → logs Q (for_fold l body acc).
Proof.
  revert acc. induction l as [|x l IH]; intros acc Hb; [apply logs_ret|].
  apply logs_bind; [apply Hb; by left|]. intros acc'. apply IH.
  intros acc'' y Hy. apply Hb. by right.
Qed.

Lemma logs_for_names {S} Q lookup include_aliases names
    (body : S → string → M S) acc :
  (∀ acc s, logs Q (body acc s)) →
  logs Q (for_names lookup include_aliases names body acc).
Proof.
  intros Hb. revert acc. induction names as [|s names IH]; intros acc.
  { apply logs_ret. }
  intros w. cbn [for_names].
  destruct (yielded lookup include_aliases w s); [|apply IH].
  by apply logs_bind.
Qed.

Lemma logs_write (Q : path * string → Prop) f text :
  Q (f, text) → logs Q (os.write f text).
Proof.
  intros HQ w.
  destruct (write_cases f text w)
    as [(-> & _)|[(ids & i & _ & _ & _ & ->)|(e & ->)]].
  - exists [(f, text)]. split; [done|]. by constructor.
  - exists [(f, text)]. split; [done|]. by constructor.
  - exists []. by rewrite app_nil_r.
Qed.

Lemma logs_init_cgroup_default s p d :
  logs (λ entry, ∃ n data, (n, data) ∈ d
                           ∧ entry = (setting_file s p n, format_data data +:+ "
"))
    (init_cgroup_default s p d).
Proof.
  unfold init_cgroup_default. apply logs_for_fold.
  intros acc [n data] Hin w.
  destruct (os.isdir w _); [by apply logs_same|].
  destruct (negb (os.exists_ w _)); [by apply logs_same|].
  apply logs_bind; [apply logs_lift|]. intros text.
  destruct (negb _); [apply logs_ret|].
  apply logs_bind; [|intros _; apply logs_ret].
  apply logs_write. by exists n, data.
Qed.

Lemma elem_of_dict_set {V} (k k' : string) (v v' : V) (d : dict V) :
  (k', v') ∈ dict_set k v d → (k', v') = (k, v) ∨ (k', v') ∈ d.
Proof.
  induction d as [|[k0 v0] d IH]; cbn [dict_set].
  - intros ?%list_elem_of_singleton. by left.
  - case_decide.
    + intros [?|?]%elem_of_cons; [by left|]. right. by right.
    + intros [->|Hin]%elem_of_cons; [right; by left|].
      destruct (IH Hin); [by left|]. right. by right.
Qed.

Lemma elem_of_root_defaults (file_list : list string) n data
    (acc : dict (option string)) :
  (n, data) ∈ foldl (λ d name, dict_set name None d) acc file_list →
  (n, data) ∈ acc ∨ (data = None ∧ n ∈ file_list).
Proof.
  revert acc. induction file_list as [|x l IH]; intros acc; [by left|].
  cbn [foldl]. intros [[[= -> ->]|?]%elem_of_dict_set|[-> ?]]%IH.
  - right. split; [done|by left].
  - by left.
  - right. split; [done|by right].
Qed.

(** At the root of a subsystem, all that the settings are given is the
    text [None]. *)
Lemma logs_settings_root s file_list :
  logs (λ entry, ∃ n, n ∈ file_list ∧ entry = (setting_file s [] n, "None
"))
    (init_cgroup_settings_from_parents s [] file_list).
Proof.
  unfold init_cgroup_settings_from_parents. apply logs_bind.
  - eapply logs_weaken; [|apply logs_init_cgroup_default].
    intros entry (n & data & Hin & ->).
    apply elem_of_root_defaults in Hin as [?%elem_of_nil|[-> Hn]]; [done|].
    by exists n.
  - intros files_data. apply logs_bind.
    { apply logs_for_each. intros [n [v|]] _;
        [apply logs_ret|apply logs_raise]. }
    intros _. apply logs_bind; [apply logs_ret|intros _; apply logs_ret].
Qed.

Lemma logs_validate_root s :
  logs unset_setting (validate_subsystem_path s [] false).
Proof.
  unfold validate_subsystem_path. apply logs_bind.
  - apply logs_same. intros w. destruct (os.isfile w _); [done|].
    by destruct (negb (os.isdir w _)).
  - intros _. apply logs_bind; [|intros _; apply logs_ret].
    case_bool_decide as Hs; [|apply logs_ret]. subst s.
    eapply logs_weaken; [|apply logs_settings_root]. by intros entry.
Qed.

Lemma logs_supported_root lookup_subsystems :
  logs unset_setting (supported_subsystems_path [] lookup_subsystems false).
Proof.
  unfold supported_subsystems_path, for_iter_subsystems.
  apply logs_bind; [apply logs_lift|]. intros names.
  apply logs_for_names. intros acc s.
  apply logs_catch.
  - apply logs_bind; [apply logs_validate_root|]. intros _. apply logs_ret.
  - intros []; apply logs_ret || apply logs_raise.
Qed.

Lemma logs_root self : logs unset_setting (Cgroup.root self).
Proof.
  intros w. unfold Cgroup.root, Cgroup.__init__. unfold bindM at 1, lift.
  destruct (iter_subsystems _ false w) as [found|e];
    [|exists []; by rewrite app_nil_r].
  unfold bindM at 1. cbn [pathlib_parts rmap].
  apply (logs_bind unset_setting
           (supported_subsystems_path [] (lookup_of (list_to_set found)) false)).
  - apply logs_supported_root.
  - intros ret. cbn [lookup_of]. case_decide; apply logs_ret || apply logs_raise.
Qed.

(** With no id to add, nothing is written, whatever the outcome. *)
Lemma add_no_ids fname p lookup_subsystems w :
  (_subsystems_add_procs fname (PSeq []) p lookup_subsystems w).2 = w.
Proof.
  unfold _subsystems_add_procs. unfold bindM at 1.
  destruct (iter_subsystems lookup_subsystems false w) as [l|e] eqn:Hl.
  - rewrite (for_iter_subsystems_observe _ _ _ (λ failed s, Ok failed) _ _ l Hl).
    + by destruct (rfold l _ []) as [[]|].
    + intros failed s _. unfold catchM. unfold bindM at 1.
      by rewrite add_procs_unfold.
  - unfold for_iter_subsystems, bindM, lift. unfold iter_subsystems in Hl.
    by destruct (os.listdir w CGROUP_PATH).
Qed.

Lemma tasks_empty self w X : Cgroup.tasks self w = Ok X → X = ∅.
Proof.
  unfold Cgroup.tasks, subsystems_cgroup_tasks,
    _subsystems_cgroup_procs_intersection.
  destruct (iter_subsystems _ false w) as [l|]; [|done]. cbn [bindR].
  apply rfold_intersection_empty.
Qed.

(** X22.  [clear_tasks], without recursion, moves no task.  The tasks it
    reads are always none, and it writes to no membership file.  All it
    may write, while it makes the instance of the root, is the text
    [None] to a setting of [cpuset] that is blank at the root. *)
Theorem Cgroup_clear_tasks_moves_nothing self w :
  ∃ log,
    written (Cgroup.clear_tasks self w).2 = written w ++ log
    ∧ Forall unset_setting log
    ∧ ∀ fname s p text,
        fname ∈ [TASKS_FILE_NAME; PROCS_FILE_NAME] →
        (membership_file fname s p, text) ∉ log.
Proof.
  assert (logs unset_setting (Cgroup.clear_tasks self)) as Hlogs.
  { intros w0. unfold Cgroup.clear_tasks.
    destruct (Cgroup.is_root self); [by apply logs_raise|].
    unfold bindM at 1, lift.
    destruct (Cgroup.tasks self w0) as [X|e] eqn:Ht;
      [|exists []; by rewrite app_nil_r].
    apply tasks_empty in Ht as ->. rewrite elements_empty. cbn [fmap list_fmap].
    apply logs_catch; [|intros e; apply logs_ret].
    apply logs_bind; [apply logs_root|]. intros r.
    apply logs_bind; [|intros _; apply logs_ret].
    apply logs_same. intros w1. apply add_no_ids. }
  destruct (Hlogs w) as (log & Hw & Hall). exists log.
  split_and!; [done|done|].
  intros fname s p text Hf Hin.
  rewrite Forall_forall in Hall. destruct (Hall _ Hin) as (n & Hn & Heq).
  unfold membership_file, setting_file, subsystem_path, CGROUP_PATH in Heq.
  simpl in Heq. injection Heq as _ Hp _.
  destruct p as [|x [|y p]]; try done. injection Hp as ->.
  set_solver.
Qed.

(** ** The paths of a group *)

Lemma subsystem_path_inj p : Inj (=) (=) (λ s, subsystem_path s p).
Proof.
  intros s s' H. unfold subsystem_path in H. apply app_inv_head in H.
  by injection H.
Qed.

(** X23.  [iter_subsystem_path] yields the path of the group in each
    subsystem that [iter_subsystems] yields, whether the group exists
    there or not, and no path twice. *)
Theorem iter_subsystem_path_yields p lookup_subsystems include_aliases w paths :
  iter_subsystem_path p lookup_subsystems include_aliases w = Ok paths →
  NoDup paths
  ∧ ∀ k, k ∈ paths
         ↔ ∃ s, discovered include_aliases w s
                ∧ requested lookup_subsystems s
                ∧ k = subsystem_path s p.
Proof.
  unfold iter_subsystem_path.
  destruct (iter_subsystems lookup_subsystems include_aliases w) as [l|] eqn:Hl;
    [|done].
  intros [= <-]. split.
  - apply (NoDup_fmap_2 _). by eapply NoDup_iter_subsystems.
  - intros k. rewrite list_elem_of_fmap. split.
    + intros (s & -> & Hs). exists s. split_and!; [..|done];
        by apply (elem_of_iter_subsystems _ _ _ _ s Hl).
    + intros (s & Hd & Hr & ->). exists s. split; [done|].
      by apply (elem_of_iter_subsystems _ _ _ _ s Hl).
Qed.

Lemma iter_subsystem_path_yields_witness :
  NoDup [subsystem_path "memory" ["nowhere"]; subsystem_path "cpu" ["nowhere"]]
  ∧ ∀ k, k ∈ [subsystem_path "memory" ["nowhere"];
              subsystem_path "cpu" ["nowhere"]]
         ↔ ∃ s, discovered false world_g s
                ∧ requested Unset s
                ∧ k = subsystem_path s ["nowhere"].
Proof.
  apply (iter_subsystem_path_yields ["nowhere"] Unset false world_g).
  vm_compute. reflexivity.
Defined.

(** ** Writing a setting *)

Lemma interpret_file_found p lookup_subsystems w f :
  interpret_cgroup_path p lookup_subsystems w = Ok (is_file f) →
  ∃ s, requested lookup_subsystems s ∧ has_file w p s ∧ f = subsystem_path s p.
Proof.
  intros Hi.
  destruct (iter_subsystems lookup_subsystems false w) as [l|e] eqn:Hl.
  2:{ unfold interpret_cgroup_path in Hi. by rewrite Hl in Hi. }
  rewrite (interpret_unfold p _ _ _ Hl) in Hi.
  destruct (os.join p) as [full_path|]; [|done]. cbn [bindR] in Hi.
  destruct (_ && _); [by destruct (new_CGroupLookupError _ _)|].
  destruct (Nat.ltb 1 _); [done|].
  destruct (Nat.eqb _ 1) eqn:Hone.
  - apply Nat.eqb_eq in Hone.
    destruct (single_file_found p w l Hone) as (s & Hs & Hf & Heq).
    rewrite Heq in Hi. injection Hi as <-. exists s. split_and!; [|done|done].
    by apply (elem_of_iter_subsystems _ _ _ _ s Hl).
  - by destruct (Nat.ltb 0 _).
Qed.

(** X24.  [put] creates nothing.  When it returns it has written the
    value and a line feed, by one write, to the path of the key in a
    subsystem of the instance where it was a file, and it returns the
    length of what it wrote; where it raises it has written nothing.  No
    other path is touched in either case. *)
Theorem Cgroup_put_writes self k value w :
  let p := Cgroup.path_parts self ++ key_names k in
  let text := value +:+ "
" in
  let r := Cgroup.put self k value w in
  ((∃ s, s ∈ Cgroup.subsystems self ∧ has_file w p s
         ∧ r.1 = Ok (String.length text)
         ∧ written r.2 = written w ++ [(subsystem_path s p, text)]
         ∧ ∀ k', k' ≠ subsystem_path s p → os.stat r.2 k' = os.stat w k')
   ∨ (∃ e, r = (Raise e, w))).
Proof.
  intros p text r. unfold r. clear r.
  remember (Cgroup.put self k value w) as r eqn:Hr.
  unfold Cgroup.put in Hr. unfold bindM at 1, lift in Hr.
  destruct (interpret_cgroup_path _ _ w) as [[f|X|]|e] eqn:Hi;
    [|right; by eexists..].
  apply interpret_file_found in Hi as (s & Hs%requested_lookup_of & Hf & ->).
  fold p text in Hr. unfold bindM in Hr.
  destruct (write_cases (subsystem_path s p) text w)
    as [(Hw & _)|[(ids & i & _ & _ & _ & Hw)|(e & Hw)]]; rewrite Hw in Hr;
    subst r.
  - left. exists s. split_and!; try done. intros k' Hk. by apply stat_put_ne.
  - left. exists s. split_and!; try done. intros k' Hk. by apply stat_put_ne.
  - right. by exists e.
Qed.
